(** * The scenario execution engine of aiops-web-inject (app.py)

    A shallow embedding of the background request generator of
    [src/aiops-web-inject/app.py]: [send_single_request],
    [send_continuous_requests], [start_requests], [stop_requests] and
    [recover_all], together with the part of the Python runtime they rely
    on ([threading.Event], [threading.Thread], [time.sleep], [requests]),
    and of the routes that drive it: [check_connection], [get_status],
    [inject_error], [recover_error], [get_config] and [update_config].

    Modelling conventions.
    - Time is a discrete clock in milliseconds ([Z]).  Statements that do
      not block take no time; [time.sleep(2)] takes 2000 ms; an outbound
      HTTP call takes the time its reply needs; [join(timeout=s)] waits
      until the thread has finished or [1000 * s] ms have passed.
      Reading config.json and starting a thread count as not blocking:
      the loop check of a cycle and the calls of that cycle fall on one
      instant.  What is stated about calls after a stop is therefore
      stated for a stop that falls in a sleep only, and bounds on how
      long a runner lives are stated from how long its cycles take.
    - Everything outside the program is an oracle of the environment:
      what reading config.json gives at each instant, the reply to the
      n-th outbound call, and the text [time.time()] renders to.  Reading
      config.json either raises (the file cannot be opened or parsed) or
      gives the content of the file, which, when the file exists, is
      taken to be a JSON object with string values (what [save_config]
      writes).  For the routes, the parser behind
      [response.json()] and the class hierarchy behind
      [except requests.exceptions.Timeout] are oracles as well, and the
      body of a POST ([request.json]) is a dict of strings.
    - Python exceptions are values: a computation returns [Ok v] or
      [Raise e], and [try: ... except Exception as e: ...] is
      [try_except].
    - The three module-level dicts are fields of the [world]; Event and
      Thread objects live in two heaps addressed by index, so that two
      dict entries can alias one object. *)

From Stdlib Require Import ZArith NArith String List Bool Lia.
From stdpp Require Import gmap strings list fin_maps pretty.

Local Open Scope string_scope.
Local Open Scope list_scope.
Local Open Scope Z_scope.

(** ** Values of the Python runtime *)

(** An exception caught by [except Exception as e], with [str(e)]. *)
Record exn := Exception { exn_class : string; exn_str : string }.

Inductive http_method := GET | POST.

(** One call of [requests.get] / [requests.post]; [call_timeout] is the
    [timeout=] argument in seconds, [call_json] the [json=] argument. *)
Record http_call := HttpCall {
  call_method : http_method;
  call_url : string;
  call_json : option (list (string * string));
  call_timeout : Z
}.

Record response := Response { status_code : Z; text : string }.

(** What the network does with a call: the time it takes (ms) and either
    an exception of [requests] or a response. *)
Record reply := Reply { reply_after : N; reply_result : exn + response }.

(** Observable actions, each recorded with the clock value at which it
    happens. *)
Inductive action :=
| Http (c : http_call)
| Print (msg : string)
| Sleep (ms : Z)
| ThreadStart.

(** A [threading.Thread(target=send_continuous_requests, args=(key, max))]
    object; [th_started] holds the instant of [start()] and the Event the
    target found in [stop_events] when it began to run. *)
Record thread := Thread {
  th_key : string;
  th_max : option Z;
  th_started : option (Z * option nat)
}.

(** ** The world *)

Record world := World {
  clock : Z;
  trace : list (Z * action);
  request_threads : gmap string nat;
  stop_events : gmap string nat;
  recovery_mode : gmap string bool;
  events : list (option Z);
  threads : list thread
}.

Definition with_clock (c : Z) (w : world) : world :=
  World c (trace w) (request_threads w) (stop_events w) (recovery_mode w)
        (events w) (threads w).
Definition with_trace (t : list (Z * action)) (w : world) : world :=
  World (clock w) t (request_threads w) (stop_events w) (recovery_mode w)
        (events w) (threads w).
Definition with_request_threads (m : gmap string nat) (w : world) : world :=
  World (clock w) (trace w) m (stop_events w) (recovery_mode w)
        (events w) (threads w).
Definition with_stop_events (m : gmap string nat) (w : world) : world :=
  World (clock w) (trace w) (request_threads w) m (recovery_mode w)
        (events w) (threads w).
Definition with_recovery_mode (m : gmap string bool) (w : world) : world :=
  World (clock w) (trace w) (request_threads w) (stop_events w) m
        (events w) (threads w).
Definition with_events (l : list (option Z)) (w : world) : world :=
  World (clock w) (trace w) (request_threads w) (stop_events w)
        (recovery_mode w) l (threads w).
Definition with_threads (l : list thread) (w : world) : world :=
  World (clock w) (trace w) (request_threads w) (stop_events w)
        (recovery_mode w) (events w) l.

(** The state of the module right after import: the three dicts are
    empty and no Event or Thread exists. *)
Definition initial_world (t0 : Z) : world :=
  World t0 [] ∅ ∅ ∅ [] [].

(** ** Computations: state and exceptions *)

Inductive res (A : Type) :=
| Ok (a : A)
| Raise (e : exn).
Arguments Ok {A} a.
Arguments Raise {A} e.

Definition M (A : Type) : Type := world -> res A * world.

Definition ret {A} (a : A) : M A := fun w => (Ok a, w).
Definition raise {A} (e : exn) : M A := fun w => (Raise e, w).
Definition bind {A B} (m : M A) (k : A -> M B) : M B :=
  fun w => match m w with
           | (Ok a, w') => k a w'
           | (Raise e, w') => (Raise e, w')
           end.
Definition try_except {A} (body : M A) (handler : exn -> M A) : M A :=
  fun w => match body w with
           | (Ok a, w') => (Ok a, w')
           | (Raise e, w') => handler e w'
           end.

#[global] Instance M_ret : MRet M := @ret.
#[global] Instance M_bind : MBind M := fun A B k m => bind m k.

Definition get_world : M world := fun w => (Ok w, w).
Definition emit (a : action) : M unit :=
  fun w => (Ok tt, with_trace (trace w ++ [(clock w, a)]) w).
Definition advance (ms : Z) : M unit :=
  fun w => (Ok tt, with_clock (clock w + ms) w).

(** [print(msg)] *)
Definition print (msg : string) : M unit := emit (Print msg).

(** [time.sleep(seconds)]: the thread is blocked for the whole duration;
    nothing can shorten it. *)
Definition time_sleep (seconds : Z) : M unit :=
  emit (Sleep (1000 * seconds));; advance (1000 * seconds).

(** [d[k]] on a dict: raises [KeyError] when the key is missing. *)
Definition subscript (d : gmap string string) (k : string) : M string :=
  match d !! k with
  | Some v => ret v
  | None => raise (Exception "KeyError" ("'" +:+ k +:+ "'"))
  end.

Definition is_http (e : Z * action) : bool :=
  match snd e with Http _ => true | _ => false end.
Definition is_thread_start (e : Z * action) : bool :=
  match snd e with ThreadStart => true | _ => false end.
Definition is_sleep (e : Z * action) : bool :=
  match snd e with Sleep _ => true | _ => false end.

(** The outbound calls of a trace, in order. *)
Fixpoint http_calls (t : list (Z * action)) : list (Z * http_call) :=
  match t with
  | [] => []
  | (at_, Http c) :: t' => (at_, c) :: http_calls t'
  | _ :: t' => http_calls t'
  end.

(** ** The scenario table of app.py (lines 14-45) *)

Definition scenario_def (name description alarm request_type : string)
    : gmap string string :=
  <["name" := name]> (<["description" := description]>
    (<["alarm" := alarm]> (<["request_type" := request_type]> ∅))).

Definition SCENARIOS : list (string * gmap string string) :=
  [ ("s3_access",
     scenario_def "场景1: S3访问拒绝"
       "通过Bucket Policy阻止S3写入，模拟权限配置错误"
       "PostItems-5XX" "post_items");
    ("latency",
     scenario_def "场景2: API延迟"
       "注入3000ms延迟到GET /items接口，模拟网络或后端响应慢"
       "GetAllItems-Latency" "get_items");
    ("wrong_ids",
     scenario_def "场景3: 资源不存在(404)"
       "返回404错误，模拟请求不存在的资源ID"
       "GetItemById-4XX" "get_by_id");
    ("lambda_throttle",
     scenario_def "场景4: Lambda限流"
       "限制Lambda并发为1，模拟高并发下的429限流错误"
       "PostItems-4XX" "post_items");
    ("dynamodb_throttle",
     scenario_def "场景5: DynamoDB限流"
       "模拟DynamoDB吞吐量超限，返回500错误"
       "PostItems-5XX" "post_items") ].

(** ** Sample environments *)

Definition sample_config : gmap string string :=
  <["error_injection_api" := "http://inject.test/api"]>
    (<["sample_api" := "http://sample.test"]> ∅).

(** config.json never changes and holds [sample_config]. *)
Definition steady_file : Z -> exn + option (gmap string string) :=
  fun _ => inr (Some sample_config).

(** Every call is answered with status 200 after [ms] milliseconds. *)
Definition steady_network (ms : N) : nat -> http_call -> reply :=
  fun _ _ => Reply ms (inr (Response 200 "ok")).

(** Every call times out after [ms] milliseconds. *)
Definition failing_network (ms : N) : nat -> http_call -> reply :=
  fun _ _ => Reply ms (inl (Exception "Timeout" "timed out")).

Definition sample_time : Z -> string := fun t => pretty t.

(** A world whose only Event, number 0, is clear. *)
Definition one_event_world : world := with_events [None] (initial_world 0).

(** The same world with that Event registered for a scenario key, as
    [start_requests] leaves it for the runner it launches. *)
Definition registered_world (scenario_type : string) : world :=
  with_stop_events {[scenario_type := 0%nat]} one_event_world.

(** A world whose only Event, number 0, was set at instant 500. *)
Definition stopped_at_500_world : world :=
  with_events [Some 500] (initial_world 0).

(** config.json names one sample API before instant 1000 and another one
    from then on. *)
Definition edited_file : Z -> exn + option (gmap string string) :=
  fun t => if t <? 1000
           then inr (Some (<["sample_api" := "http://old.test"]> ∅))
           else inr (Some (<["sample_api" := "http://new.test"]> ∅)).

(** config.json exists and holds an empty dict. *)
Definition blank_file : Z -> exn + option (gmap string string) :=
  fun _ => inr (Some ∅).

(** config.json exists and is empty, as it is while [save_config] is
    rewriting it: [json.load] raises. *)
Definition broken_file : Z -> exn + option (gmap string string) :=
  fun _ => inl (Exception "JSONDecodeError"
                  "Expecting value: line 1 column 1 (char 0)").

(** ** JSON values and the answers of the routes *)

(** What [response.json()] and [jsonify] deal in.  An object keeps its
    fields in a list, first occurrence of a key first; numbers are
    integers. *)
#[local] Unset Elimination Schemes.
Inductive json :=
| JNull
| JBool (b : bool)
| JNum (n : Z)
| JStr (s : string)
| JList (items : list json)
| JObj (fields : list (string * json)).
#[local] Set Elimination Schemes.

(** [d.get(k)] on the fields of an object. *)
Fixpoint obj_lookup (fields : list (string * json)) (k : string) : option json :=
  match fields with
  | [] => None
  | (k', v) :: rest => if String.eqb k' k then Some v else obj_lookup rest k
  end.

(** [d[k] = v] on the fields of an object: the value of an existing key
    is replaced, a new key is added at the end. *)
Fixpoint obj_insert (fields : list (string * json)) (k : string) (v : json)
    : list (string * json) :=
  match fields with
  | [] => [(k, v)]
  | (k', v') :: rest =>
      if String.eqb k' k then (k, v) :: rest
      else (k', v') :: obj_insert rest k v
  end.

(** The Python type name of a JSON value, as error messages print it. *)
Definition type_name (j : json) : string :=
  match j with
  | JNull => "NoneType"
  | JBool _ => "bool"
  | JNum _ => "int"
  | JStr _ => "str"
  | JList _ => "list"
  | JObj _ => "dict"
  end.

(** [d[k] = v] with a string key on any JSON value: only a dict takes it. *)
Definition set_item (d : json) (k : string) (v : json) : M json :=
  match d with
  | JObj fields => ret (JObj (obj_insert fields k v))
  | JList _ =>
      raise (Exception "TypeError"
               "list indices must be integers or slices, not str")
  | _ =>
      raise (Exception "TypeError"
               ("'" +:+ type_name d +:+ "' object does not support item assignment"))
  end.

(** A dict of strings as a JSON object. *)
Definition json_of_dict (d : gmap string string) : json :=
  JObj (map (fun kv => (fst kv, JStr (snd kv))) (map_to_list d)).

(** What a route returns: [jsonify(body)] alone has status 200,
    [jsonify(body), status] the status given. *)
Record answer := Answer { answer_body : json; answer_status : Z }.

(** ** config.json as a file (app.py, lines 47-58 and 156-174)

    The routes that read and write the file, over the content of a file
    that can be read: [None] when it does not exist, the dict it holds
    otherwise.  On a file that cannot be read both routes raise in
    [load_config], before anything is written. *)
Module ConfigFile.

Definition load_config (file : option (gmap string string))
    : gmap string string :=
  match file with
  | Some j => j
  | None => <["error_injection_api" := ""]> (<["sample_api" := ""]> ∅)
  end.

Definition save_config (config : gmap string string)
    (file : option (gmap string string)) : option (gmap string string) :=
  Some config.

(** Truth value of [config.get(k)]: [None] and the empty string are falsy. *)
Definition truthy (v : option string) : bool :=
  match v with
  | Some s => negb (String.eqb s "")
  | None => false
  end.

Definition get_config (file : option (gmap string string)) : answer :=
  let config := load_config file in
  Answer
    (JObj [("error_injection_api",
            JStr (default "" (config !! "error_injection_api")));
           ("sample_api", JStr (default "" (config !! "sample_api")));
           ("configured",
            JBool (truthy (config !! "error_injection_api")
                   && truthy (config !! "sample_api")))])
    200.

(** The answer and the new content of the file. *)
Definition update_config (data : gmap string string)
    (file : option (gmap string string))
    : answer * option (gmap string string) :=
  let config := load_config file in
  let config :=
    match data !! "error_injection_api" with
    | Some v => <["error_injection_api" := v]> config
    | None => config
    end in
  let config :=
    match data !! "sample_api" with
    | Some v => <["sample_api" := v]> config
    | None => config
    end in
  (Answer (JObj [("success", JBool true); ("config", json_of_dict config)]) 200,
   save_config config file).

End ConfigFile.

(** A body that parses as JSON exactly when it is the text ["{}"]. *)
Definition sample_decode (r : response) : exn + json :=
  if String.eqb (text r) "{}" then inr (JObj [])
  else inl (Exception "JSONDecodeError" "Expecting value").

(** Exceptions are told apart by their class name alone. *)
Definition sample_isinstance (e : exn) (cls : string) : bool :=
  String.eqb (exn_class e) cls.

(** Every call is answered with status 200 and an empty JSON object. *)
Definition json_network (ms : N) : nat -> http_call -> reply :=
  fun _ _ => Reply ms (inr (Response 200 "{}")).

(** Every call is answered with status 503. *)
Definition unavailable_network (ms : N) : nat -> http_call -> reply :=
  fun _ _ => Reply ms (inr (Response 503 "unavailable")).

Section Engine.

(** ** The environment *)

(** What reading config.json gives at each instant: the exception that
    [open] or [json.load] raises, or the content of the file ([None]: no
    such file). *)
Variable config_file : Z -> exn + option (gmap string string).
(** Reply to the n-th outbound call of the executing thread. *)
Variable network : nat -> http_call -> reply.
(** Text of [time.time()] at each instant. *)
Variable time_repr : Z -> string.
(** The module-level table [SCENARIOS], in definition order. *)
Variable scenarios : list (string * gmap string string).

(** ** config.json (app.py, lines 47-54) *)

(** [json.load] of the file when it exists, the default dict otherwise;
    an exception of [open] or [json.load] goes to the caller. *)
Definition load_config : M (gmap string string) :=
  fun w => match config_file (clock w) with
           | inl e => (Raise e, w)
           | inr (Some j) => (Ok j, w)
           | inr None => (Ok (<["error_injection_api" := ""]> (<["sample_api" := ""]> ∅)), w)
           end.

(** ** requests *)

(** One outbound call: it is recorded at the instant it is made, blocks
    the caller for as long as the reply takes, and either raises or
    returns the response.  How long a call may take is left to the
    environment, whatever its timeout. *)
Definition request (c : http_call) : M response :=
  fun w =>
    let r := network (length (http_calls (trace w))) c in
    let w' := with_clock (clock w + Z.of_N (reply_after r))
                (with_trace (trace w ++ [(clock w, Http c)]) w) in
    match reply_result r with
    | inl e => (Raise e, w')
    | inr resp => (Ok resp, w')
    end.

Definition requests_get (url : string) (timeout : Z) : M response :=
  request (HttpCall GET url None timeout).
Definition requests_post (url : string) (json : list (string * string))
    (timeout : Z) : M response :=
  request (HttpCall POST url (Some json) timeout).

Definition time_time : M string := fun w => (Ok (time_repr (clock w)), w).

(** ** send_single_request (app.py, lines 65-76) *)

Definition send_single_request (config : gmap string string)
    (request_type : string) : M unit :=
  try_except
    (if String.eqb request_type "get_items" then
       base ← subscript config "sample_api";
       requests_get (base +:+ "/items") 5;;
       ret tt
     else if String.eqb request_type "get_by_id" then
       base ← subscript config "sample_api";
       requests_get (base +:+ "/items/test-id-1") 5;;
       ret tt
     else
       now ← time_time;
       let test_data :=
         [("name", "Error Trigger"); ("content", "Request at " +:+ now)] in
       base ← subscript config "sample_api";
       requests_post (base +:+ "/items") test_data 5;;
       ret tt)
    (fun e => print ("Request failed: " +:+ exn_str e)).

(** ** Worker threads of one burst *)

(** [t = threading.Thread(target=body); t.start()] for a short-lived
    worker.  The worker runs on its own timeline from the current instant
    and what it does is recorded in the trace; the caller goes on at once.
    The handle kept by the caller is the instant at which the worker
    finishes.  An exception in the worker ends the worker only. *)
Definition spawn (body : M unit) : M Z :=
  fun w =>
    let w0 := with_trace (trace w ++ [(clock w, ThreadStart)]) w in
    let '(_, w1) := body w0 in
    (Ok (clock w1), with_clock (clock w) w1).

(** [t.join(timeout=seconds)] on such a handle. *)
Definition join (finish : Z) (seconds : Z) : M unit :=
  fun w =>
    (Ok tt,
     with_clock (Z.max (clock w) (Z.min finish (clock w + 1000 * seconds))) w).

(** [for _ in range(n): t = Thread(...); t.start(); threads.append(t)] *)
Fixpoint start_threads (n : nat) (body : M unit) : M (list Z) :=
  match n with
  | O => ret []
  | S n' =>
      t ← spawn body;
      ts ← start_threads n' body;
      ret (t :: ts)
  end.

(** [for t in threads: t.join(timeout=seconds)] *)
Fixpoint join_threads (ts : list Z) (seconds : Z) : M unit :=
  match ts with
  | [] => ret tt
  | t :: ts' => join t seconds;; join_threads ts' seconds
  end.

(** ** threading.Event *)

(** An Event is [None] while clear and [Some s] once [set()] was called
    at instant [s]; no code of the program ever calls [clear()]. *)
Definition is_set (ev : nat) : M bool :=
  fun w =>
    (Ok match events w !! ev with
        | Some (Some s) => s <=? clock w
        | _ => false
        end, w).

Definition event_set (ev : nat) : M unit :=
  fun w =>
    (Ok tt,
     match events w !! ev with
     | Some None => with_events (<[ev := Some (clock w)]> (events w)) w
     | _ => w
     end).

Definition new_event : M nat :=
  fun w => (Ok (length (events w)), with_events (events w ++ [None]) w).

(** ** send_continuous_requests (app.py, lines 78-117) *)

Inductive runner_state := Running | Stopped.

(** [SCENARIOS.get(key)] *)
Fixpoint table_get (table : list (string * gmap string string)) (key : string)
    : option (gmap string string) :=
  match table with
  | [] => None
  | (k, d) :: rest => if String.eqb k key then Some d else table_get rest key
  end.

(** [max_requests and request_count >= max_requests]: [None] and [0] are
    both falsy. *)
Definition budget_reached (max_requests : option Z) (request_count : Z) : bool :=
  match max_requests with
  | None => false
  | Some n => negb (n =? 0) && (n <=? request_count)
  end.

Definition show_max (max_requests : option Z) : string :=
  match max_requests with
  | None => "None"
  | Some n => pretty n
  end.

(** The [try: ... except Exception as e: ...] of one cycle (lines 96-116);
    the result is the new value of [request_count]. *)
Definition cycle (scenario_type : string) (request_count : Z) : M Z :=
  try_except
    (config ← load_config;
     let scenario := default ∅ (table_get scenarios scenario_type) in
     let request_type := default "post_items" (scenario !! "request_type") in
     if String.eqb scenario_type "lambda_throttle" then
       ts ← start_threads 5 (send_single_request config request_type);
       join_threads ts 10;;
       ret (request_count + 5)
     else
       send_single_request config request_type;;
       ret (request_count + 1))
    (fun e =>
       print ("Request failed (" +:+ scenario_type +:+ "): " +:+ exn_str e);;
       ret request_count).

(** The [while not stop_event.is_set():] loop.  [fuel] bounds the number
    of iterations that are run; a run that uses it up is still [Running].
    The result also gives the final value of [request_count]. *)
Fixpoint while_loop (fuel : nat) (scenario_type : string)
    (max_requests : option Z) (stop_event : nat) (request_count : Z)
    : M (runner_state * Z) :=
  match fuel with
  | O => ret (Running, request_count)
  | S fuel' =>
      stopped ← is_set stop_event;
      if (stopped : bool) then ret (Stopped, request_count)
      else if budget_reached max_requests request_count then
        print ("Recovery requests completed (" +:+ pretty request_count +:+ "/"
               +:+ show_max max_requests +:+ ") for " +:+ scenario_type);;
        ret (Stopped, request_count)
      else
        request_count' ← cycle scenario_type request_count;
        time_sleep 2;;
        while_loop fuel' scenario_type max_requests stop_event request_count'
  end.

Definition send_continuous_requests (fuel : nat) (scenario_type : string)
    (max_requests : option Z) : M (runner_state * Z) :=
  w ← get_world;
  match stop_events w !! scenario_type with
  | None => ret (Stopped, 0)
  | Some stop_event =>
      while_loop fuel scenario_type max_requests stop_event 0
  end.

(** ** Runner threads *)

(** Number of iterations after which a runner started at [start] is past
    [horizon]: every iteration sleeps 2000 ms. *)
Definition cycles_until (start horizon : Z) : nat :=
  Z.to_nat ((horizon - start) / 2000 + 2).

(** Where a started runner thread is, seen from a world whose Events are
    as they are now: its state once its clock is past [horizon] (or it
    has stopped), and the instant it stopped at.  [None]: never started. *)
Definition thread_run (horizon : Z) (w : world) (t : thread)
    : option (runner_state * Z) :=
  match th_started t with
  | None => None
  | Some (start, None) => Some (Stopped, start)
  | Some (start, Some stop_event) =>
      let w0 := with_trace [] (with_clock start w) in
      match while_loop (cycles_until start horizon) (th_key t) (th_max t)
                       stop_event 0 w0 with
      | (Ok (st, _), w1) => Some (st, clock w1)
      | (Raise _, w1) => Some (Stopped, clock w1)
      end
  end.

(** [t.is_alive()] *)
Definition thread_is_alive (th : nat) : M bool :=
  fun w =>
    (Ok match threads w !! th with
        | Some t =>
            match thread_run (clock w) w t with
            | Some (Stopped, finish) => clock w <? finish
            | Some (Running, _) => true
            | None => false
            end
        | None => false
        end, w).

(** [t.join(timeout=seconds)] *)
Definition thread_join (th : nat) (seconds : Z) : M unit :=
  fun w =>
    let deadline := clock w + 1000 * seconds in
    match threads w !! th with
    | Some t =>
        match thread_run deadline w t with
        | Some (Stopped, finish) =>
            (Ok tt, with_clock (Z.max (clock w) (Z.min finish deadline)) w)
        | Some (Running, _) => (Ok tt, with_clock deadline w)
        | None =>
            (Raise (Exception "RuntimeError"
                      "cannot join thread before it is started"), w)
        end
    | None => (Ok tt, w)
    end.

Definition new_thread (scenario_type : string) (max_requests : option Z)
    : M nat :=
  fun w =>
    (Ok (length (threads w)),
     with_threads (threads w ++ [Thread scenario_type max_requests None]) w).

(** [t.start()]: the target begins with [stop_events.get(scenario_type)]. *)
Definition thread_start (th : nat) : M unit :=
  fun w =>
    match threads w !! th with
    | Some t =>
        (Ok tt,
         with_threads
           (<[th := Thread (th_key t) (th_max t)
                      (Some (clock w, stop_events w !! th_key t))]> (threads w))
           w)
    | None => (Ok tt, w)
    end.

(** ** start_requests and stop_requests (app.py, lines 119-150) *)

Definition start_requests (scenario_type : string) (max_requests : option Z)
    (is_recovery : bool) : M unit :=
  w ← get_world;
  match stop_events w !! scenario_type with
  | Some ev =>
      event_set ev;;
      match request_threads w !! scenario_type with
      | Some th =>
          alive ← thread_is_alive th;
          if (alive : bool) then thread_join th 3 else ret tt
      | None => ret tt
      end
  | None => ret tt
  end;;
  (fun w => (Ok tt,
     with_recovery_mode (<[scenario_type := is_recovery]> (recovery_mode w)) w));;
  ev ← new_event;
  (fun w => (Ok tt,
     with_stop_events (<[scenario_type := ev]> (stop_events w)) w));;
  th ← new_thread scenario_type max_requests;
  (fun w => (Ok tt,
     with_request_threads (<[scenario_type := th]> (request_threads w)) w));;
  thread_start th.

Definition stop_requests (scenario_type : string) : M unit :=
  w ← get_world;
  match stop_events w !! scenario_type with
  | Some ev => event_set ev
  | None => ret tt
  end.

(** ** recover_all (app.py, lines 296-314) *)

(** The [for scenario_type in SCENARIOS.keys():] loop. *)
Fixpoint recover_each (keys : list string) (config : gmap string string)
    (results : gmap string string) : M (gmap string string) :=
  match keys with
  | [] => ret results
  | scenario_type :: rest =>
      results' ← try_except
        (stop_requests scenario_type;;
         url ← subscript config "error_injection_api";
         response ← requests_post url
           [("action", "recover"); ("error_type", scenario_type)] 10;
         ret (<[scenario_type :=
                  if status_code response =? 200 then "recovered" else "failed"]>
                results))
        (fun e => ret (<[scenario_type := "error: " +:+ exn_str e]> results));
      recover_each rest config results'
  end.

(** The result is the payload handed to [jsonify]. *)
Definition recover_all : M (string * gmap string string) :=
  config ← load_config;
  results ← recover_each (map fst scenarios) config ∅;
  ret ("All scenarios recovered", results).


(** ** Auxiliary definitions for the statements *)

(** [after w d c] is [w] with [d] appended to its trace and the clock at
    [c]: runner-side code changes nothing else. *)
Definition after (w : world) (d : list (Z * action)) (c : Z) : world :=
  with_clock c (with_trace (trace w ++ d) w).

(** The call [send_single_request] makes for a request type, given the
    value of [config['sample_api']] and the text of [time.time()]. *)
Definition call_for (request_type base stamp : string) : http_call :=
  if String.eqb request_type "get_items" then
    HttpCall GET (base +:+ "/items") None 5
  else if String.eqb request_type "get_by_id" then
    HttpCall GET (base +:+ "/items/test-id-1") None 5
  else
    HttpCall POST (base +:+ "/items")
      (Some [("name", "Error Trigger"); ("content", "Request at " +:+ stamp)]) 5.

(** Whether [load_config] returns at instant [t]. *)
Definition readable (t : Z) : bool :=
  match config_file t with
  | inr _ => true
  | inl _ => false
  end.

(** The config a cycle that starts at instant [t] loads.  When
    [load_config] raises there is none: the empty dict stands for it, no
    entry can be had from it. *)
Definition config_at (t : Z) : gmap string string :=
  match config_file t with
  | inr (Some j) => j
  | inr None => <["error_injection_api" := ""]> (<["sample_api" := ""]> ∅)
  | inl _ => ∅
  end.

(** The request type a cycle resolves for a scenario key (lines 98-99). *)
Definition request_type_of (scenario_type : string) : string :=
  default "post_items"
    (default ∅ (table_get scenarios scenario_type) !! "request_type").

(** By how much one cycle increases [request_count] when its
    [load_config] returns. *)
Definition step_of (scenario_type : string) : Z :=
  if String.eqb scenario_type "lambda_throttle" then 5 else 1.

(** By how much the cycle that starts at instant [t] increases
    [request_count]: a cycle whose [load_config] raises adds nothing. *)
Definition gain (scenario_type : string) (t : Z) : Z :=
  if readable t then step_of scenario_type else 0.

(** The outbound calls of [n] units that all start at instant [t]. *)
Definition unit_calls (n : nat) (config : gmap string string)
    (request_type : string) (t : Z) : list (Z * http_call) :=
  match config !! "sample_api" with
  | Some base => replicate n (t, call_for request_type base (time_repr t))
  | None => []
  end.

(** A stretch of trace recorded from instant [t] on that holds no sleep. *)
Definition busy_from (t : Z) (d : list (Z * action)) : Prop :=
  Forall (fun e => t <= fst e) d /\ filter is_sleep d = [].

(** Two records of one run, the first made before the second, that are
    at least the 2000 ms of a sleep apart. *)
Definition cadence {A} (e1 e2 : Z * A) : Prop := fst e1 + 2000 <= fst e2.

(** What [stop_event.is_set()] answers in world [w]. *)
Definition signalled (ev : nat) (w : world) : bool :=
  match events w !! ev with
  | Some (Some s) => s <=? clock w
  | _ => false
  end.

Definition completed_message (scenario_type : string) (max_requests : option Z)
    (request_count : Z) : string :=
  "Recovery requests completed (" +:+ pretty request_count +:+ "/"
    +:+ show_max max_requests +:+ ") for " +:+ scenario_type.

(** The runs of the loop, as a relation: [loop_run key max ev fuel rc w st
    rc' d c] says that [fuel] iterations from world [w] with
    [request_count = rc] end in state [st] with [request_count = rc'],
    having recorded [d] and moved the clock to [c]. *)
Inductive loop_run (scenario_type : string) (max_requests : option Z)
    (ev : nat) : nat -> Z -> world -> runner_state -> Z ->
                 list (Z * action) -> Z -> Prop :=
| run_fuel rc w :
    loop_run scenario_type max_requests ev O rc w Running rc [] (clock w)
| run_signal fuel rc w :
    signalled ev w = true ->
    loop_run scenario_type max_requests ev (S fuel) rc w Stopped rc [] (clock w)
| run_budget fuel rc w :
    signalled ev w = false ->
    budget_reached max_requests rc = true ->
    loop_run scenario_type max_requests ev (S fuel) rc w Stopped rc
      [(clock w, Print (completed_message scenario_type max_requests rc))]
      (clock w)
| run_cycle fuel rc w d c st rc' d' c' :
    signalled ev w = false ->
    budget_reached max_requests rc = false ->
    cycle scenario_type rc w
      = (Ok (rc + gain scenario_type (clock w)), after w d c) ->
    clock w <= c ->
    http_calls d = unit_calls (Z.to_nat (step_of scenario_type))
                     (config_at (clock w)) (request_type_of scenario_type)
                     (clock w) ->
    busy_from (clock w) d ->
    loop_run scenario_type max_requests ev fuel
      (rc + gain scenario_type (clock w))
      (after w (d ++ [(c, Sleep 2000)]) (c + 2000)) st rc' d' c' ->
    loop_run scenario_type max_requests ev (S fuel) rc w st rc'
      (d ++ (c, Sleep 2000) :: d') c'.

(** [t.is_alive()] as a boolean. *)
Definition alive (th : nat) (w : world) : bool :=
  match fst (thread_is_alive th w) with
  | Ok b => b
  | Raise _ => false
  end.

Definition live_runner (scenario_type : string) (w : world) (th : nat) : bool :=
  match threads w !! th with
  | Some t => String.eqb (th_key t) scenario_type && alive th w
  | None => false
  end.

(** The runner threads of a scenario key that are alive in [w]. *)
Definition live_runners (scenario_type : string) (w : world) : list nat :=
  filter (live_runner scenario_type w) (seq 0 (length (threads w))).

(** The Event heap after [stop_events[key].set()], when there is one. *)
Definition events_after_stop (scenario_type : string) (w : world)
    : list (option Z) :=
  match stop_events w !! scenario_type with
  | Some ev =>
      match events w !! ev with
      | Some None => <[ev := Some (clock w)]> (events w)
      | _ => events w
      end
  | None => events w
  end.

(** A computation is [view_local] when its result and what it records
    depend on the clock and the trace only: it runs alike in two worlds
    that agree on these. *)
Definition view_local {A} (m : M A) : Prop :=
  forall w w', clock w = clock w' -> trace w = trace w' ->
    exists r d c, m w = (r, after w d c) /\ m w' = (r, after w' d c).

(** The outcomes [recover_all] reports. *)
Definition outcome (v : string) : Prop :=
  v = "recovered" \/ v = "failed" \/ exists msg, v = "error: " +:+ msg.

(** ** The routes (app.py, lines 180-294) *)

(** [response.json()]: the parsed body, or the exception of the parser. *)
Variable decode_json : response -> exn + json.
(** [isinstance(e, cls)] for the exception classes of [requests]. *)
Variable is_instance : exn -> string -> bool.

Definition response_json (r : response) : M json :=
  match decode_json r with
  | inl e => raise e
  | inr j => ret j
  end.

(** [SCENARIOS[key]] *)
Definition table_subscript (key : string) : M (gmap string string) :=
  match table_get scenarios key with
  | Some d => ret d
  | None => raise (Exception "KeyError" ("'" +:+ key +:+ "'"))
  end.

(** [not s] on a string. *)
Definition is_empty (s : string) : bool := String.eqb s "".

(** check_connection (lines 180-221); [data] is [request.json]. *)
Definition check_connection (data : gmap string string) : M answer :=
  let error_api := default "" (data !! "error_injection_api") in
  let sample_api := default "" (data !! "sample_api") in
  if is_empty error_api || is_empty sample_api then
    ret (Answer (JObj [("connected", JBool false);
                       ("error", JStr "API 地址未配置")]) 200)
  else
    let errors := [] in
    errors ← try_except
      (response ← requests_post error_api [("action", "status")] 5;
       if negb (status_code response =? 200) then
         ret (errors ++ ["Error Injection API 返回 "
                         +:+ pretty (status_code response)])
       else ret errors)
      (fun e =>
         if is_instance e "requests.exceptions.Timeout" then
           ret (errors ++ ["Error Injection API 连接超时"])
         else if is_instance e "requests.exceptions.ConnectionError" then
           ret (errors ++ ["Error Injection API 无法连接"])
         else ret (errors ++ ["Error Injection API: " +:+ exn_str e]));
    errors ← try_except
      (requests_get (sample_api +:+ "/items") 5;;
       ret errors)
      (fun e =>
         if is_instance e "requests.exceptions.Timeout" then
           ret (errors ++ ["Sample API 连接超时"])
         else if is_instance e "requests.exceptions.ConnectionError" then
           ret (errors ++ ["Sample API 无法连接"])
         else ret (errors ++ ["Sample API: " +:+ exn_str e]));
    match errors with
    | [] => ret (Answer (JObj [("connected", JBool true)]) 200)
    | _ => ret (Answer (JObj [("connected", JBool false);
                              ("error", JStr (String.concat "; " errors))])
                  200)
    end.

(** The two dict comprehensions of get_status (lines 231-238). *)
Definition active_requests (w : world) : json :=
  JObj (map (fun kv => (fst kv, JBool (alive (snd kv) w)))
            (map_to_list (request_threads w))).

Definition recovery_requests (w : world) : json :=
  JObj (map (fun kv =>
               (fst kv,
                JBool (alive (snd kv) w
                       && default false (recovery_mode w !! fst kv))))
            (map_to_list (request_threads w))).

(** get_status (lines 223-243) *)
Definition get_status : M answer :=
  try_except
    (config ← load_config;
     url ← subscript config "error_injection_api";
     response ← requests_post url [("action", "status")] 10;
     if status_code response =? 200 then
       data ← response_json response;
       w ← get_world;
       data ← set_item data "active_requests" (active_requests w);
       data ← set_item data "recovery_requests" (recovery_requests w);
       ret (Answer data 200)
     else
       ret (Answer (JObj [("error", JStr "Failed to get status")]) 500))
    (fun e => ret (Answer (JObj [("error", JStr (exn_str e))]) 500)).

(** inject_error (lines 245-266) *)
Definition inject_error (scenario_type : string) : M answer :=
  match table_get scenarios scenario_type with
  | None =>
      ret (Answer (JObj [("error",
                          JStr ("Unknown scenario: " +:+ scenario_type))]) 400)
  | Some _ =>
      try_except
        (config ← load_config;
         url ← subscript config "error_injection_api";
         response ← requests_post url
           [("action", "inject"); ("error_type", scenario_type)] 15;
         if status_code response =? 200 then
           start_requests scenario_type None false;;
           result ← response_json response;
           scenario ← table_subscript scenario_type;
           name ← subscript scenario "name";
           result ← set_item result "message"
             (JStr (name +:+ " injected, continuous requests started"));
           ret (Answer result 200)
         else
           ret (Answer (JObj [("error", JStr "Failed to inject error");
                              ("details", JStr (text response))]) 500))
        (fun e => ret (Answer (JObj [("error", JStr (exn_str e))]) 500))
  end.

(** recover_error (lines 268-294) *)
Definition recover_error (scenario_type : string) : M answer :=
  match table_get scenarios scenario_type with
  | None =>
      ret (Answer (JObj [("error",
                          JStr ("Unknown scenario: " +:+ scenario_type))]) 400)
  | Some _ =>
      try_except
        (stop_requests scenario_type;;
         config ← load_config;
         url ← subscript config "error_injection_api";
         response ← requests_post url
           [("action", "recover"); ("error_type", scenario_type)] 15;
         if status_code response =? 200 then
           start_requests scenario_type (Some 30) true;;
           result ← response_json response;
           scenario ← table_subscript scenario_type;
           name ← subscript scenario "name";
           result ← set_item result "message"
             (JStr (name +:+
                    " recovered, sending 30 normal requests to restore alarm"));
           ret (Answer result 200)
         else
           ret (Answer (JObj [("error", JStr "Failed to recover error");
                              ("details", JStr (text response))]) 500))
        (fun e => ret (Answer (JObj [("error", JStr (exn_str e))]) 500))
  end.

(** ** Auxiliary definitions for the statements about the registry *)

(** The registry part of two worlds is the same. *)
Definition same_registry (w w' : world) : Prop :=
  request_threads w = request_threads w' /\
  stop_events w = stop_events w' /\
  recovery_mode w = recovery_mode w' /\
  events w = events w' /\
  threads w = threads w'.

(** The consistency of the three dicts and the two heaps. *)
Record registry_ok (w : world) : Prop := RegistryOk {
  ok_event : forall k ev,
    stop_events w !! k = Some ev -> is_Some (events w !! ev);
  ok_distinct : forall k k' ev,
    stop_events w !! k = Some ev -> stop_events w !! k' = Some ev -> k = k';
  ok_thread : forall k th,
    request_threads w !! k = Some th ->
    exists max start ev,
      threads w !! th = Some (Thread k max (Some (start, Some ev))) /\
      stop_events w !! k = Some ev /\ start <= clock w;
  ok_keys : forall k,
    is_Some (stop_events w !! k) <-> is_Some (request_threads w !! k);
  ok_modes : forall k,
    is_Some (stop_events w !! k) <-> is_Some (recovery_mode w !! k);
  ok_past : forall ev s, events w !! ev = Some (Some s) -> s <= clock w
}.

(** The outcome [recover_all] records for a reply. *)
Definition outcome_of (r : reply) : string :=
  match reply_result r with
  | inl e => "error: " +:+ exn_str e
  | inr resp => if status_code resp =? 200 then "recovered" else "failed"
  end.

(** The call [recover_all] makes for a scenario key. *)
Definition recover_call (url scenario_type : string) : http_call :=
  HttpCall POST url
    (Some [("action", "recover"); ("error_type", scenario_type)]) 10.

(** From [w] to [w']: time has passed and Events have been set, nothing
    else of the registry has changed. *)
Definition settles (w w' : world) : Prop :=
  request_threads w' = request_threads w /\
  stop_events w' = stop_events w /\
  recovery_mode w' = recovery_mode w /\
  threads w' = threads w /\
  clock w <= clock w' /\
  forall ev,
    events w' !! ev = events w !! ev \/
    (events w !! ev = Some None /\
     exists s, events w' !! ev = Some (Some s) /\ clock w <= s <= clock w').

(** The outcomes [recover_all] has recorded after the keys [keys], when
    its first call is the [n]-th of the handler. *)
Fixpoint recover_outcomes (url : string) (n : nat) (keys : list string)
    (results : gmap string string) : gmap string string :=
  match keys with
  | [] => results
  | k :: rest =>
      recover_outcomes url (S n) rest
        (<[k := outcome_of (network n (recover_call url k))]> results)
  end.

(** A computation keeps the registry consistent. *)
Definition keeps_registry {A} (m : M A) : Prop :=
  forall w, registry_ok w -> registry_ok (snd (m w)).

Create HintDb engine.

(** * Properties *)

(** ** Frames: what a runner-side computation can change *)

Lemma after_nil w : after w [] (clock w) = w.
Proof. destruct w; unfold after, with_clock, with_trace; simpl. by rewrite app_nil_r. Qed.

Lemma after_after w d1 c1 d2 c2 :
  after (after w d1 c1) d2 c2 = after w (d1 ++ d2) c2.
Proof. destruct w; unfold after, with_clock, with_trace; simpl. by rewrite app_assoc. Qed.

Lemma after_clock_only w c : with_clock c w = after w [] c.
Proof. destruct w; unfold after, with_clock, with_trace; simpl. by rewrite app_nil_r. Qed.

Lemma after_trace_only w d : with_trace (trace w ++ d) w = after w d (clock w).
Proof. by destruct w. Qed.

Lemma http_calls_app t1 t2 : http_calls (t1 ++ t2) = http_calls t1 ++ http_calls t2.
Proof.
  induction t1 as [|[a x] t1 IH]; simpl; [done|].
  destruct x; simpl; by rewrite ?IH.
Qed.

Ltac unfold_M :=
  unfold mbind, M_bind, mret, M_ret, bind, ret, raise, try_except, get_world,
    print, emit, advance, time_sleep, time_time, subscript in *.

(** Stepping through a computation. *)
Lemma bind_run {A B} (m : M A) (k : A -> M B) w a w' :
  m w = (Ok a, w') -> (m ≫= k) w = k a w'.
Proof. intros H. unfold mbind, M_bind, bind. by rewrite H. Qed.

Lemma bind_raise {A B} (m : M A) (k : A -> M B) w e w' :
  m w = (Raise e, w') -> (m ≫= k) w = (Raise e, w').
Proof. intros H. unfold mbind, M_bind, bind. by rewrite H. Qed.

Lemma try_except_bind_ok {A B} (m : M A) (k : A -> M B) h w a w' :
  m w = (Ok a, w') ->
  try_except (m ≫= k) h w = try_except (k a) h w'.
Proof. intros H. unfold try_except. by rewrite (bind_run _ _ _ _ _ H). Qed.

Lemma try_except_bind_raise {A B} (m : M A) (k : A -> M B) h w e w' :
  m w = (Raise e, w') ->
  try_except (m ≫= k) h w = h e w'.
Proof.
  intros H. unfold try_except, mbind, M_bind, bind. by rewrite H.
Qed.

(** ** Reading config.json *)

(** [load_config] either returns the config of the instant or raises
    what the read raises; it takes no time and records nothing. *)
Lemma load_config_run w :
  readable (clock w) = true ->
  load_config w = (Ok (config_at (clock w)), w).
Proof.
  unfold readable, load_config, config_at.
  by destruct (config_file (clock w)) as [e|[j|]].
Qed.

Lemma load_config_raise w :
  readable (clock w) = false ->
  exists e, config_file (clock w) = inl e /\ load_config w = (Raise e, w).
Proof.
  unfold readable, load_config.
  destruct (config_file (clock w)) as [e|[j|]]; try done. by exists e.
Qed.

Lemma load_config_ok w config :
  fst (load_config w) = Ok config ->
  readable (clock w) = true /\ config = config_at (clock w).
Proof.
  unfold readable, load_config, config_at.
  destruct (config_file (clock w)) as [e|[j|]]; simpl; intros [= <-]; done.
Qed.

Lemma load_config_failed w e :
  fst (load_config w) = Raise e -> config_file (clock w) = inl e.
Proof.
  unfold load_config.
  destruct (config_file (clock w)) as [e'|[j|]]; simpl; by intros [= <-].
Qed.

Lemma config_at_unreadable t : readable t = false -> config_at t = ∅.
Proof.
  unfold readable, config_at. by destruct (config_file t) as [e|[j|]].
Qed.

Lemma config_at_readable t k v :
  config_at t !! k = Some v -> readable t = true.
Proof.
  intros H. destruct (readable t) eqn:Hr; [done|].
  by rewrite (config_at_unreadable _ Hr), lookup_empty in H.
Qed.

Lemma gain_cases key t :
  (readable t = true /\ gain key t = step_of key) \/
  (readable t = false /\ gain key t = 0).
Proof. unfold gain. destruct (readable t); auto. Qed.

(** [send_single_request] when the config has no ['sample_api']: the
    [KeyError] is caught and printed, no call is made. *)
Lemma send_single_request_no_base config request_type w :
  config !! "sample_api" = None ->
  send_single_request config request_type w =
    (Ok tt, after w [(clock w, Print "Request failed: 'sample_api'")] (clock w)).
Proof.
  intros Hc. unfold send_single_request.
  destruct (String.eqb request_type "get_items");
    [|destruct (String.eqb request_type "get_by_id")];
    unfold_M; rewrite Hc; simpl; by rewrite after_trace_only.
Qed.

(** [send_single_request] when the config has a ['sample_api']: exactly
    one call, and a print when the call raises. *)
Lemma send_single_request_base config request_type base w :
  config !! "sample_api" = Some base ->
  let c := call_for request_type base (time_repr (clock w)) in
  let r := network (length (http_calls (trace w))) c in
  send_single_request config request_type w =
    (Ok tt,
     after w
       ((clock w, Http c) ::
        match reply_result r with
        | inl e => [(clock w + Z.of_N (reply_after r),
                     Print ("Request failed: " +:+ exn_str e))]
        | inr _ => []
        end)
       (clock w + Z.of_N (reply_after r))).
Proof.
  intros Hc. unfold send_single_request, call_for.
  destruct (String.eqb request_type "get_items");
    [|destruct (String.eqb request_type "get_by_id")];
    unfold_M; rewrite Hc; simpl;
    unfold requests_get, requests_post, request; simpl;
    match goal with |- context [reply_result ?r] => destruct (reply_result r) end;
    simpl; destruct w; unfold after, with_clock, with_trace; simpl;
    by rewrite <- ?app_assoc.
Qed.

Lemma busy_from_nil t : busy_from t [].
Proof. split; [constructor | done]. Qed.

Lemma busy_from_app t d1 d2 :
  busy_from t d1 -> busy_from t d2 -> busy_from t (d1 ++ d2).
Proof.
  intros [H1 H2] [H3 H4]. split.
  - apply Forall_app; auto.
  - by rewrite filter_app, H2, H4.
Qed.

#[local] Hint Resolve busy_from_nil busy_from_app : engine.

(** One unit: the world changes by a trace delta and a later clock only;
    the delta holds the unit's call, if any. *)
Lemma send_single_request_spec config request_type w :
  exists d c,
    send_single_request config request_type w = (Ok tt, after w d c) /\
    clock w <= c /\
    http_calls d = unit_calls 1 config request_type (clock w) /\
    busy_from (clock w) d /\
    filter is_thread_start d = [].
Proof.
  unfold unit_calls. destruct (config !! "sample_api") as [base|] eqn:Hc.
  - pose proof (send_single_request_base config request_type base w Hc) as H.
    cbv zeta in H. eexists _, _. split; [exact H|].
    set (r := network _ _).
    split; [lia|]. split; [by destruct (reply_result r)|].
    split; [|by destruct (reply_result r)].
    split; [|by destruct (reply_result r)].
    destruct (reply_result r); repeat constructor; simpl; lia.
  - eexists _, _. split; [by apply send_single_request_no_base|].
    split; [lia|]. split; [done|]. split; [|done].
    split; [|done]. repeat constructor; simpl; lia.
Qed.

Lemma spawn_spec config request_type w :
  exists d finish,
    spawn (send_single_request config request_type) w
      = (Ok finish, after w ((clock w, ThreadStart) :: d) (clock w)) /\
    http_calls d = unit_calls 1 config request_type (clock w) /\
    busy_from (clock w) d /\
    filter is_thread_start d = [].
Proof.
  unfold spawn.
  destruct (send_single_request_spec config request_type
              (with_trace (trace w ++ [(clock w, ThreadStart)]) w))
    as (d & c & Hrun & Hc & Hcalls & Hbusy & Hts).
  rewrite Hrun. exists d, c. split.
  - f_equal. destruct w; unfold after, with_clock, with_trace; simpl.
    by rewrite <- app_assoc.
  - by destruct w.
Qed.

Lemma start_threads_spec n config request_type w :
  exists d ts,
    start_threads n (send_single_request config request_type) w
      = (Ok ts, after w d (clock w)) /\
    length ts = n /\
    http_calls d = unit_calls n config request_type (clock w) /\
    busy_from (clock w) d /\
    length (filter is_thread_start d) = n.
Proof.
  revert w. induction n as [|n IH]; intros w; simpl.
  - exists [], []. unfold_M. rewrite after_nil.
    repeat split; auto with engine. unfold unit_calls. by destruct (_ !! _).
  - destruct (spawn_spec config request_type w)
      as (d1 & f & Hrun & Hcalls & Hbusy & Hts).
    unfold_M. rewrite Hrun.
    destruct (IH (after w ((clock w, ThreadStart) :: d1) (clock w)))
      as (d2 & ts & Hrun2 & Hlen & Hcalls2 & Hbusy2 & Hts2).
    rewrite Hrun2. rewrite after_after. simpl clock.
    eexists _, _. split; [reflexivity|].
    split; [simpl; lia|].
    split; [|split].
    + change ((clock w, ThreadStart) :: d1) with ([(clock w, ThreadStart)] ++ d1).
      rewrite !http_calls_app, Hcalls, Hcalls2. simpl.
      unfold unit_calls. destruct (_ !! _); [|done]. done.
    + apply busy_from_app; [|done].
      change ((clock w, ThreadStart) :: d1) with ([(clock w, ThreadStart)] ++ d1).
      apply busy_from_app; [|done]. split; [|done].
      repeat constructor; simpl; lia.
    + rewrite filter_app, length_app, Hts2.
      rewrite filter_cons. simpl. rewrite Hts. simpl. lia.
Qed.

Lemma join_threads_spec ts seconds w :
  0 <= seconds ->
  exists c, join_threads ts seconds w = (Ok tt, after w [] c) /\ clock w <= c.
Proof.
  intros Hs. revert w. induction ts as [|t ts IH]; intros w; simpl.
  - exists (clock w). unfold_M. by rewrite after_nil.
  - unfold_M. unfold join. rewrite after_clock_only.
    destruct (IH (after w [] (Z.max (clock w) (Z.min t (clock w + 1000 * seconds)))))
      as (c & Hrun & Hc).
    rewrite Hrun, after_after. simpl in *. exists c. split; [done|lia].
Qed.

(** The message of the [except] branch of a cycle. *)
Lemma cycle_unreadable scenario_type request_count w e :
  config_file (clock w) = inl e ->
  cycle scenario_type request_count w
    = (Ok request_count,
       after w [(clock w,
                 Print ("Request failed (" +:+ scenario_type +:+ "): "
                        +:+ exn_str e))] (clock w)).
Proof.
  intros He. unfold cycle.
  assert (Hload : load_config w = (Raise e, w))
    by (unfold load_config; by rewrite He).
  rewrite (try_except_bind_raise _ _ _ _ _ _ Hload).
  unfold_M. by rewrite after_trace_only.
Qed.

(** One cycle never raises.  When its [load_config] returns it adds
    [step_of] to the count whatever the replies are, and makes its calls
    at the instant it starts, with the config loaded at that instant;
    when [load_config] raises it adds nothing, makes no call and starts
    no worker. *)
Lemma cycle_spec scenario_type request_count w :
  exists d c,
    cycle scenario_type request_count w
      = (Ok (request_count + gain scenario_type (clock w)), after w d c) /\
    clock w <= c /\
    http_calls d = unit_calls (Z.to_nat (step_of scenario_type))
                     (config_at (clock w)) (request_type_of scenario_type)
                     (clock w) /\
    busy_from (clock w) d /\
    length (filter is_thread_start d)
      = (if readable (clock w) && String.eqb scenario_type "lambda_throttle"
         then 5 else 0)%nat.
Proof.
  unfold gain. destruct (readable (clock w)) eqn:Hr.
  2:{ destruct (load_config_raise w Hr) as (e & He & _).
      rewrite (cycle_unreadable _ _ _ _ He), Z.add_0_r.
      eexists _, _. split; [reflexivity|]. split; [lia|].
      unfold unit_calls. rewrite (config_at_unreadable _ Hr), lookup_empty.
      split; [done|]. split; [|done]. split; [|done].
      repeat constructor; simpl; lia. }
  pose proof (load_config_run w Hr) as Hload.
  unfold cycle, step_of. simpl andb.
  fold (request_type_of scenario_type).
  destruct (String.eqb scenario_type "lambda_throttle").
  - destruct (start_threads_spec 5 (config_at (clock w))
                (request_type_of scenario_type) w)
      as (d & ts & Hrun & _ & Hcalls & Hbusy & Hts).
    destruct (join_threads_spec ts 10 (after w d (clock w)) ltac:(lia))
      as (c & Hjoin & Hc).
    unfold_M. rewrite Hload, Hrun, Hjoin, after_after, app_nil_r.
    exists d, c. simpl in Hc. destruct Hbusy. by repeat split.
  - destruct (send_single_request_spec (config_at (clock w))
                (request_type_of scenario_type) w)
      as (d & c & Hrun & Hc & Hcalls & Hbusy & Hts).
    unfold_M. rewrite Hload, Hrun. exists d, c.
    destruct Hbusy. repeat split; try done. by rewrite Hts.
Qed.

Lemma time_sleep_spec w :
  time_sleep 2 w = (Ok tt, after w [(clock w, Sleep 2000)] (clock w + 2000)).
Proof. reflexivity. Qed.

Lemma is_set_spec ev w : is_set ev w = (Ok (signalled ev w), w).
Proof. reflexivity. Qed.

(** The loop computes a run of the relation; in particular it never
    raises and changes nothing but the trace and the clock. *)
Lemma while_loop_run fuel scenario_type max_requests ev request_count w :
  exists st rc' d c,
    while_loop fuel scenario_type max_requests ev request_count w
      = (Ok (st, rc'), after w d c) /\
    loop_run scenario_type max_requests ev fuel request_count w st rc' d c.
Proof.
  revert request_count w. induction fuel as [|fuel IH]; intros rc w; simpl.
  - exists Running, rc, [], (clock w). unfold_M. rewrite after_nil.
    split; [done|constructor].
  - unfold mbind, M_bind. unfold bind at 1. rewrite is_set_spec.
    destruct (signalled ev w) eqn:Hsig.
    { exists Stopped, rc, [], (clock w). unfold_M. rewrite after_nil.
      split; [done|by constructor]. }
    destruct (budget_reached max_requests rc) eqn:Hb.
    { eexists Stopped, rc, _, (clock w). split; [|by apply run_budget].
      unfold_M. by rewrite after_trace_only. }
    destruct (cycle_spec scenario_type rc w) as (d & c & Hrun & Hc & Hcalls & Hbusy & _).
    unfold bind at 1. rewrite Hrun.
    destruct (IH (rc + gain scenario_type (clock w))
                 (after w (d ++ [(c, Sleep 2000)]) (c + 2000)))
      as (st & rc' & d' & c' & Hloop & Hrel).
    exists st, rc', (d ++ (c, Sleep 2000) :: d'), c'.
    split; [|by eapply run_cycle].
    unfold bind at 1. rewrite time_sleep_spec, after_after. simpl clock.
    rewrite Hloop, after_after. by rewrite <- app_assoc.
Qed.

(** ** Runs of the loop *)

Lemma after_inj w d1 c1 d2 c2 :
  after w d1 c1 = after w d2 c2 -> d1 = d2 /\ c1 = c2.
Proof.
  unfold after, with_clock, with_trace. simpl. intros H.
  injection H as Hc Ht. split; [|done]. by apply app_inv_head in Ht.
Qed.

Ltac same_cycle :=
  match goal with
  | H1 : cycle ?k ?rc ?w = (Ok _, after ?w ?d1 ?c1),
    H2 : cycle ?k ?rc ?w = (Ok _, after ?w ?d2 ?c2) |- _ =>
      destruct (after_inj w d1 c1 d2 c2) as [? ?]; [congruence|];
      clear H2; subst
  end.

Lemma loop_run_det key max ev fuel rc w st1 rc1 d1 c1 st2 rc2 d2 c2 :
  loop_run key max ev fuel rc w st1 rc1 d1 c1 ->
  loop_run key max ev fuel rc w st2 rc2 d2 c2 ->
  st1 = st2 /\ rc1 = rc2 /\ d1 = d2 /\ c1 = c2.
Proof.
  intros H1. revert st2 rc2 d2 c2.
  induction H1 as [rc w|fuel rc w Hs|fuel rc w Hs Hb
                  |fuel rc w d c st rc' d' c' Hs Hb Hcy Hc Hcalls Hbusy Hrest IH];
    intros st2 rc2 d2 c2 H2; inversion H2; subst; try done; try congruence.
  same_cycle.
  match goal with
  | Hr : loop_run _ _ _ fuel _ _ st2 rc2 _ c2 |- _ =>
      apply IH in Hr as (-> & -> & -> & ->)
  end.
  done.
Qed.

(** Time only moves forward, and everything a run records is stamped
    with an instant of the run. *)
Lemma loop_run_clock key max ev fuel rc w st rc' d c :
  loop_run key max ev fuel rc w st rc' d c ->
  clock w <= c /\ Forall (fun e => clock w <= fst e) d.
Proof.
  induction 1 as [rc w|fuel rc w Hs|fuel rc w Hs Hb
                 |fuel rc w d c st rc' d' c' Hs Hb Hcy Hc Hcalls Hbusy Hrest IH];
    try (split; [lia|repeat constructor; simpl; lia]).
  destruct IH as [IH1 IH2]. simpl in IH1, IH2. split; [lia|].
  apply Forall_app. split; [apply Hbusy|].
  constructor; [simpl; lia|].
  eapply Forall_impl; [exact IH2|]. simpl. intros; lia.
Qed.

(** A run that used up its iterations has slept once in each. *)
Lemma loop_run_running key max ev fuel rc w rc' d c :
  loop_run key max ev fuel rc w Running rc' d c ->
  clock w + 2000 * Z.of_nat fuel <= c.
Proof.
  remember Running as st eqn:Hst.
  induction 1 as [rc w|fuel rc w Hs|fuel rc w Hs Hb
                 |fuel rc w d c st rc' d' c' Hs Hb Hcy Hc Hcalls Hbusy Hrest IH];
    try done; [simpl; lia|].
  specialize (IH Hst). simpl in IH. lia.
Qed.

Lemma unit_calls_stamp n config request_type t :
  Forall (fun e => fst e = t) (unit_calls n config request_type t).
Proof.
  unfold unit_calls. destruct (config !! "sample_api"); [|constructor].
  induction n; simpl; constructor; auto.
Qed.

Lemma unit_calls_length n config request_type t :
  (length (unit_calls n config request_type t) <= n)%nat.
Proof.
  unfold unit_calls. destruct (config !! "sample_api"); simpl; [|lia].
  by rewrite length_replicate.
Qed.

(** Once the Event is set, at instant [s], a run makes no call at [s] or
    later: each cycle makes its calls at the instant of its loop check,
    which found the Event clear. *)
Lemma loop_run_calls_before_set key max ev s fuel rc w st rc' d c :
  events w !! ev = Some (Some s) ->
  loop_run key max ev fuel rc w st rc' d c ->
  Forall (fun e => fst e < s) (http_calls d).
Proof.
  intros Hev.
  induction 1 as [rc w|fuel rc w Hs|fuel rc w Hs Hb
                 |fuel rc w d c st rc' d' c' Hs Hb Hcy Hc Hcalls Hbusy Hrest IH];
    try (by constructor).
  rewrite http_calls_app. apply Forall_app. split.
  - rewrite Hcalls. eapply Forall_impl; [apply unit_calls_stamp|].
    simpl. intros e ->. unfold signalled in Hs. rewrite Hev in Hs. lia.
  - simpl. by apply IH.
Qed.

(** A signal that arrives during the sleep at [a] is seen when the sleep
    is over, at [a + 2000], by the very next loop check. *)
Lemma loop_run_stop_after_sleep key max ev s a ms fuel rc w st rc' d c :
  events w !! ev = Some (Some s) ->
  loop_run key max ev fuel rc w st rc' d c ->
  In (a, Sleep ms) d ->
  s <= a + 2000 ->
  forall st2 rc2 d2 c2,
    loop_run key max ev (S fuel) rc w st2 rc2 d2 c2 ->
    st2 = Stopped /\ c2 = a + 2000.
Proof.
  intros Hev Hrun. revert a ms.
  induction Hrun as [rc w|fuel rc w Hs|fuel rc w Hs Hb
                 |fuel rc w d c st rc' d' c' Hs Hb Hcy Hc Hcalls Hbusy Hrest IH];
    intros a ms Hin Hsa st2 rc2 d2 c2 H2.
  - destruct Hin.
  - destruct Hin.
  - destruct Hin as [Hin|[]]. discriminate.
  - apply in_app_or in Hin as [Hin|[Hin|Hin]].
    + destruct Hbusy as [_ Hno].
      assert (Hf : (a, Sleep ms) ∈ filter is_sleep d).
      { apply list_elem_of_filter. split; [done|]. by apply list_elem_of_In. }
      rewrite Hno in Hf. by apply not_elem_of_nil in Hf.
    + injection Hin as <- <-.
      inversion H2; subst; try congruence. same_cycle.
      match goal with
      | Hr : loop_run _ _ _ (S fuel) _ _ st2 rc2 _ c2 |- _ =>
          inversion Hr; subst; try done;
          match goal with
          | Hsig : signalled ev (after _ _ _) = false |- _ =>
              unfold signalled in Hsig; simpl in Hsig; rewrite Hev in Hsig; lia
          end
      end.
    + inversion H2; subst; try congruence. same_cycle.
      match goal with
      | Hr : loop_run _ _ _ (S fuel) _ _ st2 rc2 _ c2 |- _ =>
          eapply (IH Hev a ms Hin Hsa) in Hr
      end. done.
Qed.

(** What the loop function computes, in terms of what can be observed
    of its result. *)
Lemma while_loop_obs fuel key max ev rc w :
  exists st rc' d c,
    loop_run key max ev fuel rc w st rc' d c /\
    fst (while_loop fuel key max ev rc w) = Ok (st, rc') /\
    clock (snd (while_loop fuel key max ev rc w)) = c /\
    drop (length (trace w)) (trace (snd (while_loop fuel key max ev rc w))) = d.
Proof.
  destruct (while_loop_run fuel key max ev rc w) as (st & rc' & d & c & Hrun & Hrel).
  exists st, rc', d, c. rewrite Hrun. simpl. by rewrite drop_app_length.
Qed.

Lemma step_of_cases key :
  (key = "lambda_throttle" /\ step_of key = 5) \/
  (key <> "lambda_throttle" /\ step_of key = 1).
Proof.
  unfold step_of. destruct (String.eqb_spec key "lambda_throttle"); auto.
Qed.

(** A cycle makes no more calls than it adds to the count. *)
Lemma unit_calls_gain key t :
  (length (unit_calls (Z.to_nat (step_of key)) (config_at t)
             (request_type_of key) t)
   <= Z.to_nat (gain key t))%nat.
Proof.
  destruct (gain_cases key t) as [[Hr ->]|[Hr ->]].
  - apply unit_calls_length.
  - unfold unit_calls. by rewrite (config_at_unreadable _ Hr), lookup_empty.
Qed.

(** With a budget of [N >= 1] the count stays below [N + step]. *)
Lemma loop_run_budget key N ev fuel rc w st rc' d c :
  loop_run key (Some N) ev fuel rc w st rc' d c ->
  1 <= N ->
  0 <= rc < N + step_of key ->
  (step_of key | rc) ->
  rc <= rc' < N + step_of key /\ (step_of key | rc') /\
  (length (http_calls d) <= Z.to_nat (rc' - rc))%nat.
Proof.
  intros Hrun HN.
  remember (Some N) as max eqn:Hmax.
  induction Hrun as [rc w|fuel rc w Hs|fuel rc w Hs Hb
                 |fuel rc w d c st rc' d' c' Hs Hb Hcy Hc Hcalls Hbusy Hrest IH];
    intros Hrc Hdiv; try (simpl; repeat split; try done; lia).
  subst max. simpl in Hb.
  assert (Hlt : rc < N) by lia.
  assert (Hstep : 0 < step_of key)
    by (destruct (step_of_cases key) as [[_ ->]|[_ ->]]; lia).
  assert (Hg : gain key (clock w) = step_of key \/ gain key (clock w) = 0)
    by (destruct (gain_cases key (clock w)) as [[_ ->]|[_ ->]]; auto).
  assert (Hrc' : 0 <= rc + gain key (clock w) < N + step_of key)
    by (destruct Hg as [-> | ->]; lia).
  assert (Hdiv' : (step_of key | rc + gain key (clock w))).
  { destruct Hg as [-> | ->]; [|by rewrite Z.add_0_r].
    apply Z.divide_add_r; [done|apply Z.divide_refl]. }
  destruct (IH Hrc' Hdiv') as ((IH1 & IH2) & IH3 & IH4).
  pose proof (unit_calls_gain key (clock w)) as Hlen.
  repeat split; try done; try lia.
  rewrite http_calls_app, length_app, Hcalls. simpl. lia.
Qed.

(** With a budget of [N >= 1], and a config.json that can be read
    throughout, the loop stops by itself within [N + 1] loop checks. *)
Lemma loop_run_stops key N ev fuel rc w st rc' d c :
  loop_run key (Some N) ev fuel rc w st rc' d c ->
  1 <= N ->
  (forall t, clock w <= t -> readable t = true) ->
  Z.max 0 (N - rc) < Z.of_nat fuel ->
  st = Stopped.
Proof.
  intros Hrun HN.
  remember (Some N) as max eqn:Hmax.
  induction Hrun as [rc w|fuel rc w Hs|fuel rc w Hs Hb
                 |fuel rc w d c st rc' d' c' Hs Hb Hcy Hc Hcalls Hbusy Hrest IH];
    intros Hread Hfuel; try done; [simpl in Hfuel; lia|].
  subst max. simpl in Hb. apply IH.
  - simpl. intros t Ht. apply Hread. lia.
  - unfold gain. rewrite Hread by lia.
    destruct (step_of_cases key) as [[_ ->]|[_ ->]]; lia.
Qed.

(** A budget of 0 is no budget: [0] is falsy in [max_requests and ...]. *)
Lemma while_loop_zero_budget fuel key ev rc w :
  while_loop fuel key (Some 0) ev rc w = while_loop fuel key None ev rc w.
Proof.
  revert rc w. induction fuel as [|fuel IH]; intros rc w; simpl; [done|].
  unfold mbind, M_bind, bind. rewrite is_set_spec.
  destruct (signalled ev w); [done|].
  unfold budget_reached. change (negb (0 =? 0) && (0 <=? rc)) with false.
  cbv iota.
  destruct (cycle key rc w) as [[?|] ?]; [|done].
  rewrite time_sleep_spec. apply IH.
Qed.

(** Without a budget and without a signal the loop goes on: each of the
    iterations runs one cycle and one sleep of 2000 ms, and counts when
    config.json can be read. *)
Lemma loop_run_unbounded key max ev fuel rc w st rc' d c :
  loop_run key max ev fuel rc w st rc' d c ->
  (forall n, budget_reached max n = false) ->
  (~ exists s, events w !! ev = Some (Some s)) ->
  st = Running /\
  map snd (filter is_sleep d) = replicate fuel (Sleep 2000) /\
  ((forall t, clock w <= t -> readable t = true) ->
   rc' = rc + Z.of_nat fuel * step_of key) /\
  ((forall t, is_Some (config_at t !! "sample_api")) ->
   length (http_calls d) = (fuel * Z.to_nat (step_of key))%nat).
Proof.
  intros Hrun Hmax.
  induction Hrun as [rc w|fuel rc w Hs|fuel rc w Hs Hb
                 |fuel rc w d c st rc' d' c' Hs Hb Hcy Hc Hcalls Hbusy Hrest IH];
    intros Hev.
  - repeat split; try done. intros _. simpl. lia.
  - exfalso. unfold signalled in Hs.
    destruct (events w !! ev) as [[s|]|] eqn:He; try done.
    apply Hev. by exists s.
  - by rewrite Hmax in Hb.
  - destruct (IH Hev) as (-> & IH2 & IH3 & IH4).
    split; [done|]. split; [|split].
    + rewrite filter_app, map_app. destruct Hbusy as [_ ->].
      rewrite filter_cons. simpl. by rewrite IH2.
    + intros Hread. rewrite IH3 by (simpl; intros t Ht; apply Hread; lia).
      unfold gain. rewrite Hread by lia. lia.
    + intros Hcfg. rewrite http_calls_app, length_app, Hcalls. simpl.
      rewrite (IH4 Hcfg). unfold unit_calls.
      destruct (Hcfg (clock w)) as [base ->]. rewrite length_replicate. lia.
Qed.

(** What a list of records keeps of a bound on the instants. *)
Lemma http_calls_late t (d : list (Z * action)) :
  Forall (fun e => t <= fst e) d -> Forall (fun e => t <= fst e) (http_calls d).
Proof.
  induction d as [|[a x] d IH]; simpl; [constructor|].
  intros H. inversion H as [|? ? Hx Hr]; subst.
  destruct x; simpl; auto.
Qed.

Lemma filter_late t (f : Z * action -> bool) (d : list (Z * action)) :
  Forall (fun e => t <= fst e) d -> Forall (fun e => t <= fst e) (filter f d).
Proof.
  intros H. apply Forall_forall. intros e He.
  apply list_elem_of_filter in He as [_ He].
  by eapply Forall_forall in H.
Qed.

(** The sleeps of a run begin at least 2000 ms apart: each of them lasts
    that long. *)
Lemma loop_run_sleep_cadence key max ev fuel rc w st rc' d c :
  loop_run key max ev fuel rc w st rc' d c ->
  ForallOrdPairs cadence (filter is_sleep d).
Proof.
  induction 1 as [rc w|fuel rc w Hs|fuel rc w Hs Hb
                 |fuel rc w d c st rc' d' c' Hs Hb Hcy Hc Hcalls Hbusy Hrest IH];
    try (by constructor).
  rewrite filter_app. destruct Hbusy as [_ ->]. simpl.
  rewrite filter_cons. simpl.
  apply loop_run_clock in Hrest as [_ Hlate]. simpl in Hlate.
  constructor; [|done].
  eapply Forall_impl; [apply filter_late; exact Hlate|].
  intros e He. unfold cadence. simpl in *. lia.
Qed.

(** Outside the burst scenario the calls of a run are at least 2000 ms
    apart: one call per cycle at most, and a sleep between two cycles. *)
Lemma loop_run_call_cadence key max ev fuel rc w st rc' d c :
  key <> "lambda_throttle" ->
  loop_run key max ev fuel rc w st rc' d c ->
  ForallOrdPairs cadence (http_calls d).
Proof.
  intros Hkey.
  induction 1 as [rc w|fuel rc w Hs|fuel rc w Hs Hb
                 |fuel rc w d c st rc' d' c' Hs Hb Hcy Hc Hcalls Hbusy Hrest IH];
    try (by constructor).
  rewrite http_calls_app. simpl.
  apply loop_run_clock in Hrest as [_ Hlate]. simpl in Hlate.
  apply http_calls_late in Hlate.
  rewrite Hcalls. unfold unit_calls.
  destruct (step_of_cases key) as [[? _]|[_ ->]]; [done|].
  destruct (config_at (clock w) !! "sample_api") as [base|]; simpl; [|done].
  constructor; [|done].
  eapply Forall_impl; [exact Hlate|].
  intros e He. unfold cadence. simpl in *. lia.
Qed.

(** Every call of a run is made with the config that config.json holds
    at the instant of the call. *)
Lemma loop_run_calls_config key max ev fuel rc w st rc' d c :
  loop_run key max ev fuel rc w st rc' d c ->
  Forall (fun e => exists base,
            config_at (fst e) !! "sample_api" = Some base /\
            snd e = call_for (request_type_of key) base (time_repr (fst e)))
         (http_calls d).
Proof.
  induction 1 as [rc w|fuel rc w Hs|fuel rc w Hs Hb
                 |fuel rc w d c st rc' d' c' Hs Hb Hcy Hc Hcalls Hbusy Hrest IH];
    try (by constructor).
  rewrite http_calls_app. apply Forall_app. split; [|done].
  rewrite Hcalls. unfold unit_calls.
  destruct (config_at (clock w) !! "sample_api") as [base|] eqn:Hb'; [|constructor].
  apply Forall_forall. intros e He.
  apply elem_of_replicate in He as [-> _]. simpl. by exists base.
Qed.

(** ** The request sender *)

(** C6: for every target config (with its sample API address [base]), the
    sender performs exactly one HTTP call, made at once and with a 5 second
    timeout, whose shape follows the request type: get_items is a GET of
    base/items, get_by_id a GET of base/items/test-id-1, and the write shape
    a POST of base/items whose body holds the label and a timestamp. *)
Theorem send_single_request_one_call config base request_type w :
  config !! "sample_api" = Some base ->
  exists c,
    http_calls (trace (snd (send_single_request config request_type w)))
      = http_calls (trace w) ++ [(clock w, c)] /\
    call_timeout c = 5 /\
    (request_type = "get_items" ->
       c = HttpCall GET (base +:+ "/items") None 5) /\
    (request_type = "get_by_id" ->
       c = HttpCall GET (base +:+ "/items/test-id-1") None 5) /\
    (request_type <> "get_items" -> request_type <> "get_by_id" ->
       c = HttpCall POST (base +:+ "/items")
             (Some [("name", "Error Trigger");
                    ("content", "Request at " +:+ time_repr (clock w))]) 5).
Proof.
  intros Hc. rewrite (send_single_request_base _ _ _ _ Hc). simpl.
  exists (call_for request_type base (time_repr (clock w))).
  split.
  { rewrite http_calls_app. simpl. by destruct (reply_result _). }
  unfold call_for.
  destruct (String.eqb_spec request_type "get_items") as [->|H1];
    [by repeat split|].
  destruct (String.eqb_spec request_type "get_by_id") as [->|H2];
    by repeat split.
Qed.

(** C5: the sender never raises to its caller; an exception of the
    outbound call is caught and printed; and the runner that has loaded
    the config adds the request (the five requests of a burst) to its
    count whatever the outcome. *)
Theorem send_single_request_never_raises config request_type w :
  fst (send_single_request config request_type w) = Ok tt /\
  (forall base e,
     config !! "sample_api" = Some base ->
     let c := call_for request_type base (time_repr (clock w)) in
     let r := network (length (http_calls (trace w))) c in
     reply_result r = inl e ->
     snd (send_single_request config request_type w)
       = after w
           [(clock w, Http c);
            (clock w + Z.of_N (reply_after r),
             Print ("Request failed: " +:+ exn_str e))]
           (clock w + Z.of_N (reply_after r))) /\
  (forall scenario_type request_count,
     fst (load_config w) = Ok config ->
     fst (cycle scenario_type request_count w)
       = Ok (request_count +
             if String.eqb scenario_type "lambda_throttle" then 5 else 1)).
Proof.
  split; [|split].
  - destruct (send_single_request_spec config request_type w)
      as (d & c & Hrun & _). by rewrite Hrun.
  - intros base e Hc c r He.
    rewrite (send_single_request_base _ _ _ _ Hc). simpl.
    fold c. fold r. by rewrite He.
  - intros key rc Hload. apply load_config_ok in Hload as [Hr _].
    destruct (cycle_spec key rc w) as (d & c & Hrun & _). rewrite Hrun.
    unfold gain. by rewrite Hr.
Qed.

(** ** The burst *)

(** C4 (as amended): every cycle of the lambda_throttle runner whose
    read of config.json returns starts exactly five worker units, each
    running the sender, and adds exactly 5 to request_count, whatever the
    network answers to the five calls. *)
Theorem burst_cycle_dispatches_five request_count w :
  readable (clock w) = true ->
  fst (cycle "lambda_throttle" request_count w) = Ok (request_count + 5) /\
  length (filter is_thread_start
            (drop (length (trace w))
               (trace (snd (cycle "lambda_throttle" request_count w)))))
    = 5%nat /\
  http_calls (trace (snd (cycle "lambda_throttle" request_count w)))
    = http_calls (trace w) ++
      unit_calls 5 (config_at (clock w)) (request_type_of "lambda_throttle")
        (clock w).
Proof.
  intros Hr.
  destruct (cycle_spec "lambda_throttle" request_count w)
    as (d & c & Hrun & _ & Hcalls & _ & Hts).
  rewrite Hrun. simpl. rewrite drop_app_length, http_calls_app, Hcalls.
  unfold gain. rewrite Hr in *. by repeat split.
Qed.

(** ** The runner loop *)

(** C10: when stop_events holds no Event for the key, the runner returns
    at once: the world, registry and trace included, is left as it was. *)
Theorem send_continuous_requests_unregistered fuel scenario_type max_requests w :
  stop_events w !! scenario_type = None ->
  send_continuous_requests fuel scenario_type max_requests w
    = (Ok (Stopped, 0), w).
Proof.
  intros H. unfold send_continuous_requests. unfold_M. by rewrite H.
Qed.

Lemma send_continuous_requests_no_event fuel scenario_type max_requests w :
  stop_events w !! scenario_type = None ->
  send_continuous_requests fuel scenario_type max_requests w
    = (Ok (Stopped, 0), w).
Proof.
  intros H. unfold send_continuous_requests.
  rewrite (bind_run get_world _ w w w eq_refl). by rewrite H.
Qed.

(** A runner whose key is registered runs the loop on the registered
    Event, from a count of 0. *)
Lemma send_continuous_requests_registered fuel scenario_type max_requests ev w :
  stop_events w !! scenario_type = Some ev ->
  send_continuous_requests fuel scenario_type max_requests w
    = while_loop fuel scenario_type max_requests ev 0 w.
Proof.
  intros H. unfold send_continuous_requests.
  rewrite (bind_run get_world _ w w w eq_refl). by rewrite H.
Qed.

(** C1 (as amended): a runner started with max_requests = N, N >= 1,
    counts at most N requests when its scenario is not lambda_throttle and
    at most N rounded up to a multiple of 5 when it is (5 for N = 1, 30 for
    N = 30); it makes no more calls than it counts; and when config.json
    can be read at every cycle it has stopped by itself after at most
    N + 1 loop checks. *)
Theorem max_requests_bound fuel scenario_type N w :
  1 <= N ->
  exists st rc,
    fst (send_continuous_requests fuel scenario_type (Some N) w) = Ok (st, rc) /\
    (scenario_type <> "lambda_throttle" -> rc <= N) /\
    (scenario_type = "lambda_throttle" -> rc <= 5 * ((N + 4) / 5)) /\
    (length (http_calls
               (drop (length (trace w))
                  (trace (snd (send_continuous_requests fuel scenario_type
                                 (Some N) w)))))
       <= Z.to_nat rc)%nat /\
    ((forall t, clock w <= t -> readable t = true) ->
     N < Z.of_nat fuel -> st = Stopped).
Proof.
  intros HN.
  destruct (stop_events w !! scenario_type) as [ev|] eqn:Hreg.
  2:{ rewrite (send_continuous_requests_no_event _ _ _ _ Hreg).
      exists Stopped, 0. simpl. rewrite drop_all. simpl.
      assert (0 <= (N + 4) / 5) by (apply Z.div_pos; lia).
      repeat split; try done; lia. }
  rewrite (send_continuous_requests_registered _ _ _ _ _ Hreg).
  destruct (while_loop_obs fuel scenario_type (Some N) ev 0 w)
    as (st & rc & d & c & Hrun & Hfst & _ & Hd).
  exists st, rc. rewrite Hd. split; [done|].
  assert (Hstep : 0 < step_of scenario_type)
    by (destruct (step_of_cases scenario_type) as [[_ ->]|[_ ->]]; lia).
  destruct (loop_run_budget _ _ _ _ _ _ _ _ _ _ Hrun HN) as ((H1 & H2) & H3 & H4);
    [lia|apply Z.divide_0_r|].
  rewrite Z.sub_0_r in H4.
  repeat split; try done.
  - intros Hk. destruct (step_of_cases scenario_type) as [[? _]|[_ Hs]]; [done|].
    rewrite Hs in H2. lia.
  - intros Hk. destruct (step_of_cases scenario_type) as [[_ Hs]|[? _]]; [|done].
    rewrite Hs in H2, H3. destruct H3 as [k ->].
    assert (k <= (N + 4) / 5) by (apply Z.div_le_lower_bound; lia). lia.
  - intros Hread Hf. eapply loop_run_stops; [exact Hrun|done|done|lia].
Qed.

(** C3 (as amended): when the Event is set at an instant [s] that falls
    in a sleep of the runner, begun at [a], the runner stays blocked until
    that sleep is over and stops at the next loop check, at [a + 2000],
    which is within one cycle period of [s]; it makes no call at [s] or
    later. *)
Theorem stop_during_sleep fuel scenario_type max_requests ev request_count w s a ms :
  events w !! ev = Some (Some s) ->
  In (a, Sleep ms)
     (drop (length (trace w))
        (trace (snd (while_loop fuel scenario_type max_requests ev
                       request_count w)))) ->
  a <= s < a + 2000 ->
  exists rc,
    fst (while_loop (S fuel) scenario_type max_requests ev request_count w)
      = Ok (Stopped, rc) /\
    clock (snd (while_loop (S fuel) scenario_type max_requests ev
                  request_count w)) = a + 2000 /\
    s < a + 2000 <= s + 2000 /\
    Forall (fun e => fst e < s)
      (http_calls
         (drop (length (trace w))
            (trace (snd (while_loop (S fuel) scenario_type max_requests ev
                           request_count w))))).
Proof.
  intros Hev Hin Hs.
  destruct (while_loop_obs fuel scenario_type max_requests ev request_count w)
    as (st & rc & d & c & Hrun & _ & _ & Hd).
  rewrite Hd in Hin.
  destruct (while_loop_obs (S fuel) scenario_type max_requests ev request_count w)
    as (st2 & rc2 & d2 & c2 & Hrun2 & Hfst2 & Hc2 & Hd2).
  destruct (loop_run_stop_after_sleep _ _ _ s a ms _ _ _ _ _ _ _ Hev Hrun Hin
              ltac:(lia) _ _ _ _ Hrun2) as [-> ->].
  exists rc2. rewrite Hfst2, Hc2, Hd2. repeat split; try done; try lia.
  by eapply loop_run_calls_before_set.
Qed.

(** C7: the runner loads config.json anew at the start of every cycle
    and makes the calls of the cycle with what it has just loaded (none
    when the load raises); so each call of a run goes to the sample API
    that the file names at the instant of the call, and an edit between
    two cycles shows in the calls of the later cycle and not in those of
    the earlier one. *)
Theorem config_read_each_cycle fuel scenario_type max_requests ev request_count w :
  (forall config,
     fst (load_config w) = Ok config ->
     http_calls
       (drop (length (trace w))
          (trace (snd (cycle scenario_type request_count w))))
     = unit_calls (Z.to_nat (step_of scenario_type)) config
         (request_type_of scenario_type) (clock w)) /\
  (forall e,
     fst (load_config w) = Raise e ->
     http_calls
       (drop (length (trace w))
          (trace (snd (cycle scenario_type request_count w)))) = []) /\
  Forall (fun e =>
            exists config base,
              fst (load_config (with_clock (fst e) w)) = Ok config /\
              config !! "sample_api" = Some base /\
              snd e = call_for (request_type_of scenario_type) base
                        (time_repr (fst e)))
    (http_calls
       (drop (length (trace w))
          (trace (snd (while_loop fuel scenario_type max_requests ev
                         request_count w))))).
Proof.
  split; [|split].
  - intros config Hload. apply load_config_ok in Hload as [_ ->].
    destruct (cycle_spec scenario_type request_count w)
      as (d & c & Hrun & _ & Hcalls & _).
    rewrite Hrun. simpl. by rewrite drop_app_length.
  - intros e He. apply load_config_failed in He.
    rewrite (cycle_unreadable _ _ _ _ He). simpl.
    by rewrite drop_app_length.
  - destruct (while_loop_obs fuel scenario_type max_requests ev request_count w)
      as (st & rc & d & c & Hrun & _ & _ & Hd).
    rewrite Hd. eapply Forall_impl; [by eapply loop_run_calls_config|].
    simpl. intros e (base & Hb & He). exists (config_at (fst e)), base.
    split; [|done].
    by rewrite (load_config_run (with_clock (fst e) w))
      by (simpl; by eapply config_at_readable).
Qed.

(** C9: for a key that the scenario table does not hold, or whose entry
    has no request_type, the resolved request type is post_items; the loop
    never raises and every call it makes is the POST of the write shape.
    As long as it is neither stopped nor bounded it keeps running on its
    cadence: every iteration ends in one sleep of 2000 ms, so that the
    sleeps begin at least 2000 ms apart, after [fuel] iterations at least
    [2000 * fuel] ms have passed and, outside the burst scenario, the
    calls are at least 2000 ms apart; when config.json can be read it
    counts every cycle, and when the config names a sample API it makes
    the call (the five calls) of every cycle. *)
Theorem missing_request_type_falls_back scenario_type :
  (table_get scenarios scenario_type = None \/
   exists d, table_get scenarios scenario_type = Some d /\
             d !! "request_type" = None) ->
  request_type_of scenario_type = "post_items" /\
  forall fuel max_requests ev request_count w,
    (exists st rc,
       fst (while_loop fuel scenario_type max_requests ev request_count w)
         = Ok (st, rc)) /\
    Forall (fun e =>
              exists base,
                config_at (fst e) !! "sample_api" = Some base /\
                snd e = HttpCall POST (base +:+ "/items")
                          (Some [("name", "Error Trigger");
                                 ("content", "Request at " +:+ time_repr (fst e))])
                          5)
      (http_calls
         (drop (length (trace w))
            (trace (snd (while_loop fuel scenario_type max_requests ev
                           request_count w))))) /\
    (max_requests = None -> events w !! ev = Some None ->
     (exists rc,
        fst (while_loop fuel scenario_type max_requests ev request_count w)
          = Ok (Running, rc)) /\
     map snd
       (filter is_sleep
          (drop (length (trace w))
             (trace (snd (while_loop fuel scenario_type max_requests ev
                            request_count w)))))
       = replicate fuel (Sleep 2000) /\
     clock w + 2000 * Z.of_nat fuel
       <= clock (snd (while_loop fuel scenario_type max_requests ev
                        request_count w)) /\
     ForallOrdPairs cadence
       (filter is_sleep
          (drop (length (trace w))
             (trace (snd (while_loop fuel scenario_type max_requests ev
                            request_count w))))) /\
     (scenario_type <> "lambda_throttle" ->
      ForallOrdPairs cadence
        (http_calls
           (drop (length (trace w))
              (trace (snd (while_loop fuel scenario_type max_requests ev
                             request_count w)))))) /\
     ((forall t, clock w <= t -> readable t = true) ->
      fst (while_loop fuel scenario_type max_requests ev request_count w)
        = Ok (Running,
              request_count + Z.of_nat fuel * step_of scenario_type)) /\
     ((forall t, is_Some (config_at t !! "sample_api")) ->
      length (http_calls
                (drop (length (trace w))
                   (trace (snd (while_loop fuel scenario_type max_requests ev
                                  request_count w)))))
        = (fuel * Z.to_nat (step_of scenario_type))%nat)).
Proof.
  intros Hkey.
  assert (Hrt : request_type_of scenario_type = "post_items").
  { unfold request_type_of.
    destruct Hkey as [->|(d & -> & Hd)]; simpl; [done|by rewrite Hd]. }
  split; [done|]. intros fuel max ev rc w.
  destruct (while_loop_obs fuel scenario_type max ev rc w)
    as (st & rc' & d & c & Hrun & Hfst & Hclock & Hd).
  rewrite Hd, Hfst, Hclock. split; [by eauto|]. split.
  - eapply Forall_impl; [by eapply loop_run_calls_config|].
    simpl. intros e (base & Hb & He). exists base. split; [done|].
    by rewrite He, Hrt.
  - intros -> Hev.
    destruct (loop_run_unbounded _ _ _ _ _ _ _ _ _ _ Hrun)
      as (-> & H2 & H3 & H4); [done|by intros [s Hs]; congruence|].
    split; [by eauto|]. split; [done|].
    split; [by apply loop_run_running in Hrun; lia|].
    split; [by eapply loop_run_sleep_cadence|].
    split; [by intros Hk; eapply loop_run_call_cadence|].
    split; [|done]. intros Hread. by rewrite (H3 Hread).
Qed.

(** ** Runner-side code reads the clock, the trace and its Event only *)

Lemma after_view w w' d c :
  clock w = clock w' -> trace w = trace w' ->
  clock (after w d c) = clock (after w' d c) /\
  trace (after w d c) = trace (after w' d c).
Proof. intros. simpl. split; congruence. Qed.

Lemma vl_ret {A} (a : A) : view_local (ret a).
Proof.
  intros w w' Hc Ht. exists (Ok a), [], (clock w). unfold ret.
  split; [by rewrite after_nil|by rewrite Hc, after_nil].
Qed.

Lemma vl_raise {A} e : view_local (@raise A e).
Proof.
  intros w w' Hc Ht. exists (Raise e), [], (clock w). unfold raise.
  split; [by rewrite after_nil|by rewrite Hc, after_nil].
Qed.

Lemma vl_bind {A B} (m : M A) (k : A -> M B) :
  view_local m -> (forall a, view_local (k a)) -> view_local (m ≫= k).
Proof.
  intros Hm Hk w w' Hc Ht.
  destruct (Hm w w' Hc Ht) as (r & d & c & H1 & H2).
  unfold mbind, M_bind, bind. rewrite H1, H2. destruct r as [a|e].
  - destruct (after_view w w' d c Hc Ht) as [Hc' Ht'].
    destruct (Hk a _ _ Hc' Ht') as (r2 & d2 & c2 & H3 & H4).
    exists r2, (d ++ d2), c2. by rewrite H3, H4, !after_after.
  - by exists (Raise e), d, c.
Qed.

Lemma vl_try_except {A} (body : M A) (handler : exn -> M A) :
  view_local body -> (forall e, view_local (handler e)) ->
  view_local (try_except body handler).
Proof.
  intros Hm Hk w w' Hc Ht.
  destruct (Hm w w' Hc Ht) as (r & d & c & H1 & H2).
  unfold try_except. rewrite H1, H2. destruct r as [a|e].
  - by exists (Ok a), d, c.
  - destruct (after_view w w' d c Hc Ht) as [Hc' Ht'].
    destruct (Hk e _ _ Hc' Ht') as (r2 & d2 & c2 & H3 & H4).
    exists r2, (d ++ d2), c2. by rewrite H3, H4, !after_after.
Qed.

Lemma vl_emit a : view_local (emit a).
Proof.
  intros w w' Hc Ht. exists (Ok tt), [(clock w, a)], (clock w). unfold emit.
  split; [by rewrite after_trace_only|].
  by rewrite after_trace_only, Hc.
Qed.

Lemma vl_advance ms : view_local (advance ms).
Proof.
  intros w w' Hc Ht. exists (Ok tt), [], (clock w + ms). unfold advance.
  split; [by rewrite after_clock_only|by rewrite after_clock_only, Hc].
Qed.

Lemma vl_subscript d k : view_local (subscript d k).
Proof. unfold subscript. destruct (d !! k); [apply vl_ret|apply vl_raise]. Qed.

Lemma vl_load_config : view_local load_config.
Proof.
  intros w w' Hc Ht. exists (fst (load_config w)), [], (clock w).
  unfold load_config. rewrite <- Hc.
  destruct (config_file (clock w)) as [e|[j|]]; rewrite after_nil;
    (split; [done|by rewrite Hc, after_nil]).
Qed.

Lemma vl_time_time : view_local time_time.
Proof.
  intros w w' Hc Ht. exists (Ok (time_repr (clock w))), [], (clock w).
  unfold time_time. rewrite after_nil, <- Hc.
  split; [done|by rewrite Hc, after_nil].
Qed.

Lemma vl_request c : view_local (request c).
Proof.
  intros w w' Hc Ht. unfold request. rewrite <- Ht, <- Hc.
  set (r := network _ c).
  exists (match reply_result r with inl e => Raise e | inr resp => Ok resp end),
    [(clock w, Http c)], (clock w + Z.of_N (reply_after r)).
  replace (with_clock (clock w + Z.of_N (reply_after r))
             (with_trace (trace w ++ [(clock w, Http c)]) w'))
    with (after w' [(clock w, Http c)] (clock w + Z.of_N (reply_after r)))
    by (unfold after; by rewrite Ht).
  by destruct (reply_result r).
Qed.

Lemma vl_spawn body : view_local body -> view_local (spawn body).
Proof.
  intros Hb w w' Hc Ht. unfold spawn.
  assert (Hc0 : clock (with_trace (trace w ++ [(clock w, ThreadStart)]) w)
                = clock (with_trace (trace w' ++ [(clock w', ThreadStart)]) w'))
    by done.
  assert (Ht0 : trace (with_trace (trace w ++ [(clock w, ThreadStart)]) w)
                = trace (with_trace (trace w' ++ [(clock w', ThreadStart)]) w'))
    by (simpl; by rewrite Hc, Ht).
  destruct (Hb _ _ Hc0 Ht0) as (r & d & c & H1 & H2). rewrite H1, H2.
  exists (Ok c), ((clock w, ThreadStart) :: d), (clock w).
  split; f_equal.
  - destruct w; unfold after, with_clock, with_trace; simpl.
    by rewrite <- app_assoc.
  - rewrite Hc. destruct w'; unfold after, with_clock, with_trace; simpl.
    by rewrite <- app_assoc.
Qed.

Lemma vl_join finish seconds : view_local (join finish seconds).
Proof.
  intros w w' Hc Ht.
  exists (Ok tt), [], (Z.max (clock w) (Z.min finish (clock w + 1000 * seconds))).
  unfold join. split; [by rewrite after_clock_only|].
  by rewrite after_clock_only, Hc.
Qed.

#[local] Hint Resolve vl_ret vl_raise vl_emit vl_advance vl_subscript
  vl_load_config vl_time_time vl_request vl_join : engine.

Ltac vl :=
  repeat first
    [ progress intros
    | solve [auto with engine]
    | apply vl_bind
    | apply vl_try_except
    | apply vl_spawn ].

Lemma vl_send_single_request config request_type :
  view_local (send_single_request config request_type).
Proof.
  unfold send_single_request, requests_get, requests_post, print.
  destruct (String.eqb request_type "get_items");
    [|destruct (String.eqb request_type "get_by_id")]; vl.
Qed.

Lemma vl_start_threads n body :
  view_local body -> view_local (start_threads n body).
Proof. intros Hb. induction n; simpl; vl. Qed.

Lemma vl_join_threads ts seconds : view_local (join_threads ts seconds).
Proof. induction ts; simpl; vl. Qed.

#[local] Hint Resolve vl_send_single_request vl_start_threads
  vl_join_threads : engine.

Lemma vl_cycle scenario_type request_count :
  view_local (cycle scenario_type request_count).
Proof.
  unfold cycle, print.
  destruct (String.eqb scenario_type "lambda_throttle"); vl.
Qed.

(** The loop runs alike in two worlds that agree on the clock, on the
    trace and on the state of its Event. *)
Lemma while_loop_view fuel scenario_type max_requests ev request_count w w' :
  clock w = clock w' -> trace w = trace w' ->
  events w !! ev = events w' !! ev ->
  exists r d c,
    while_loop fuel scenario_type max_requests ev request_count w
      = (r, after w d c) /\
    while_loop fuel scenario_type max_requests ev request_count w'
      = (r, after w' d c).
Proof.
  revert request_count w w'.
  induction fuel as [|fuel IH]; intros rc w w' Hc Ht He; simpl.
  - by apply vl_ret.
  - rewrite (bind_run _ _ _ _ _ (is_set_spec ev w)),
      (bind_run _ _ _ _ _ (is_set_spec ev w')).
    replace (signalled ev w') with (signalled ev w)
      by (unfold signalled; by rewrite He, Hc).
    destruct (signalled ev w); [exact (vl_ret _ w w' Hc Ht)|].
    destruct (budget_reached max_requests rc).
    { exact (vl_bind (print _) _ (vl_emit _) (fun _ => vl_ret _) w w' Hc Ht). }
    destruct (vl_cycle scenario_type rc w w' Hc Ht) as (r & d & c & H1 & H2).
    destruct r as [rc1|e].
    + rewrite (bind_run _ _ _ _ _ H1), (bind_run _ _ _ _ _ H2).
      rewrite !(bind_run _ _ _ _ _ (time_sleep_spec _)), !after_after.
      simpl clock.
      destruct (IH rc1 (after w (d ++ [(c, Sleep 2000)]) (c + 2000))
                  (after w' (d ++ [(c, Sleep 2000)]) (c + 2000)))
        as (r2 & d2 & c2 & H3 & H4); [done|simpl; congruence|done|].
      exists r2, ((d ++ [(c, Sleep 2000)]) ++ d2), c2.
      by rewrite H3, H4, !after_after.
    + unfold mbind, M_bind, bind. rewrite H1, H2. by exists (Raise e), d, c.
Qed.

(** What is seen of a runner thread depends only on the state of the
    Event the runner holds. *)
Lemma thread_run_view horizon w w' t :
  (forall start ev, th_started t = Some (start, Some ev) ->
     events w !! ev = events w' !! ev) ->
  thread_run horizon w t = thread_run horizon w' t.
Proof.
  intros He. unfold thread_run.
  destruct (th_started t) as [[start [ev|]]|]; try done.
  destruct (while_loop_view (cycles_until start horizon) (th_key t) (th_max t)
              ev 0 (with_trace [] (with_clock start w))
              (with_trace [] (with_clock start w')))
    as (r & d & c & H1 & H2); [done|done|by apply (He start)|].
  by rewrite H1, H2.
Qed.

(** ** Runner threads seen from outside *)

(** A run that has stopped is not changed by further iterations. *)
Lemma loop_run_more_fuel key max ev fuel rc w rc' d c k :
  loop_run key max ev fuel rc w Stopped rc' d c ->
  loop_run key max ev (fuel + k) rc w Stopped rc' d c.
Proof.
  remember Stopped as st eqn:Hst.
  induction 1 as [rc w|fuel rc w Hs|fuel rc w Hs Hb
                 |fuel rc w d c st rc' d' c' Hs Hb Hcy Hc Hcalls Hbusy Hrest IH];
    try done; simpl.
  - by apply run_signal.
  - by apply run_budget.
  - eapply run_cycle; eauto.
Qed.

(** [cycles_until] is enough: a runner that is still running after that
    many iterations is past the horizon. *)
Lemma thread_run_running horizon w t c :
  thread_run horizon w t = Some (Running, c) -> horizon < c.
Proof.
  unfold thread_run. destruct (th_started t) as [[start [ev|]]|]; try done.
  destruct (while_loop_run (cycles_until start horizon) (th_key t) (th_max t)
              ev 0 (with_trace [] (with_clock start w)))
    as (st & rc & d & c' & Hrun & Hrel).
  rewrite Hrun. simpl. intros H. injection H as -> ->.
  apply loop_run_running in Hrel. simpl in Hrel.
  unfold cycles_until in Hrel.
  destruct (Z_lt_le_dec horizon start) as [Hlt|Hle].
  - pose proof (Nat2Z.is_nonneg (Z.to_nat ((horizon - start) / 2000 + 2))). lia.
  - assert (0 <= (horizon - start) / 2000) by (apply Z.div_pos; lia).
    rewrite Z2Nat.id in Hrel by lia.
    pose proof (Z.mod_pos_bound (horizon - start) 2000 ltac:(lia)).
    pose proof (Z.div_mod (horizon - start) 2000 ltac:(lia)). lia.
Qed.

(** The instant at which a runner is found stopped does not depend on how
    far ahead one looks. *)
Lemma thread_run_stopped h1 h2 w t c :
  thread_run h1 w t = Some (Stopped, c) ->
  h1 <= h2 ->
  thread_run h2 w t = Some (Stopped, c).
Proof.
  unfold thread_run. destruct (th_started t) as [[start [ev|]]|]; try done.
  destruct (while_loop_run (cycles_until start h1) (th_key t) (th_max t)
              ev 0 (with_trace [] (with_clock start w)))
    as (st & rc & d & c1 & Hrun1 & Hrel1).
  destruct (while_loop_run (cycles_until start h2) (th_key t) (th_max t)
              ev 0 (with_trace [] (with_clock start w)))
    as (st2 & rc2 & d2 & c2 & Hrun2 & Hrel2).
  rewrite Hrun1, Hrun2. simpl. intros H Hle. injection H as -> ->.
  assert (Hf : exists k, cycles_until start h2 = (cycles_until start h1 + k)%nat).
  { exists (cycles_until start h2 - cycles_until start h1)%nat.
    assert (Hd : (h1 - start) / 2000 <= (h2 - start) / 2000)
      by (apply Z.div_le_mono; lia).
    unfold cycles_until. lia. }
  destruct Hf as [k Hk]. rewrite Hk in Hrel2.
  apply (loop_run_more_fuel _ _ _ _ _ _ _ _ _ k) in Hrel1.
  by destruct (loop_run_det _ _ _ _ _ _ _ _ _ _ _ _ _ _ Hrel1 Hrel2)
    as (<- & _ & _ & <-).
Qed.

(** More iterations never end earlier. *)
Lemma loop_run_clock_fuel key max ev fuel rc w st1 rc1 d1 c1 k st2 rc2 d2 c2 :
  loop_run key max ev fuel rc w st1 rc1 d1 c1 ->
  loop_run key max ev (fuel + k) rc w st2 rc2 d2 c2 ->
  c1 <= c2.
Proof.
  intros H1. revert st2 rc2 d2 c2.
  induction H1 as [rc w|fuel rc w Hs|fuel rc w Hs Hb
                  |fuel rc w d c st rc' d' c' Hs Hb Hcy Hc Hcalls Hbusy Hrest IH];
    intros st2 rc2 d2 c2 H2.
  - by apply loop_run_clock in H2 as [? _].
  - inversion H2; subst; try congruence. lia.
  - inversion H2; subst; try congruence. lia.
  - inversion H2; subst; try congruence. same_cycle. eauto.
Qed.

(** A runner found stopped at [f] is found so from every horizon that is
    not before [f]. *)
Lemma thread_run_finished h1 h2 w t f :
  thread_run h2 w t = Some (Stopped, f) ->
  f <= h1 <= h2 ->
  thread_run h1 w t = Some (Stopped, f).
Proof.
  intros H2 Hh.
  destruct (thread_run h1 w t) as [[[] c]|] eqn:H1.
  - exfalso. pose proof (thread_run_running _ _ _ _ H1) as Hc.
    revert H1 H2. unfold thread_run.
    destruct (th_started t) as [[start [ev|]]|]; try done.
    destruct (while_loop_run (cycles_until start h1) (th_key t) (th_max t)
                ev 0 (with_trace [] (with_clock start w)))
      as (st1 & rc1 & d1 & c1 & Hrun1 & Hrel1).
    destruct (while_loop_run (cycles_until start h2) (th_key t) (th_max t)
                ev 0 (with_trace [] (with_clock start w)))
      as (st2 & rc2 & d2 & c2 & Hrun2 & Hrel2).
    rewrite Hrun1, Hrun2. simpl. intros E1 E2.
    injection E1 as -> ->. injection E2 as -> ->.
    assert (Hd : (h1 - start) / 2000 <= (h2 - start) / 2000)
      by (apply Z.div_le_mono; lia).
    replace (cycles_until start h2)
      with (cycles_until start h1
            + (cycles_until start h2 - cycles_until start h1))%nat in Hrel2
      by (unfold cycles_until; lia).
    pose proof (loop_run_clock_fuel _ _ _ _ _ _ _ _ _ _ _ _ _ _ _ Hrel1 Hrel2).
    lia.
  - apply (thread_run_stopped h1 h2) in H1; [|lia]. congruence.
  - revert H1 H2. unfold thread_run.
    destruct (th_started t) as [[start [ev|]]|]; try done.
    by destruct (while_loop _ _ _ _ _ _) as [[[]|] ?].
Qed.


(** ** The registry *)

Lemma event_set_spec ev w scenario_type :
  stop_events w !! scenario_type = Some ev ->
  event_set ev w = (Ok tt, with_events (events_after_stop scenario_type w) w).
Proof.
  intros H. unfold event_set, events_after_stop. rewrite H.
  destruct (events w !! ev) as [[?|]|]; try done; by destruct w.
Qed.

Lemma stop_requests_spec scenario_type w :
  stop_requests scenario_type w
    = (Ok tt, with_events (events_after_stop scenario_type w) w).
Proof.
  unfold stop_requests. unfold_M.
  destruct (stop_events w !! scenario_type) as [ev|] eqn:H.
  - by apply event_set_spec.
  - unfold events_after_stop. rewrite H. by destruct w.
Qed.

Lemma events_after_stop_length scenario_type w :
  length (events_after_stop scenario_type w) = length (events w).
Proof.
  unfold events_after_stop. destruct (stop_events w !! scenario_type); [|done].
  destruct (events w !! _) as [[?|]|]; try done. by rewrite length_insert.
Qed.

(** Waiting for a runner: the wait is bounded by the timeout, never
    raises on a thread that is alive, and ends before the timeout only
    when the runner has finished. *)
Lemma thread_join_spec th seconds w :
  0 <= seconds ->
  alive th w = true ->
  exists c, thread_join th seconds w = (Ok tt, with_clock c w) /\
            clock w <= c <= clock w + 1000 * seconds /\
            (c < clock w + 1000 * seconds -> alive th (with_clock c w) = false).
Proof.
  intros Hs. unfold alive, thread_is_alive, thread_join. simpl.
  destruct (threads w !! th) as [t|]; [|done].
  destruct (thread_run (clock w + 1000 * seconds) w t) as [[[] f]|] eqn:Hrun.
  - intros _. eexists. split; [reflexivity|]. split; [lia|]. lia.
  - intros _. eexists. split; [reflexivity|]. split; [lia|].
    intros Hlt.
    rewrite (thread_run_view _ (with_clock _ w) w t) by done.
    rewrite (thread_run_finished _ _ _ _ _ Hrun) by lia.
    apply Z.ltb_ge. lia.
  - revert Hrun. unfold thread_run.
    destruct (th_started t) as [[start [e|]]|]; try done.
    by destruct (while_loop _ _ _ _ _ _) as [[[]|] ?].
Qed.

(** What [start_requests] does to the world. *)
Lemma start_requests_spec scenario_type max_requests is_recovery w :
  exists c,
    start_requests scenario_type max_requests is_recovery w
      = (Ok tt,
         World c (trace w)
           (<[scenario_type := length (threads w)]> (request_threads w))
           (<[scenario_type := length (events w)]> (stop_events w))
           (<[scenario_type := is_recovery]> (recovery_mode w))
           (events_after_stop scenario_type w ++ [None])
           (threads w ++
            [Thread scenario_type max_requests
               (Some (c, Some (length (events w))))])) /\
    clock w <= c <= clock w + 3000 /\
    (forall th,
       request_threads w !! scenario_type = Some th ->
       is_Some (stop_events w !! scenario_type) ->
       c < clock w + 3000 ->
       alive th (with_clock c (with_events (events_after_stop scenario_type w) w))
         = false).
Proof.
  unfold start_requests.
  assert (Hrest : forall w1 : world,
    trace w1 = trace w -> request_threads w1 = request_threads w ->
    stop_events w1 = stop_events w -> recovery_mode w1 = recovery_mode w ->
    events w1 = events_after_stop scenario_type w -> threads w1 = threads w ->
    ((fun w0 : world =>
        (Ok (),
         with_recovery_mode (<[scenario_type:=is_recovery]> (recovery_mode w0)) w0));;
     ev ← new_event;
     (fun w0 : world =>
        (Ok (), with_stop_events (<[scenario_type:=ev]> (stop_events w0)) w0));;
     th ← new_thread scenario_type max_requests;
     (fun w0 : world =>
        (Ok (), with_request_threads (<[scenario_type:=th]> (request_threads w0)) w0));;
     thread_start th) w1
    = (Ok tt,
       World (clock w1) (trace w)
         (<[scenario_type := length (threads w)]> (request_threads w))
         (<[scenario_type := length (events w)]> (stop_events w))
         (<[scenario_type := is_recovery]> (recovery_mode w))
         (events_after_stop scenario_type w ++ [None])
         (threads w ++
          [Thread scenario_type max_requests
             (Some (clock w1, Some (length (events w))))]))).
  { intros [c1 t1 rt1 se1 rm1 ev1 th1]. simpl. intros -> -> -> -> -> ->.
    unfold_M. unfold new_event, new_thread, thread_start. simpl.
    rewrite lookup_app_r, Nat.sub_diag by lia. simpl.
    rewrite lookup_insert_eq, events_after_stop_length.
    f_equal. f_equal.
    rewrite insert_app_r_alt, Nat.sub_diag by lia. done. }
  assert (Hhead : exists c,
    match stop_events w !! scenario_type with
    | Some ev =>
        event_set ev;;
        match request_threads w !! scenario_type with
        | Some th =>
            alive ← thread_is_alive th;
            if (alive : bool) then thread_join th 3 else ret tt
        | None => ret tt
        end
    | None => ret tt
    end w
    = (Ok tt, with_clock c (with_events (events_after_stop scenario_type w) w)) /\
    clock w <= c <= clock w + 3000 /\
    (forall th,
       request_threads w !! scenario_type = Some th ->
       is_Some (stop_events w !! scenario_type) ->
       c < clock w + 3000 ->
       alive th (with_clock c (with_events (events_after_stop scenario_type w) w))
         = false)).
  { destruct (stop_events w !! scenario_type) as [ev|] eqn:Hse.
    - rewrite (bind_run _ _ _ _ _ (event_set_spec _ _ _ Hse)).
      set (w1 := with_events (events_after_stop scenario_type w) w).
      destruct (request_threads w !! scenario_type) as [th|] eqn:Hrt.
      + assert (Ha : thread_is_alive th w1 = (Ok (alive th w1), w1)) by done.
        rewrite (bind_run _ _ _ _ _ Ha).
        destruct (alive th w1) eqn:Hal.
        * destruct (thread_join_spec th 3 w1 ltac:(lia) Hal) as (c & Hj & Hc & Hd).
          exists c. split; [done|]. split; [simpl in Hc; lia|].
          intros th' [= <-] _ Hlt. apply Hd. simpl. lia.
        * exists (clock w). split; [by destruct w|]. split; [lia|].
          intros th' [= <-] _ _. rewrite <- Hal. f_equal; by destruct w.
      + exists (clock w). split; [by destruct w|]. split; [lia|]. done.
    - exists (clock w). split; [|split; [lia|]].
      + unfold events_after_stop. rewrite Hse. by destruct w.
      + by intros th _ [? ?]. }
  destruct Hhead as (c & Hhead & Hc). exists c. split; [|done].
  rewrite (bind_run get_world _ w w w eq_refl).
  rewrite (bind_run _ _ _ _ _ Hhead).
  rewrite Hrest; by destruct w.
Qed.




(** ** recover_all *)

(** One turn of the loop of [recover_all] always records an outcome for
    its key. *)
Lemma recover_turn config scenario_type (results : gmap string string) w :
  exists v w',
    try_except
      (stop_requests scenario_type;;
       url ← subscript config "error_injection_api";
       response ← requests_post url
         [("action", "recover"); ("error_type", scenario_type)] 10;
       ret (<[scenario_type :=
                if status_code response =? 200 then "recovered" else "failed"]>
              results))
      (fun e => ret (<[scenario_type := "error: " +:+ exn_str e]> results)) w
    = (Ok (<[scenario_type := v]> results), w') /\
    outcome v.
Proof.
  unfold try_except.
  rewrite (bind_run _ _ _ _ _ (stop_requests_spec scenario_type w)).
  unfold subscript.
  destruct (config !! "error_injection_api") as [url|].
  - unfold mbind, M_bind, bind, ret, requests_post, request. simpl.
    destruct (reply_result _) as [e|resp]; simpl.
    + eexists _, _. split; [reflexivity|]. right. right. by eexists.
    + eexists _, _. split; [reflexivity|].
      destruct (status_code resp =? 200); [by left|by right; left].
  - unfold mbind, M_bind, bind, raise, ret. simpl.
    eexists _, _. split; [reflexivity|]. right. right. by eexists.
Qed.

Lemma recover_each_spec keys config (results : gmap string string) w :
  exists (results' : gmap string string) w',
    recover_each keys config results w = (Ok results', w') /\
    (forall k, is_Some (results' !! k) <-> In k keys \/ is_Some (results !! k)) /\
    (forall k v, results' !! k = Some v -> outcome v \/ results !! k = Some v).
Proof.
  revert results w. induction keys as [|key keys IH]; intros results w; simpl.
  - exists results, w. split; [done|]. split; [|by auto].
    intros k. split; [by auto|]. by intros [[]|].
  - destruct (recover_turn config key results w) as (v & w1 & Hturn & Hv).
    rewrite (bind_run _ _ _ _ _ Hturn).
    destruct (IH (<[key := v]> results) w1) as (results' & w' & Hrun & Hdom & Hval).
    exists results', w'. split; [done|]. split.
    + intros k. rewrite Hdom. destruct (decide (key = k)) as [->|Hne].
      * rewrite lookup_insert_eq. split; [by auto|]. intros _. right. by eexists.
      * rewrite lookup_insert_ne by done. split; [by intuition|].
        intros [[?|?]|?]; [done|by auto|by auto].
    + intros k v' Hk. destruct (Hval k v' Hk) as [?|Hi]; [by left|].
      destruct (decide (key = k)) as [->|Hne].
      * rewrite lookup_insert_eq in Hi. injection Hi as <-. by left.
      * rewrite lookup_insert_ne in Hi by done. by right.
Qed.

(** [recover_all] reads config.json before its loop and outside every
    [try]: when the read raises, the exception goes to the caller, no
    mapping is returned and no runner is stopped. *)
Lemma recover_all_unreadable w e :
  config_file (clock w) = inl e -> recover_all w = (Raise e, w).
Proof.
  intros He. unfold recover_all.
  assert (Hload : load_config w = (Raise e, w))
    by (unfold load_config; by rewrite He).
  by rewrite (bind_raise _ _ _ _ _ Hload).
Qed.

(** X20: when config.json is absent or can be read, [recover_all]
    returns, without raising and whatever the registry holds (nothing at
    all, for instance), a mapping whose keys are exactly the keys of the
    scenario table and whose values are recovered, failed, or an error
    message. *)
Theorem recover_all_covers_every_key w :
  readable (clock w) = true ->
  exists (results : gmap string string) w',
    recover_all w = (Ok ("All scenarios recovered", results), w') /\
    (forall k, is_Some (results !! k) <-> In k (map fst scenarios)) /\
    (forall k v, results !! k = Some v ->
       v = "recovered" \/ v = "failed" \/ exists msg, v = "error: " +:+ msg).
Proof.
  intros Hr. unfold recover_all.
  pose proof (load_config_run w Hr) as Hload.
  rewrite (bind_run _ _ _ _ _ Hload).
  destruct (recover_each_spec (map fst scenarios) (config_at (clock w)) ∅ w)
    as (results & w' & Hrun & Hdom & Hval).
  rewrite (bind_run _ _ _ _ _ Hrun). exists results, w'.
  split; [done|]. split.
  - intros k. rewrite Hdom, lookup_empty. split; [|by auto].
    intros [?|[? ?]]; done.
  - intros k v Hk. destruct (Hval k v Hk) as [?|Hi]; [done|].
    by rewrite lookup_empty in Hi.
Qed.

(** * Further properties of the engine *)

(** ** How long a cycle blocks *)

Section Durations.

(** No reply takes longer than [D] milliseconds. *)
Variable D : Z.
Hypothesis D_nonneg : 0 <= D.
Hypothesis replies_within : forall n c, Z.of_N (reply_after (network n c)) <= D.

Lemma send_single_request_duration config request_type w :
  clock w <= clock (snd (send_single_request config request_type w))
          <= clock w + D.
Proof.
  destruct (config !! "sample_api") as [base|] eqn:Hc.
  - rewrite (send_single_request_base _ _ _ _ Hc). simpl.
    pose proof (replies_within (length (http_calls (trace w)))
                  (call_for request_type base (time_repr (clock w)))). lia.
  - rewrite (send_single_request_no_base _ _ _ Hc). simpl. lia.
Qed.

Lemma spawn_finish config request_type w :
  exists f w',
    spawn (send_single_request config request_type) w = (Ok f, w') /\
    clock w' = clock w /\ clock w <= f <= clock w + D.
Proof.
  unfold spawn.
  pose proof (send_single_request_duration config request_type
                (with_trace (trace w ++ [(clock w, ThreadStart)]) w)) as Hd.
  destruct (send_single_request config request_type
              (with_trace (trace w ++ [(clock w, ThreadStart)]) w))
    as [r w1].
  simpl in Hd. eexists _, _. split; [reflexivity|]. by split.
Qed.

Lemma start_threads_finish n config request_type w :
  exists ts w',
    start_threads n (send_single_request config request_type) w = (Ok ts, w') /\
    clock w' = clock w /\ length ts = n /\
    Forall (fun f => f <= clock w + D) ts.
Proof.
  revert w. induction n as [|n IH]; intros w; simpl.
  - exists [], w. by repeat split.
  - destruct (spawn_finish config request_type w) as (f & w1 & Hs & Hc1 & Hf).
    rewrite (bind_run _ _ _ _ _ Hs).
    destruct (IH w1) as (ts & w2 & Hr & Hc2 & Hl & Hall).
    rewrite (bind_run _ _ _ _ _ Hr).
    exists (f :: ts), w2. split; [done|]. split; [congruence|].
    split; [simpl; congruence|].
    constructor; [lia|]. rewrite <- Hc1. done.
Qed.

(** Joining workers one after the other: the caller is done when the
    last worker is, and at the latest after the timeout of each. *)
Lemma join_threads_duration ts seconds w bound :
  0 <= seconds ->
  clock w <= bound ->
  Forall (fun f => f <= bound) ts ->
  exists w',
    join_threads ts seconds w = (Ok tt, w') /\
    clock w <= clock w' /\ clock w' <= bound /\
    clock w' <= clock w + 1000 * seconds * Z.of_nat (length ts).
Proof.
  intros Hs. revert w. induction ts as [|t ts IH]; intros w Hw Hall; simpl.
  - exists w. unfold_M. repeat split; lia.
  - inversion Hall as [|? ? Ht Hrest]; subst.
    assert (Hj : join t seconds w
                 = (Ok tt, with_clock (Z.max (clock w)
                                         (Z.min t (clock w + 1000 * seconds))) w))
      by done.
    rewrite (bind_run _ _ _ _ _ Hj).
    destruct (IH (with_clock (Z.max (clock w) (Z.min t (clock w + 1000 * seconds))) w))
      as (w' & Hr & H1 & H2 & H3); [simpl; lia|done|].
    exists w'. split; [done|]. simpl in *. repeat split; lia.
Qed.

(** One cycle blocks no longer than the slowest reply; a burst cycle, in
    addition, no longer than five join timeouts of 10 seconds. *)
Lemma cycle_duration scenario_type request_count w :
  clock w <= clock (snd (cycle scenario_type request_count w)) <= clock w + D /\
  (scenario_type = "lambda_throttle" ->
   clock (snd (cycle scenario_type request_count w)) <= clock w + 50000).
Proof.
  destruct (readable (clock w)) eqn:Hread.
  2:{ destruct (load_config_raise w Hread) as (e & He & _).
      rewrite (cycle_unreadable _ _ _ _ He). simpl. lia. }
  pose proof (load_config_run w Hread) as Hload.
  unfold cycle.
  fold (request_type_of scenario_type). unfold try_except.
  rewrite (bind_run _ _ _ _ _ Hload).
  destruct (String.eqb_spec scenario_type "lambda_throttle") as [->|Hne].
  - destruct (start_threads_finish 5 (config_at (clock w))
                (request_type_of "lambda_throttle") w)
      as (ts & w1 & Hr & Hc1 & Hl & Hall).
    rewrite (bind_run _ _ _ _ _ Hr).
    destruct (join_threads_duration ts 10 w1 (clock w + D) ltac:(lia))
      as (w2 & Hj & H1 & H2 & H3); [lia|done|].
    rewrite (bind_run _ _ _ _ _ Hj). simpl. rewrite Hl in H3. lia.
  - pose proof (send_single_request_duration (config_at (clock w))
                  (request_type_of scenario_type) w) as Hd.
    destruct (send_single_request_spec (config_at (clock w))
                (request_type_of scenario_type) w) as (d & c & Hrun & _).
    rewrite (bind_run _ _ _ _ _ Hrun). rewrite Hrun in Hd. simpl in *.
    split; [lia|done].
Qed.

End Durations.

(** Once the Event is set, at [s], a run whose cycles block for at most
    [D] ms is over before [s + D + 2000]: the loop check that follows the
    cycle in progress at [s] sees it. *)
Lemma loop_run_latency D key max ev s fuel rc w st rc' d c :
  (forall rc0 w0, clock (snd (cycle key rc0 w0)) <= clock w0 + D) ->
  events w !! ev = Some (Some s) ->
  loop_run key max ev fuel rc w st rc' d c ->
  c = clock w \/ c < s + D + 2000.
Proof.
  intros Hcycle Hev.
  induction 1 as [rc w|fuel rc w Hs|fuel rc w Hs Hb
                 |fuel rc w d c st rc' d' c' Hs Hb Hcy Hc Hcalls Hbusy Hrest IH];
    try (by left).
  right. unfold signalled in Hs. rewrite Hev in Hs.
  pose proof (Hcycle rc w) as Hd. rewrite Hcy in Hd.
  simpl in Hd, IH. destruct (IH Hev) as [->|?]; lia.
Qed.

(** X1: [stop_requests] never raises and never blocks; it changes
    nothing but the Event heap, nothing at all for a key that was never
    started, and calling it again, at any later instant, changes nothing
    more. *)
Theorem stop_requests_idempotent scenario_type w t :
  fst (stop_requests scenario_type w) = Ok tt /\
  snd (stop_requests scenario_type w)
    = with_events (events (snd (stop_requests scenario_type w))) w /\
  (stop_events w !! scenario_type = None ->
   snd (stop_requests scenario_type w) = w) /\
  stop_requests scenario_type
    (with_clock t (snd (stop_requests scenario_type w)))
    = (Ok tt, with_clock t (snd (stop_requests scenario_type w))).
Proof.
  rewrite stop_requests_spec. simpl. split; [done|]. split; [done|]. split.
  - intros H. unfold events_after_stop. rewrite H. by destruct w.
  - rewrite stop_requests_spec. f_equal.
    unfold events_after_stop at 1. simpl.
    destruct (stop_events w !! scenario_type) as [ev|] eqn:Hse;
      [|by destruct w].
    unfold events_after_stop. rewrite Hse.
    destruct (events w !! ev) as [[s|]|] eqn:Hev.
    + rewrite Hev. by destruct w.
    + rewrite list_lookup_insert_eq by (by eapply lookup_lt_Some).
      by destruct w.
    + rewrite Hev. by destruct w.
Qed.

Lemma join_threads_timeout ts seconds w :
  0 <= seconds ->
  exists w',
    join_threads ts seconds w = (Ok tt, w') /\
    clock w <= clock w' <= clock w + 1000 * seconds * Z.of_nat (length ts).
Proof.
  intros Hs. revert w. induction ts as [|t ts IH]; intros w; simpl.
  - exists w. unfold_M. split; [done|lia].
  - assert (Hj : join t seconds w
                 = (Ok tt, with_clock (Z.max (clock w)
                                         (Z.min t (clock w + 1000 * seconds))) w))
      by done.
    rewrite (bind_run _ _ _ _ _ Hj).
    destruct (IH (with_clock (Z.max (clock w) (Z.min t (clock w + 1000 * seconds))) w))
      as (w' & Hr & H1).
    exists w'. split; [done|]. simpl in *. lia.
Qed.

(** X2: a burst cycle blocks the runner for at most 50 seconds, whatever
    the five calls do: the five joins, of at most 10 seconds each, come
    one after the other. *)
Theorem burst_cycle_blocks_at_most_50s request_count w :
  clock w <= clock (snd (cycle "lambda_throttle" request_count w))
          <= clock w + 50000.
Proof.
  destruct (readable (clock w)) eqn:Hread.
  2:{ destruct (load_config_raise w Hread) as (e & He & _).
      rewrite (cycle_unreadable _ _ _ _ He). simpl. lia. }
  pose proof (load_config_run w Hread) as Hload.
  unfold cycle.
  fold (request_type_of "lambda_throttle"). unfold try_except.
  change (String.eqb "lambda_throttle" "lambda_throttle") with true.
  rewrite (bind_run _ _ _ _ _ Hload).
  destruct (start_threads_spec 5 (config_at (clock w))
              (request_type_of "lambda_throttle") w)
    as (d & ts & Hr & Hl & _).
  rewrite (bind_run _ _ _ _ _ Hr).
  destruct (join_threads_timeout ts 10 (after w d (clock w)) ltac:(lia))
    as (w2 & Hj & H1).
  rewrite (bind_run _ _ _ _ _ Hj). simpl in *. rewrite Hl in H1. lia.
Qed.

(** A run that stops without having been signalled stops on its budget:
    the count has reached it, the last thing recorded is the completion
    message, every cycle slept once, and counted when config.json could
    be read, and made its calls when the config named a sample API. *)
Lemma loop_run_budget_exact key N ev fuel rc w rc' d c :
  loop_run key (Some N) ev fuel rc w Stopped rc' d c ->
  (~ exists s, events w !! ev = Some (Some s)) ->
  N <= rc' /\
  (exists d0, d = d0 ++ [(c, Print (completed_message key (Some N) rc'))]) /\
  ((forall t, clock w <= t -> readable t = true) ->
   Z.of_nat (length (filter is_sleep d)) * step_of key = rc' - rc) /\
  ((forall t, is_Some (config_at t !! "sample_api")) ->
   Z.of_nat (length (http_calls d)) = rc' - rc).
Proof.
  remember Stopped as st eqn:Hst. remember (Some N) as max eqn:Hmax.
  induction 1 as [rc w|fuel rc w Hs|fuel rc w Hs Hb
                 |fuel rc w d c st rc' d' c' Hs Hb Hcy Hc Hcalls Hbusy Hrest IH];
    intros Hev; try done.
  - exfalso. unfold signalled in Hs.
    destruct (events w !! ev) as [[s|]|] eqn:He; try done.
    apply Hev. by exists s.
  - subst max. simpl in Hb. split; [lia|]. split; [by exists []|].
    split; intros _; simpl; lia.
  - destruct (IH Hst Hev) as (H1 & (d0 & ->) & H3 & H4).
    split; [done|]. split.
    { exists (d ++ (c, Sleep 2000) :: d0). by rewrite <- app_assoc. }
    split.
    + intros Hread. rewrite filter_app, length_app. destruct Hbusy as [_ ->].
      rewrite filter_cons. simpl.
      specialize (H3 ltac:(simpl; intros t Ht; apply Hread; lia)).
      simpl in H3. unfold gain in H3. rewrite Hread in H3 by lia. lia.
    + intros Hcfg. rewrite http_calls_app, length_app, Hcalls. simpl.
      specialize (H4 Hcfg). unfold unit_calls.
      destruct (Hcfg (clock w)) as [base Hbase].
      unfold gain in H4. rewrite (config_at_readable _ _ _ Hbase) in H4.
      rewrite Hbase, length_replicate.
      destruct (step_of_cases key) as [[_ Hs']|[_ Hs']]; rewrite Hs' in *; lia.
Qed.

(** X3: when config.json can be read at every cycle, a runner with a
    budget of N >= 1 that nobody stops counts exactly N requests, or N
    rounded up to a multiple of 5 for lambda_throttle (30 for N = 30 in
    both cases); it runs one cycle and one 2-second sleep per counted
    request, or per five of them, makes one call per counted request when
    the config names a sample API, and ends with the completion
    message. *)
Theorem recovery_budget_exact fuel scenario_type N ev w :
  1 <= N ->
  N < Z.of_nat fuel ->
  events w !! ev = Some None ->
  (forall t, clock w <= t -> readable t = true) ->
  let r := while_loop fuel scenario_type (Some N) ev 0 w in
  let total := step_of scenario_type
               * ((N + step_of scenario_type - 1) / step_of scenario_type) in
  fst r = Ok (Stopped, total) /\
  Z.of_nat (length (filter is_sleep (drop (length (trace w)) (trace (snd r)))))
    = total / step_of scenario_type /\
  last (trace (snd r))
    = Some (clock (snd r),
            Print (completed_message scenario_type (Some N) total)) /\
  ((forall t, is_Some (config_at t !! "sample_api")) ->
   Z.of_nat (length (http_calls (drop (length (trace w)) (trace (snd r)))))
     = total).
Proof.
  intros HN Hfuel Hev Hread. cbv zeta.
  destruct (while_loop_run fuel scenario_type (Some N) ev 0 w)
    as (st & rc & d & c & Hrun & Hrel).
  rewrite Hrun. simpl. rewrite drop_app_length.
  assert (Hst : st = Stopped)
    by (eapply loop_run_stops; [exact Hrel|done|done|lia]).
  subst st.
  assert (Hstep : 0 < step_of scenario_type)
    by (destruct (step_of_cases scenario_type) as [[_ ->]|[_ ->]]; lia).
  destruct (loop_run_budget _ _ _ _ _ _ _ _ _ _ Hrel HN) as ((H1 & H2) & H3 & _);
    [lia|apply Z.divide_0_r|].
  destruct (loop_run_budget_exact _ _ _ _ _ _ _ _ _ Hrel)
    as (H5 & (d0 & ->) & H6 & H7).
  { intros [s Hs]. congruence. }
  assert (Hrc : rc = step_of scenario_type
                     * ((N + step_of scenario_type - 1) / step_of scenario_type)).
  { destruct H3 as [k ->].
    destruct (step_of_cases scenario_type) as [[_ Hs]|[_ Hs]];
      rewrite Hs in *.
    - rewrite <- (Z.div_unique_pos (N + 5 - 1) 5 k (N + 5 - 1 - 5 * k)); lia.
    - rewrite <- (Z.div_unique_pos (N + 1 - 1) 1 k (N + 1 - 1 - 1 * k)); lia. }
  rewrite <- Hrc. split; [done|]. split.
  { specialize (H6 Hread). rewrite Z.sub_0_r in H6.
    apply Z.div_unique_exact; lia. }
  split.
  { rewrite app_assoc. by rewrite last_snoc. }
  intros Hcfg. specialize (H7 Hcfg). lia.
Qed.

(** X4: when config.json names no sample API, the runner makes no call
    at all; as long as the file can be read it counts all the same, so
    that a runner with a budget stops on its budget without having sent a
    single request. *)
Theorem no_sample_api_no_calls fuel scenario_type max_requests ev request_count w :
  (forall t, config_at t !! "sample_api" = None) ->
  http_calls
    (drop (length (trace w))
       (trace (snd (while_loop fuel scenario_type max_requests ev
                      request_count w)))) = [] /\
  forall N, 1 <= N -> N < Z.of_nat fuel -> events w !! ev = Some None ->
    (forall t, clock w <= t -> readable t = true) ->
    exists rc,
      fst (while_loop fuel scenario_type (Some N) ev 0 w) = Ok (Stopped, rc) /\
      N <= rc.
Proof.
  intros Hcfg. split.
  - destruct (while_loop_obs fuel scenario_type max_requests ev request_count w)
      as (st & rc & d & c & Hrun & _ & _ & Hd).
    rewrite Hd. pose proof (loop_run_calls_config _ _ _ _ _ _ _ _ _ _ Hrun) as Hall.
    destruct (http_calls d) as [|e l]; [done|].
    inversion Hall as [|? ? (base & Hb & _) _]; subst.
    rewrite Hcfg in Hb. done.
  - intros N HN Hfuel Hev Hread.
    destruct (while_loop_run fuel scenario_type (Some N) ev 0 w)
      as (st & rc & d & c & Hrun & Hrel).
    rewrite Hrun. simpl.
    assert (Hst : st = Stopped)
      by (eapply loop_run_stops; [exact Hrel|done|done|lia]).
    subst st. exists rc. split; [done|].
    eapply loop_run_budget_exact; [exact Hrel|].
    intros [s Hs]. congruence.
Qed.

(** ** A config.json that cannot be read *)

(** While config.json cannot be read, every iteration of a run records
    the failure and sleeps, and nothing else. *)
Lemma loop_run_unreadable key max ev fuel rc w st rc' d c :
  loop_run key max ev fuel rc w st rc' d c ->
  (forall t, clock w <= t -> readable t = false) ->
  (~ exists s, events w !! ev = Some (Some s)) ->
  budget_reached max rc = false ->
  st = Running /\ rc' = rc /\
  http_calls d = [] /\ filter is_thread_start d = [] /\
  c = clock w + 2000 * Z.of_nat fuel.
Proof.
  induction 1 as [rc w|fuel rc w Hs|fuel rc w Hs Hb
                 |fuel rc w d c st rc' d' c' Hs Hb Hcy Hc Hcalls Hbusy Hrest IH];
    intros Hread Hev Hbud.
  - repeat split; try done. simpl. lia.
  - exfalso. unfold signalled in Hs.
    destruct (events w !! ev) as [[s|]|] eqn:He; try done.
    apply Hev. by exists s.
  - congruence.
  - assert (Hr : readable (clock w) = false) by (apply Hread; lia).
    destruct (load_config_raise w Hr) as (e & He & _).
    pose proof (cycle_unreadable key rc w e He) as Hcy'.
    unfold gain in *. rewrite Hr in *. rewrite Z.add_0_r in *.
    destruct (after_inj w d c
                [(clock w,
                  Print ("Request failed (" +:+ key +:+ "): " +:+ exn_str e))]
                (clock w)) as [-> ->]; [congruence|].
    destruct IH as (-> & -> & IH3 & IH4 & ->);
      [simpl; intros t Ht; apply Hread; lia|done|done|].
    split; [done|]. split; [done|].
    rewrite http_calls_app, filter_app. simpl. rewrite IH3.
    split; [done|].
    split; [done|]. lia.
Qed.

(** X21: while config.json cannot be read, a runner that nobody stops
    goes on for ever without sending anything: every cycle catches the
    exception of the read, makes no call, starts no worker, leaves the
    count as it is and sleeps its 2 seconds; so a recovery runner never
    reaches its budget and never stops by itself. *)
Theorem unreadable_config_runner fuel scenario_type max_requests ev
    request_count w :
  (forall t, clock w <= t -> readable t = false) ->
  events w !! ev = Some None ->
  budget_reached max_requests request_count = false ->
  let r := while_loop fuel scenario_type max_requests ev request_count w in
  fst r = Ok (Running, request_count) /\
  http_calls (drop (length (trace w)) (trace (snd r))) = [] /\
  filter is_thread_start (drop (length (trace w)) (trace (snd r))) = [] /\
  clock w + 2000 * Z.of_nat fuel <= clock (snd r).
Proof.
  intros Hread Hev Hbud. cbv zeta.
  destruct (while_loop_obs fuel scenario_type max_requests ev request_count w)
    as (st & rc & d & c & Hrun & Hfst & Hclock & Hd).
  rewrite Hfst, Hclock, Hd.
  destruct (loop_run_unreadable _ _ _ _ _ _ _ _ _ _ Hrun Hread)
    as (-> & -> & H3 & H4 & ->); [by intros [s Hs]; congruence|done|].
  repeat split; try done; lia.
Qed.

(** ** The registry stays consistent *)

Lemma settles_refl w : settles w w.
Proof. repeat split; try done; try lia. intros ev. by left. Qed.

Lemma settles_trans w1 w2 w3 : settles w1 w2 -> settles w2 w3 -> settles w1 w3.
Proof.
  intros (A1 & A2 & A3 & A4 & A5 & A6) (B1 & B2 & B3 & B4 & B5 & B6).
  repeat split; try congruence; try lia.
  intros ev. destruct (A6 ev) as [Ha|(Ha & s & Hs & Hc)];
    destruct (B6 ev) as [Hb|(Hb & s' & Hs' & Hc')].
  - left. congruence.
  - right. split; [congruence|]. exists s'. split; [done|lia].
  - right. split; [done|]. exists s. split; [congruence|lia].
  - congruence.
Qed.

Lemma settles_after w d c : clock w <= c -> settles w (after w d c).
Proof. intros H. repeat split; try done. intros ev. by left. Qed.

Lemma settles_stop scenario_type w :
  settles w (with_events (events_after_stop scenario_type w) w).
Proof.
  repeat split; try done; try (simpl; lia).
  intros ev. simpl. unfold events_after_stop.
  destruct (stop_events w !! scenario_type) as [ev0|]; [|by left].
  destruct (events w !! ev0) as [[s|]|] eqn:He; try by left.
  destruct (decide (ev0 = ev)) as [->|Hne].
  - right. split; [done|]. exists (clock w).
    rewrite list_lookup_insert_eq by (by eapply lookup_lt_Some).
    split; [done|lia].
  - left. by rewrite list_lookup_insert_ne.
Qed.

Lemma registry_ok_settles w w' : registry_ok w -> settles w w' -> registry_ok w'.
Proof.
  intros [O1 O2 O3 O4 O5 O6] (A1 & A2 & A3 & A4 & A5 & A6).
  constructor; rewrite ?A1, ?A2, ?A3, ?A4; try done.
  - intros k ev Hk. destruct (A6 ev) as [->|(_ & s & -> & _)]; eauto.
  - intros k th Hk. destruct (O3 k th Hk) as (max & start & ev & H1 & H2 & H3).
    exists max, start, ev. repeat split; try done. lia.
  - intros ev s Hs. destruct (A6 ev) as [He|(_ & s' & He & Hc)].
    + rewrite He in Hs. specialize (O6 ev s Hs). lia.
    + rewrite He in Hs. injection Hs as <-. lia.
Qed.

Lemma registry_ok_start scenario_type max_requests is_recovery w :
  registry_ok w ->
  registry_ok (snd (start_requests scenario_type max_requests is_recovery w)).
Proof.
  intros Hok.
  pose proof (registry_ok_settles _ _ Hok (settles_stop scenario_type w))
    as [O1 O2 O3 O4 O5 O6]. simpl in *.
  destruct (settles_stop scenario_type w) as (_ & _ & _ & _ & _ & Hset).
  simpl in Hset.
  destruct (start_requests_spec scenario_type max_requests is_recovery w)
    as (c & Hrun & Hc & _).
  rewrite Hrun. simpl.
  assert (Hlen : length (events_after_stop scenario_type w) = length (events w))
    by apply events_after_stop_length.
  constructor; simpl.
  - intros k ev. destruct (decide (scenario_type = k)) as [->|Hne].
    + rewrite lookup_insert_eq. intros [= <-].
      rewrite lookup_app_r, Hlen, Nat.sub_diag by lia. by eexists.
    + rewrite lookup_insert_ne by done. intros Hk.
      destruct (O1 k ev Hk) as [x Hx]. rewrite lookup_app_l.
      * by eexists.
      * by eapply lookup_lt_Some.
  - intros k k' ev.
    assert (Hfresh : forall k0, stop_events w !! k0 <> Some (length (events w))).
    { intros k0 Hk0. destruct (O1 k0 _ Hk0) as [x Hx].
      apply lookup_lt_Some in Hx. lia. }
    destruct (decide (scenario_type = k)) as [->|Hne];
      destruct (decide (k = k')) as [->|Hne']; try done.
    + rewrite lookup_insert_eq, lookup_insert_ne by done.
      intros [= <-] Hk. by apply Hfresh in Hk.
    + destruct (decide (scenario_type = k')) as [->|Hne''].
      * rewrite lookup_insert_eq, lookup_insert_ne by done.
        intros Hk [= <-]. by apply Hfresh in Hk.
      * rewrite !lookup_insert_ne by done. intros H1 H2.
        destruct Hne'. by eapply O2.
  - intros k th. destruct (decide (scenario_type = k)) as [->|Hne].
    + rewrite !lookup_insert_eq. intros [= <-].
      exists max_requests, c, (length (events w)).
      rewrite lookup_app_r, Nat.sub_diag by lia. repeat split; try done; lia.
    + rewrite !lookup_insert_ne by done. intros Hk.
      destruct (O3 k th Hk) as (max & start & ev & H1 & H2 & H3).
      exists max, start, ev. rewrite lookup_app_l by (by eapply lookup_lt_Some).
      repeat split; try done; lia.
  - intros k. destruct (decide (scenario_type = k)) as [->|Hne].
    + rewrite !lookup_insert_eq. split; by eexists.
    + rewrite !lookup_insert_ne by done. apply O4.
  - intros k. destruct (decide (scenario_type = k)) as [->|Hne].
    + rewrite !lookup_insert_eq. split; by eexists.
    + rewrite !lookup_insert_ne by done. apply O5.
  - intros ev s Hs.
    destruct (decide (ev < length (events w))%nat) as [Hlt|Hge].
    + rewrite lookup_app_l in Hs by lia. specialize (O6 ev s Hs). lia.
    + rewrite lookup_app_r in Hs by lia.
      destruct (ev - length (events_after_stop scenario_type w))%nat; done.
Qed.

Lemma registry_ok_initial t0 : registry_ok (initial_world t0).
Proof.
  constructor; simpl; intros *; rewrite ?lookup_empty;
    try done; split; by intros [? ?].
Qed.

(** X5: the three dicts and the two heaps stay consistent.  In the state
    after import, and after any sequence of [start_requests] and
    [stop_requests] calls and of time passing: every
    registered key has an Event, a started runner thread and a mode flag;
    the runner registered for a key polls the Event registered for that
    key, so that [stop_requests] reaches it; and no two keys share an
    Event. *)
Theorem registry_stays_consistent :
  (forall t0, registry_ok (initial_world t0)) /\
  (forall w, registry_ok w ->
     (forall scenario_type max_requests is_recovery,
        registry_ok
          (snd (start_requests scenario_type max_requests is_recovery w))) /\
     (forall scenario_type, registry_ok (snd (stop_requests scenario_type w))) /\
     (forall t, clock w <= t -> registry_ok (with_clock t w))).
Proof.
  split; [apply registry_ok_initial|].
  - intros w Hok. split; [|split].
    + intros. by apply registry_ok_start.
    + intros k. rewrite stop_requests_spec. simpl.
      eapply registry_ok_settles; [exact Hok|apply settles_stop].
    + intros t Ht. eapply registry_ok_settles; [exact Hok|].
      rewrite after_clock_only. by apply settles_after.
Qed.

(** X6: scenarios do not interfere.  Starting or stopping one key leaves
    the entries of every other key, the Event registered for it and the
    Thread registered for it as they were. *)
Theorem other_keys_untouched scenario_type other max_requests is_recovery w :
  registry_ok w ->
  other <> scenario_type ->
  let w1 := snd (start_requests scenario_type max_requests is_recovery w) in
  let w2 := snd (stop_requests scenario_type w) in
  (request_threads w1 !! other = request_threads w !! other /\
   stop_events w1 !! other = stop_events w !! other /\
   recovery_mode w1 !! other = recovery_mode w !! other /\
   request_threads w2 !! other = request_threads w !! other /\
   stop_events w2 !! other = stop_events w !! other /\
   recovery_mode w2 !! other = recovery_mode w !! other) /\
  (forall ev, stop_events w !! other = Some ev ->
     events w1 !! ev = events w !! ev /\ events w2 !! ev = events w !! ev) /\
  (forall th, request_threads w !! other = Some th ->
     threads w1 !! th = threads w !! th /\ threads w2 !! th = threads w !! th).
Proof.
  intros [O1 O2 O3 O4 O5 O6] Hne. cbv zeta.
  destruct (start_requests_spec scenario_type max_requests is_recovery w)
    as (c & Hrun & Hc & _).
  rewrite Hrun, stop_requests_spec. simpl.
  rewrite !lookup_insert_ne by done.
  assert (Hev : forall ev, stop_events w !! other = Some ev ->
            events_after_stop scenario_type w !! ev = events w !! ev).
  { intros ev Hk. unfold events_after_stop.
    destruct (stop_events w !! scenario_type) as [ev0|] eqn:Hk0; [|done].
    destruct (events w !! ev0) as [[s|]|]; try done.
    apply list_lookup_insert_ne. intros ->. apply Hne. by eapply O2. }
  split; [done|]. split.
  - intros ev Hk. split; [|by apply Hev].
    destruct (O1 other ev Hk) as [x Hx].
    rewrite lookup_app_l; [by apply Hev|].
    rewrite events_after_stop_length. by eapply lookup_lt_Some.
  - intros th Hk. split; [|done].
    destruct (O3 other th Hk) as (max & start & ev & H1 & _).
    rewrite lookup_app_l; [done|by eapply lookup_lt_Some].
Qed.

(** X7: how fast a stop takes effect.  When no cycle of the key keeps
    its runner for longer than [D] ms, from the loop check to the sleep,
    the runner registered for the key is no longer alive [D + 2000] ms
    after [stop_requests]: it finishes the cycle in progress and the
    sleep that follows, and the next loop check ends it. *)
Theorem stop_requests_latency D scenario_type th w :
  (forall rc w0, clock (snd (cycle scenario_type rc w0)) <= clock w0 + D) ->
  registry_ok w ->
  request_threads w !! scenario_type = Some th ->
  let w' := snd (stop_requests scenario_type w) in
  exists max start ev,
    threads w' !! th = Some (Thread scenario_type max (Some (start, Some ev))) /\
    (forall t, clock w + D + 2000 <= t -> alive th (with_clock t w') = false).
Proof.
  intros Hcycle Hok Hth. cbv zeta. rewrite stop_requests_spec. simpl.
  assert (HD : 0 <= D).
  { specialize (Hcycle 0 w).
    destruct (cycle_spec scenario_type 0 w) as (d0 & c0 & Hrun0 & Hc0 & _).
    rewrite Hrun0 in Hcycle. simpl in Hcycle. lia. }
  destruct (ok_thread _ Hok _ _ Hth) as (max & start & ev & Ht & Hse & Hstart).
  destruct (ok_event _ Hok _ _ Hse) as [x Hx].
  exists max, start, ev. split; [done|].
  assert (Hset : exists s, events_after_stop scenario_type w !! ev = Some (Some s)
                           /\ s <= clock w).
  { unfold events_after_stop. rewrite Hse, Hx. destruct x as [s|].
    - exists s. split; [done|]. by eapply (ok_past _ Hok).
    - exists (clock w).
      rewrite list_lookup_insert_eq by (by eapply lookup_lt_Some).
      split; [done|lia]. }
  destruct Hset as (s & Hs & Hle).
  intros t Hlt. unfold alive, thread_is_alive. simpl. rewrite Ht.
  unfold thread_run. simpl.
  destruct (while_loop_run (cycles_until start t) scenario_type max ev 0
              (with_trace [] (with_clock start
                 (with_clock t
                    (with_events (events_after_stop scenario_type w) w)))))
    as (st & rc & d & c & Hrun & Hrel).
  rewrite Hrun. simpl.
  pose proof (fun H => loop_run_latency D _ _ _ s _ _ _ _ _ _ _ Hcycle H Hrel)
    as Hc.
  specialize (Hc Hs). simpl in Hc. destruct st.
  - apply loop_run_running in Hrel. simpl in Hrel.
    exfalso.
    assert (t < c); [|lia].
    unfold cycles_until in Hrel.
    assert (0 <= (t - start) / 2000) by (apply Z.div_pos; lia).
    rewrite Z2Nat.id in Hrel by lia.
    pose proof (Z.mod_pos_bound (t - start) 2000 ltac:(lia)).
    pose proof (Z.div_mod (t - start) 2000 ltac:(lia)). lia.
  - apply Z.ltb_ge. lia.
Qed.

(** ** recover_all, in full *)

Lemma request_run c w :
  request c w
  = (match reply_result (network (length (http_calls (trace w))) c) with
     | inl e => Raise e
     | inr resp => Ok resp
     end,
     after w [(clock w, Http c)]
       (clock w
        + Z.of_N (reply_after (network (length (http_calls (trace w))) c)))).
Proof. unfold request. by destruct (reply_result _). Qed.

Lemma recover_each_step_url url scenario_type rest config
    (results : gmap string string) w :
  config !! "error_injection_api" = Some url ->
  let r := network (length (http_calls (trace w)))
             (recover_call url scenario_type) in
  recover_each (scenario_type :: rest) config results w
  = recover_each rest config (<[scenario_type := outcome_of r]> results)
      (after (with_events (events_after_stop scenario_type w) w)
         [(clock w, Http (recover_call url scenario_type))]
         (clock w + Z.of_N (reply_after r))).
Proof.
  intros Hc r. simpl.
  unfold mbind at 1, M_bind at 1, bind at 1. unfold try_except.
  rewrite (bind_run _ _ _ _ _ (stop_requests_spec scenario_type w)).
  unfold subscript. rewrite Hc.
  rewrite (bind_run (ret url) _ _ url _ eq_refl).
  unfold requests_post. unfold mbind at 1, M_bind at 1, bind at 1.
  rewrite request_run. simpl trace. simpl clock. fold (recover_call url scenario_type).
  fold r. unfold outcome_of.
  destruct (reply_result r) as [e|resp]; [done|].
  unfold ret. by destruct (status_code resp =? 200).
Qed.

Lemma recover_each_step_none scenario_type rest config
    (results : gmap string string) w :
  config !! "error_injection_api" = None ->
  recover_each (scenario_type :: rest) config results w
  = recover_each rest config
      (<[scenario_type := "error: 'error_injection_api'"]> results)
      (with_events (events_after_stop scenario_type w) w).
Proof.
  intros Hc. simpl.
  unfold mbind at 1, M_bind at 1, bind at 1. unfold try_except.
  rewrite (bind_run _ _ _ _ _ (stop_requests_spec scenario_type w)).
  unfold subscript. by rewrite Hc.
Qed.

Lemma settles_set w w' ev s :
  settles w w' -> events w !! ev = Some (Some s) ->
  events w' !! ev = Some (Some s).
Proof.
  intros (_ & _ & _ & _ & _ & H) Hs.
  destruct (H ev) as [->|(Hn & _)]; congruence.
Qed.

Lemma settles_is_Some w w' ev :
  settles w w' -> is_Some (events w !! ev) -> is_Some (events w' !! ev).
Proof.
  intros (_ & _ & _ & _ & _ & H) Hs.
  destruct (H ev) as [->|(_ & s & -> & _)]; eauto.
Qed.

Lemma events_after_stop_set scenario_type ev w :
  stop_events w !! scenario_type = Some ev ->
  is_Some (events w !! ev) ->
  exists s, events_after_stop scenario_type w !! ev = Some (Some s).
Proof.
  intros Hk [x Hx]. unfold events_after_stop. rewrite Hk, Hx.
  destruct x as [s|]; [by exists s|].
  exists (clock w). apply list_lookup_insert_eq. by eapply lookup_lt_Some.
Qed.

Lemma events_after_stop_other scenario_type ev w :
  stop_events w !! scenario_type <> Some ev ->
  events_after_stop scenario_type w !! ev = events w !! ev.
Proof.
  intros Hk. unfold events_after_stop.
  destruct (stop_events w !! scenario_type) as [ev0|]; [|done].
  destruct (events w !! ev0) as [[s|]|]; try done.
  apply list_lookup_insert_ne. congruence.
Qed.

(** What the loop of [recover_all] does to the world, whatever the
    config holds. *)
Lemma recover_each_effect keys config (results : gmap string string) w :
  exists results' w',
    recover_each keys config results w = (Ok results', w') /\
    settles w w' /\
    (forall k ev, In k keys -> stop_events w !! k = Some ev ->
       is_Some (events w !! ev) ->
       exists s, events w' !! ev = Some (Some s)) /\
    (forall ev, (forall k, In k keys -> stop_events w !! k <> Some ev) ->
       events w' !! ev = events w !! ev).
Proof.
  revert results w. induction keys as [|key keys IH]; intros results w.
  - exists results, w. split; [done|]. split; [apply settles_refl|].
    split; [by intros ? ? []|done].
  - assert (Hstep : exists results1 w1,
              recover_each (key :: keys) config results w
                = recover_each keys config results1 w1 /\
              settles (with_events (events_after_stop key w) w) w1 /\
              events w1 = events_after_stop key w).
    { destruct (config !! "error_injection_api") as [url|] eqn:Hc.
      - eexists _, _. split; [by apply recover_each_step_url|].
        split; [|done]. apply settles_after. simpl. lia.
      - eexists _, _. split; [by apply recover_each_step_none|].
        split; [apply settles_refl|done]. }
    destruct Hstep as (results1 & w1 & -> & Hs1 & He1).
    pose proof (settles_trans _ _ _ (settles_stop key w) Hs1) as Hs.
    destruct (IH results1 w1) as (results' & w' & Hrun & Hs2 & Hset & Hother).
    exists results', w'. split; [done|].
    split; [by eapply settles_trans|]. split.
    + intros k ev [<-|Hin] Hk Hsome.
      * destruct (events_after_stop_set _ _ _ Hk Hsome) as [s Hset1].
        exists s. eapply settles_set; [exact Hs2|]. by rewrite He1.
      * apply (Hset k ev Hin).
        -- destruct Hs as (_ & -> & _). done.
        -- eapply settles_is_Some; [exact Hs|done].
    + intros ev Hno. rewrite Hother.
      * rewrite He1. apply events_after_stop_other. apply Hno. by left.
      * intros k Hin. destruct Hs as (_ & -> & _). apply Hno. by right.
Qed.

(** X8: when config.json is absent or can be read, [recover_all] stops
    the runner of every scenario of the table and starts none: whatever
    the recovery API answers, the Event registered for each key of the
    table is set afterwards, the Events of other keys and the three dicts
    are as before, no Thread is created, and the registry stays
    consistent. *)
Theorem recover_all_stops_every_runner w :
  readable (clock w) = true ->
  let w' := snd (recover_all w) in
  (request_threads w' = request_threads w /\
   stop_events w' = stop_events w /\
   recovery_mode w' = recovery_mode w /\
   threads w' = threads w) /\
  (forall k ev, In k (map fst scenarios) -> stop_events w !! k = Some ev ->
     is_Some (events w !! ev) ->
     exists s, events w' !! ev = Some (Some s)) /\
  (forall ev,
     (forall k, In k (map fst scenarios) -> stop_events w !! k <> Some ev) ->
     events w' !! ev = events w !! ev) /\
  (registry_ok w -> registry_ok w').
Proof.
  intros Hread. cbv zeta. unfold recover_all.
  pose proof (load_config_run w Hread) as Hload.
  rewrite (bind_run _ _ _ _ _ Hload).
  destruct (recover_each_effect (map fst scenarios) (config_at (clock w)) ∅ w)
    as (results & w' & Hrun & Hs & Hset & Hother).
  rewrite (bind_run _ _ _ _ _ Hrun). simpl.
  split; [by destruct Hs as (? & ? & ? & ? & _)|].
  split; [done|]. split; [done|].
  intros Hok. by eapply registry_ok_settles.
Qed.

Lemma recover_each_calls url keys config (results : gmap string string) w :
  config !! "error_injection_api" = Some url ->
  exists w',
    recover_each keys config results w
      = (Ok (recover_outcomes url (length (http_calls (trace w))) keys results),
         w') /\
    exists d, trace w' = trace w ++ d /\
              map snd (http_calls d) = map (recover_call url) keys.
Proof.
  intros Hc. revert results w.
  induction keys as [|key keys IH]; intros results w.
  - exists w. split; [done|]. exists []. by rewrite app_nil_r.
  - rewrite (recover_each_step_url _ _ _ _ _ _ Hc). cbv zeta.
    set (r := network _ _).
    destruct (IH (<[key := outcome_of r]> results)
                 (after (with_events (events_after_stop key w) w)
                    [(clock w, Http (recover_call url key))]
                    (clock w + Z.of_N (reply_after r))))
      as (w' & Hrun & d & Ht & Hd).
    exists w'. split.
    + rewrite Hrun. simpl. rewrite http_calls_app, length_app. simpl.
      by rewrite Nat.add_1_r.
    + exists ((clock w, Http (recover_call url key)) :: d). split.
      * rewrite Ht. simpl. by rewrite <- app_assoc.
      * simpl. by rewrite Hd.
Qed.

Lemma recover_each_no_url keys config (results : gmap string string) w :
  config !! "error_injection_api" = None ->
  exists (results' : gmap string string) w',
    recover_each keys config results w = (Ok results', w') /\
    trace w' = trace w /\
    (forall k, In k keys ->
       results' !! k = Some "error: 'error_injection_api'") /\
    (forall k, ~ In k keys -> results' !! k = results !! k).
Proof.
  intros Hc. revert results w.
  induction keys as [|key keys IH]; intros results w.
  - exists results, w. by repeat split.
  - rewrite (recover_each_step_none _ _ _ _ _ Hc).
    destruct (IH (<[key := "error: 'error_injection_api'"]> results)
                 (with_events (events_after_stop key w) w))
      as (results' & w' & Hrun & Ht & Hin & Hout).
    exists results', w'. split; [done|]. split; [done|]. split.
    + intros k [<-|Hk].
      * destruct (in_dec String.string_dec key keys) as [Hi|Hn]; [by apply Hin|].
        rewrite (Hout _ Hn). apply lookup_insert_eq.
      * by apply Hin.
    + intros k Hk. rewrite Hout by (intros ?; apply Hk; by right).
      apply lookup_insert_ne. intros <-. apply Hk. by left.
Qed.

Lemma recover_outcomes_other url n keys (results : gmap string string) k :
  ~ In k keys -> recover_outcomes url n keys results !! k = results !! k.
Proof.
  revert n results. induction keys as [|key keys IH]; intros n results Hk;
    simpl; [done|].
  rewrite IH by (intros ?; apply Hk; by right).
  apply lookup_insert_ne. intros <-. apply Hk. by left.
Qed.

Lemma recover_outcomes_lookup url n keys (results : gmap string string) i k :
  NoDup keys -> keys !! i = Some k ->
  recover_outcomes url n keys results !! k
    = Some (outcome_of (network (n + i) (recover_call url k))).
Proof.
  intros Hnd. revert n results i.
  induction Hnd as [|key keys Hnotin Hnd IH]; intros n results i Hi; [done|].
  destruct i as [|i]; simpl in *.
  - injection Hi as <-. rewrite recover_outcomes_other.
    + rewrite Nat.add_0_r. apply lookup_insert_eq.
    + by rewrite <- list_elem_of_In.
  - rewrite (IH (S n) _ i Hi). by rewrite Nat.add_succ_r.
Qed.

(** X9: the calls and the outcomes of [recover_all].  When the config
    names a recovery API, [recover_all] makes exactly one call per key of
    the table, in the order of the table: a POST to that address with
    action recover, the key as error_type and a timeout of 10; the
    outcome recorded for a key is decided by the reply to the call made
    for that key (status 200: recovered, another status: failed, an
    exception: its message).  When the config names none, it makes no
    call and, the file having been read, records the KeyError for every
    key. *)
Theorem recover_all_calls_and_outcomes w :
  let keys := map fst scenarios in
  let w' := snd (recover_all w) in
  (forall url,
     config_at (clock w) !! "error_injection_api" = Some url ->
     map snd (http_calls (drop (length (trace w)) (trace w')))
       = map (recover_call url) keys /\
     (NoDup keys ->
      forall i k, keys !! i = Some k ->
        exists results,
          fst (recover_all w) = Ok ("All scenarios recovered", results) /\
          results !! k
            = Some (outcome_of
                      (network (length (http_calls (trace w)) + i)
                         (recover_call url k))))) /\
  (config_at (clock w) !! "error_injection_api" = None ->
   trace w' = trace w /\
   (readable (clock w) = true ->
    exists results,
      fst (recover_all w) = Ok ("All scenarios recovered", results) /\
      forall k, In k keys ->
        results !! k = Some "error: 'error_injection_api'")).
Proof.
  cbv zeta.
  destruct (readable (clock w)) eqn:Hread.
  2:{ destruct (load_config_raise w Hread) as (e & He & _).
      rewrite (recover_all_unreadable _ _ He). simpl. split; [|done].
      intros url Hc. apply config_at_readable in Hc. congruence. }
  unfold recover_all.
  pose proof (load_config_run w Hread) as Hload.
  rewrite (bind_run _ _ _ _ _ Hload). split.
  - intros url Hc.
    destruct (recover_each_calls url (map fst scenarios) _ ∅ w Hc)
      as (w' & Hrun & d & Ht & Hd).
    rewrite (bind_run _ _ _ _ _ Hrun). simpl. rewrite Ht, drop_app_length.
    split; [done|]. intros Hnd i k Hi. eexists. split; [reflexivity|].
    by apply recover_outcomes_lookup.
  - intros Hc.
    destruct (recover_each_no_url (map fst scenarios) _ ∅ w Hc)
      as (results & w' & Hrun & Ht & Hin & _).
    rewrite (bind_run _ _ _ _ _ Hrun). simpl. split; [done|].
    intros _. by exists results.
Qed.

(** ** The routes *)

(** X10: [check_connection] with an address missing or empty in the
    request makes no call and changes nothing; it answers that the
    addresses are not configured. *)
Theorem check_connection_unconfigured data w :
  default "" (data !! "error_injection_api") = "" \/
  default "" (data !! "sample_api") = "" ->
  check_connection data w
  = (Ok (Answer (JObj [("connected", JBool false);
                       ("error", JStr "API 地址未配置")]) 200), w).
Proof.
  intros H. unfold check_connection, is_empty.
  destruct H as [-> | ->]; simpl; [done|].
  by rewrite orb_true_r.
Qed.

(** X11: [check_connection] with both addresses given never raises and
    always makes the same two calls with a timeout of 5, the second one
    whatever the first did: a POST of action status to the injection API,
    then a GET of the items of the sample API.  It answers connected
    exactly when the first call returned status 200 and the second call
    returned at all, with any status, a server error included. *)
Theorem check_connection_verdict data w :
  default "" (data !! "error_injection_api") <> "" ->
  default "" (data !! "sample_api") <> "" ->
  let probe := HttpCall POST (default "" (data !! "error_injection_api"))
                 (Some [("action", "status")]) 5 in
  let items := HttpCall GET (default "" (data !! "sample_api") +:+ "/items")
                 None 5 in
  let n := length (http_calls (trace w)) in
  let r1 := network n probe in
  let r2 := network (S n) items in
  exists body,
    check_connection data w
    = (Ok (Answer body 200),
       after w [(clock w, Http probe);
                (clock w + Z.of_N (reply_after r1), Http items)]
         (clock w + Z.of_N (reply_after r1) + Z.of_N (reply_after r2))) /\
    (body = JObj [("connected", JBool true)] <->
     (exists resp1 resp2,
        reply_result r1 = inr resp1 /\ status_code resp1 = 200 /\
        reply_result r2 = inr resp2)) /\
    (body <> JObj [("connected", JBool true)] ->
     exists msg, body = JObj [("connected", JBool false); ("error", JStr msg)]).
Proof.
  intros H1 H2. cbv zeta. unfold check_connection, is_empty.
  apply String.eqb_neq in H1, H2. rewrite H1, H2.
  change (false || false) with false. cbv iota zeta.
  set (probe := HttpCall POST _ _ 5). set (items := HttpCall GET _ None 5).
  set (r1 := network _ probe).
  (* the first probe *)
  assert (Hp1 : exists errors1,
    try_except
      (response ← requests_post (default "" (data !! "error_injection_api"))
                   [("action", "status")] 5;
       if negb (status_code response =? 200) then
         ret ([] ++ ["Error Injection API 返回 " +:+ pretty (status_code response)])
       else ret [])
      (fun e =>
         if is_instance e "requests.exceptions.Timeout" then
           ret ([] ++ ["Error Injection API 连接超时"])
         else if is_instance e "requests.exceptions.ConnectionError" then
           ret ([] ++ ["Error Injection API 无法连接"])
         else ret ([] ++ ["Error Injection API: " +:+ exn_str e])) w
    = (Ok errors1,
       after w [(clock w, Http probe)] (clock w + Z.of_N (reply_after r1))) /\
    (errors1 = [] <->
     exists resp1, reply_result r1 = inr resp1 /\ status_code resp1 = 200) /\
    (errors1 = [] \/ exists m, errors1 = [m])).
  { unfold try_except, requests_post.
    unfold mbind at 1, M_bind at 1, bind at 1. rewrite request_run.
    fold probe. fold r1. destruct (reply_result r1) as [e|resp].
    - destruct (is_instance e "requests.exceptions.Timeout");
        [|destruct (is_instance e "requests.exceptions.ConnectionError")];
        (eexists; split; [reflexivity|]; split;
         [split; [done|by intros (? & ? & _)]|right; by eexists]).
    - destruct (status_code resp =? 200) eqn:Hs; simpl.
      + exists []. split; [done|]. split; [|by left].
        split; [|done]. intros _. exists resp. split; [done|lia].
      + eexists. split; [reflexivity|]. split; [|right; by eexists].
        split; [done|]. intros (resp' & [= <-] & ?). lia. }
  destruct Hp1 as (errors1 & Hp1 & Hiff1 & Hshape1).
  rewrite (bind_run _ _ _ _ _ Hp1).
  set (w1 := after w _ _).
  assert (Hn1 : length (http_calls (trace w1))
                = S (length (http_calls (trace w)))).
  { subst w1. simpl. rewrite http_calls_app, length_app. simpl. lia. }
  set (r2 := network (S (length (http_calls (trace w)))) items).
  assert (Hp2 : exists errors2,
    try_except
      (requests_get (default "" (data !! "sample_api") +:+ "/items") 5;;
       ret errors1)
      (fun e =>
         if is_instance e "requests.exceptions.Timeout" then
           ret (errors1 ++ ["Sample API 连接超时"])
         else if is_instance e "requests.exceptions.ConnectionError" then
           ret (errors1 ++ ["Sample API 无法连接"])
         else ret (errors1 ++ ["Sample API: " +:+ exn_str e])) w1
    = (Ok errors2,
       after w1 [(clock w1, Http items)] (clock w1 + Z.of_N (reply_after r2))) /\
    (errors2 = [] <->
     errors1 = [] /\ exists resp2, reply_result r2 = inr resp2)).
  { unfold try_except, requests_get.
    unfold mbind at 1, M_bind at 1, bind at 1. rewrite request_run.
    fold items. rewrite Hn1. fold r2. destruct (reply_result r2) as [e|resp].
    - destruct (is_instance e "requests.exceptions.Timeout");
        [|destruct (is_instance e "requests.exceptions.ConnectionError")];
        (eexists; split; [reflexivity|]; split;
         [intros H; by apply app_nil in H as [_ ?]|by intros (_ & ? & ?)]).
    - exists errors1. split; [done|]. split; [|by intros [? _]].
      intros ->. split; [done|by eexists]. }
  destruct Hp2 as (errors2 & Hp2 & Hiff2).
  rewrite (bind_run _ _ _ _ _ Hp2). subst w1. rewrite after_after. simpl clock.
  destruct errors2 as [|m errors2].
  - eexists. split; [reflexivity|]. split; [|done].
    split; [|done]. intros _.
    destruct (proj1 Hiff2 eq_refl) as (He1 & resp2 & Hr2).
    destruct (proj1 Hiff1 He1) as (resp1 & Hr1 & Hs1). by exists resp1, resp2.
  - eexists. split; [reflexivity|]. split; [|intros _; by eexists].
    split; [done|]. intros (resp1 & resp2 & Hr1 & Hs1 & Hr2).
    assert (He1 : errors1 = []) by (apply Hiff1; by exists resp1).
    assert (m :: errors2 = []); [|done].
    apply Hiff2. split; [done|by exists resp2].
Qed.

(** The steps of inject_error and recover_error after [start_requests]
    build the answer and change nothing. *)
Lemma answer_steps resp scenario_type (suffix : string) w :
  exists a,
    try_except
      (result ← response_json resp;
       scenario ← table_subscript scenario_type;
       name ← subscript scenario "name";
       result ← set_item result "message" (JStr (name +:+ suffix));
       ret (Answer result 200))
      (fun e => ret (Answer (JObj [("error", JStr (exn_str e))]) 500)) w
    = (Ok a, w) /\
    (answer_status a = 200 \/ answer_status a = 500) /\
    (answer_status a = 200 <->
     exists fields d name,
       decode_json resp = inr (JObj fields) /\
       table_get scenarios scenario_type = Some d /\
       d !! "name" = Some name /\
       answer_body a
         = JObj (obj_insert fields "message" (JStr (name +:+ suffix)))).
Proof.
  unfold try_except, response_json, table_subscript, subscript.
  unfold mbind, M_bind, bind, ret, raise, set_item.
  destruct (decode_json resp) as [e|j] eqn:Hd.
  { eexists. split; [reflexivity|]. simpl. split; [by right|].
    split; [done|]. by intros (? & ? & ? & ? & _). }
  destruct (table_get scenarios scenario_type) as [d|] eqn:Ht.
  2:{ eexists. split; [reflexivity|]. simpl. split; [by right|].
      split; [done|]. by intros (? & ? & ? & _ & ? & _). }
  destruct (d !! "name") as [name|] eqn:Hn.
  2:{ eexists. split; [reflexivity|]. simpl. split; [by right|].
      split; [done|]. intros (? & ? & ? & _ & [= <-] & ? & _). congruence. }
  destruct j; try (eexists; split; [reflexivity|]; simpl; split; [by right|];
                   split; [done|]; by intros (? & ? & ? & [= ?] & _)).
  eexists. split; [reflexivity|]. simpl. split; [by left|].
  split; [|done]. intros _. exists fields, d, name. by repeat split.
Qed.

(** X12: inject_error and recover_error on a key that the scenario table
    does not hold answer 400 with the key in the message; they make no
    call, stop nothing and start nothing. *)
Theorem unknown_scenario_rejected scenario_type w :
  table_get scenarios scenario_type = None ->
  inject_error scenario_type w
  = (Ok (Answer (JObj [("error",
                        JStr ("Unknown scenario: " +:+ scenario_type))]) 400), w)
  /\
  recover_error scenario_type w
  = (Ok (Answer (JObj [("error",
                        JStr ("Unknown scenario: " +:+ scenario_type))]) 400), w).
Proof. intros H. unfold inject_error, recover_error. by rewrite H. Qed.

Lemma subscript_some (d : gmap string string) k v w :
  d !! k = Some v -> subscript d k w = (Ok v, w).
Proof. intros H. unfold subscript. by rewrite H. Qed.

Lemma subscript_none (d : gmap string string) k w :
  d !! k = None ->
  subscript d k w = (Raise (Exception "KeyError" ("'" +:+ k +:+ "'")), w).
Proof. intros H. unfold subscript. by rewrite H. Qed.

Lemma start_requests_ok scenario_type max_requests is_recovery w :
  start_requests scenario_type max_requests is_recovery w
  = (Ok tt, snd (start_requests scenario_type max_requests is_recovery w)).
Proof.
  destruct (start_requests_spec scenario_type max_requests is_recovery w)
    as (c & -> & _). done.
Qed.

(** X13: inject_error on a known scenario never raises and makes one
    call, a POST of action inject for the key, with a timeout of 15, to
    the injection API of the config.  It starts the runner exactly when
    that call returns status 200: then a runner without budget is
    registered for the key, in injecting mode, even when the body of the
    reply is not a JSON object and the answer is therefore 500; after any
    other reply, and when the config names no injection API, nothing is
    started and the answer is 500. *)
Theorem inject_error_starts_runner_on_200 scenario_type d w :
  table_get scenarios scenario_type = Some d ->
  exists a,
    fst (inject_error scenario_type w) = Ok a /\
    (answer_status a = 200 \/ answer_status a = 500) /\
    (config_at (clock w) !! "error_injection_api" = None ->
     snd (inject_error scenario_type w) = w /\ answer_status a = 500) /\
    forall url,
      config_at (clock w) !! "error_injection_api" = Some url ->
      let call := HttpCall POST url
                    (Some [("action", "inject"); ("error_type", scenario_type)])
                    15 in
      let r := network (length (http_calls (trace w))) call in
      let w1 := after w [(clock w, Http call)]
                  (clock w + Z.of_N (reply_after r)) in
      ((exists resp, reply_result r = inr resp /\ status_code resp = 200) ->
       snd (inject_error scenario_type w)
         = snd (start_requests scenario_type None false w1) /\
       request_threads (snd (inject_error scenario_type w)) !! scenario_type
         = Some (length (threads w)) /\
       threads (snd (inject_error scenario_type w)) !! length (threads w)
         = Some (Thread scenario_type None
                   (Some (clock (snd (inject_error scenario_type w)),
                          Some (length (events w))))) /\
       recovery_mode (snd (inject_error scenario_type w)) !! scenario_type
         = Some false /\
       (answer_status a = 200 <->
        exists resp fields name,
          reply_result r = inr resp /\
          decode_json resp = inr (JObj fields) /\
          d !! "name" = Some name /\
          answer_body a
            = JObj (obj_insert fields "message"
                      (JStr (name +:+ " injected, continuous requests started"))))) /\
      (~ (exists resp, reply_result r = inr resp /\ status_code resp = 200) ->
       snd (inject_error scenario_type w) = w1 /\ answer_status a = 500).
Proof.
  intros Ht. unfold inject_error. rewrite Ht.
  destruct (readable (clock w)) eqn:Hread.
  2:{ destruct (load_config_raise w Hread) as (e & He & Hl).
      rewrite (try_except_bind_raise _ _ _ _ _ _ Hl).
      eexists. split; [reflexivity|]. simpl. split; [by right|].
      split; [done|].
      intros url Hc. apply config_at_readable in Hc. congruence. }
  rewrite (try_except_bind_ok _ _ _ _ _ _ (load_config_run w Hread)).
  destruct (config_at (clock w) !! "error_injection_api") as [url|] eqn:Hc.
  2:{ rewrite (try_except_bind_raise _ _ _ _ _ _ (subscript_none _ _ w Hc)).
      eexists. split; [reflexivity|]. simpl. split; [by right|].
      split; [done|]. by intros ?. }
  rewrite (try_except_bind_ok _ _ _ _ _ _ (subscript_some _ _ _ w Hc)).
  unfold requests_post.
  set (call := HttpCall POST url _ 15).
  set (r := network (length (http_calls (trace w))) call).
  set (w1 := after w [(clock w, Http call)] (clock w + Z.of_N (reply_after r))).
  pose proof (request_run call w) as Hreq. fold r in Hreq. fold w1 in Hreq.
  destruct (reply_result r) as [e|resp] eqn:Hr.
  { rewrite (try_except_bind_raise _ _ _ _ _ _ Hreq).
    eexists. split; [reflexivity|]. simpl. split; [by right|].
    split; [done|]. intros url' [= <-]. cbv zeta. fold call r w1. split.
    - intros (? & ? & _); congruence.
    - done. }
  rewrite (try_except_bind_ok _ _ _ _ _ _ Hreq).
  destruct (status_code resp =? 200) eqn:Hs.
  2:{ eexists. split; [reflexivity|]. simpl. split; [by right|].
      split; [done|]. intros url' [= <-]. cbv zeta. fold call r w1. split.
      - intros (resp' & Hr' & ?). rewrite Hr in Hr'. injection Hr' as <-. lia.
      - done. }
  rewrite (try_except_bind_ok _ _ _ _ _ _
             (start_requests_ok scenario_type None false w1)).
  destruct (answer_steps resp scenario_type
              " injected, continuous requests started"
              (snd (start_requests scenario_type None false w1)))
    as (a & Hrun & Hst & Hiff).
  cbv beta. rewrite Hrun. exists a. split; [done|]. split; [done|].
  split; [done|]. intros url' [= <-]. cbv zeta. fold call r w1. split.
  - intros _. simpl. split; [done|].
    destruct (start_requests_spec scenario_type None false w1)
      as (c & Hsp & _).
    rewrite Hsp. simpl. rewrite !lookup_insert_eq.
    rewrite lookup_app_r, Nat.sub_diag by lia.
    repeat split; try done.
    + intros H200. destruct (proj1 Hiff H200) as (fields & d' & name & H1 & H2 & H3 & H4).
      rewrite Ht in H2. injection H2 as <-. by exists resp, fields, name.
    + intros (resp' & fields & name & Hr' & H1 & H2 & H3).
      rewrite Hr in Hr'. injection Hr' as <-.
      apply Hiff. by exists fields, d, name.
  - intros Hno. destruct Hno. exists resp. split; [done|lia].
Qed.

(** X14: recover_error on a known scenario stops the runner of the key
    first, whatever comes after: the Event registered for the key is set
    in every case.  It then makes one call, a POST of action recover with
    a timeout of 15, and starts the recovery runner exactly when that
    call returns status 200: a runner with a budget of 30 is then
    registered for the key, in recovery mode.  After any other reply
    nothing is started: the scenario is left without traffic. *)
Theorem recover_error_stops_then_restarts_on_200 scenario_type d w :
  table_get scenarios scenario_type = Some d ->
  let w0 := with_events (events_after_stop scenario_type w) w in
  exists a,
    fst (recover_error scenario_type w) = Ok a /\
    (answer_status a = 200 \/ answer_status a = 500) /\
    (forall ev, stop_events w !! scenario_type = Some ev ->
       is_Some (events w !! ev) ->
       exists s, events (snd (recover_error scenario_type w)) !! ev
                 = Some (Some s)) /\
    (config_at (clock w) !! "error_injection_api" = None ->
     snd (recover_error scenario_type w) = w0 /\ answer_status a = 500) /\
    forall url,
      config_at (clock w) !! "error_injection_api" = Some url ->
      let call := HttpCall POST url
                    (Some [("action", "recover"); ("error_type", scenario_type)])
                    15 in
      let r := network (length (http_calls (trace w))) call in
      let w1 := after w0 [(clock w, Http call)]
                  (clock w + Z.of_N (reply_after r)) in
      ((exists resp, reply_result r = inr resp /\ status_code resp = 200) ->
       snd (recover_error scenario_type w)
         = snd (start_requests scenario_type (Some 30) true w1) /\
       request_threads (snd (recover_error scenario_type w)) !! scenario_type
         = Some (length (threads w)) /\
       threads (snd (recover_error scenario_type w)) !! length (threads w)
         = Some (Thread scenario_type (Some 30)
                   (Some (clock (snd (recover_error scenario_type w)),
                          Some (length (events w))))) /\
       events (snd (recover_error scenario_type w)) !! length (events w)
         = Some None /\
       recovery_mode (snd (recover_error scenario_type w)) !! scenario_type
         = Some true) /\
      (~ (exists resp, reply_result r = inr resp /\ status_code resp = 200) ->
       snd (recover_error scenario_type w) = w1 /\ answer_status a = 500).
Proof.
  intros Ht. cbv zeta. unfold recover_error. rewrite Ht.
  rewrite (try_except_bind_ok _ _ _ _ _ _ (stop_requests_spec scenario_type w)).
  set (w0 := with_events (events_after_stop scenario_type w) w).
  assert (Hset0 : forall ev, stop_events w !! scenario_type = Some ev ->
            is_Some (events w !! ev) ->
            exists s, events w0 !! ev = Some (Some s))
    by (intros; by apply events_after_stop_set).
  destruct (readable (clock w)) eqn:Hread.
  2:{ destruct (load_config_raise w0 Hread) as (e & He & Hl).
      rewrite (try_except_bind_raise _ _ _ _ _ _ Hl).
      eexists. split; [reflexivity|]. simpl. split; [by right|].
      split; [exact Hset0|]. split; [done|].
      intros url Hc. apply config_at_readable in Hc. congruence. }
  rewrite (try_except_bind_ok _ _ _ _ _ _ (load_config_run w0 Hread)).
  change (clock w0) with (clock w).
  destruct (config_at (clock w) !! "error_injection_api") as [url|] eqn:Hc.
  2:{ rewrite (try_except_bind_raise _ _ _ _ _ _ (subscript_none _ _ w0 Hc)).
      eexists. split; [reflexivity|]. simpl. split; [by right|].
      split; [exact Hset0|]. split; [done|]. by intros ?. }
  rewrite (try_except_bind_ok _ _ _ _ _ _ (subscript_some _ _ _ w0 Hc)).
  unfold requests_post.
  set (call := HttpCall POST url _ 15).
  set (r := network (length (http_calls (trace w))) call).
  set (w1 := after w0 [(clock w, Http call)] (clock w + Z.of_N (reply_after r))).
  pose proof (request_run call w0) as Hreq.
  change (trace w0) with (trace w) in Hreq.
  change (clock w0) with (clock w) in Hreq. fold r in Hreq. fold w1 in Hreq.
  assert (Hset1 : forall ev, stop_events w !! scenario_type = Some ev ->
            is_Some (events w !! ev) ->
            exists s, events w1 !! ev = Some (Some s)) by done.
  destruct (reply_result r) as [e|resp] eqn:Hr.
  { rewrite (try_except_bind_raise _ _ _ _ _ _ Hreq).
    eexists. split; [reflexivity|]. simpl. split; [by right|].
    split; [exact Hset1|]. split; [done|].
    intros url' [= <-]. cbv zeta. fold call r w1. split.
    - intros (? & ? & _); congruence.
    - done. }
  rewrite (try_except_bind_ok _ _ _ _ _ _ Hreq).
  destruct (status_code resp =? 200) eqn:Hs.
  2:{ eexists. split; [reflexivity|]. simpl. split; [by right|].
      split; [exact Hset1|]. split; [done|].
      intros url' [= <-]. cbv zeta. fold call r w1. split.
      - intros (resp' & Hr' & ?). rewrite Hr in Hr'. injection Hr' as <-. lia.
      - done. }
  rewrite (try_except_bind_ok _ _ _ _ _ _
             (start_requests_ok scenario_type (Some 30) true w1)).
  destruct (answer_steps resp scenario_type
              " recovered, sending 30 normal requests to restore alarm"
              (snd (start_requests scenario_type (Some 30) true w1)))
    as (a & Hrun & Hst & Hiff).
  cbv beta. rewrite Hrun. exists a. split; [done|]. split; [done|].
  destruct (start_requests_spec scenario_type (Some 30) true w1)
    as (c & Hsp & _).
  assert (Hlen : length (events_after_stop scenario_type w) = length (events w))
    by apply events_after_stop_length.
  split.
  { intros ev Hk Hsome. simpl. rewrite Hsp. simpl.
    destruct (Hset1 ev Hk Hsome) as [s Hs1].
    assert (Hs2 : events_after_stop scenario_type w1 !! ev = Some (Some s)).
    { exact (settles_set w1 _ ev s (settles_stop scenario_type w1) Hs1). }
    exists s. by apply lookup_app_l_Some. }
  split; [done|]. intros url' [= <-]. cbv zeta. fold call r w1. split.
  - intros _. simpl. split; [done|].
    rewrite Hsp. simpl. rewrite !lookup_insert_eq.
    rewrite lookup_app_r, Nat.sub_diag by lia.
    repeat split; try done.
    + by rewrite Hlen.
    + rewrite lookup_app_r; rewrite events_after_stop_length; simpl;
        rewrite Hlen; [by rewrite Nat.sub_diag|lia].
  - intros Hno. destruct Hno. exists resp. split; [done|lia].
Qed.

(** ** get_status (app.py, lines 223-243) *)

Lemma obj_lookup_insert_eq fields k v :
  obj_lookup (obj_insert fields k v) k = Some v.
Proof.
  induction fields as [|[k' v'] rest IH]; simpl.
  - by rewrite String.eqb_refl.
  - destruct (String.eqb k' k) eqn:He; simpl.
    + by rewrite String.eqb_refl.
    + by rewrite He.
Qed.

Lemma obj_lookup_insert_ne fields k k' v :
  k <> k' -> obj_lookup (obj_insert fields k v) k' = obj_lookup fields k'.
Proof.
  intros Hne. induction fields as [|[k0 v0] rest IH]; simpl.
  - apply String.eqb_neq in Hne. by rewrite Hne.
  - destruct (String.eqb k0 k) eqn:He; simpl.
    + apply String.eqb_eq in He as ->.
      apply String.eqb_neq in Hne. by rewrite Hne.
    + by rewrite IH.
Qed.

Lemma obj_lookup_map_elem {A} (f : string * A -> json) (l : list (string * A)) k v :
  NoDup (l.*1) -> (k, v) ∈ l ->
  obj_lookup (map (fun kv => (fst kv, f kv)) l) k = Some (f (k, v)).
Proof.
  induction l as [|[k0 v0] rest IH]; intros Hnd Hin.
  - by apply elem_of_nil in Hin.
  - simpl in *. apply NoDup_cons in Hnd as [Hfresh Hnd].
    apply elem_of_cons in Hin as [[= <- <-]|Hin].
    + by rewrite String.eqb_refl.
    + destruct (String.eqb k0 k) eqn:He.
      * apply String.eqb_eq in He as ->. destruct Hfresh.
        apply list_elem_of_fmap. by exists (k, v).
      * by apply IH.
Qed.

Lemma obj_lookup_map_none {A} (f : string * A -> json) (l : list (string * A)) k :
  (forall v, (k, v) ∉ l) ->
  obj_lookup (map (fun kv => (fst kv, f kv)) l) k = None.
Proof.
  induction l as [|[k0 v0] rest IH]; intros Hno; [done|]. simpl.
  destruct (String.eqb k0 k) eqn:He.
  - apply String.eqb_eq in He as ->. destruct (Hno v0). by left.
  - apply IH. intros v Hin. apply (Hno v). by right.
Qed.

Lemma obj_lookup_map_to_list {A} (f : string * A -> json) (m : gmap string A) k :
  obj_lookup (map (fun kv => (fst kv, f kv)) (map_to_list m)) k
  = (fun v => f (k, v)) <$> m !! k.
Proof.
  destruct (m !! k) as [v|] eqn:Hk; simpl.
  - apply obj_lookup_map_elem; [apply NoDup_fst_map_to_list|].
    by apply elem_of_map_to_list.
  - apply obj_lookup_map_none. intros v Hin.
    apply elem_of_map_to_list in Hin. congruence.
Qed.

(** X15: get_status never raises and leaves the registry as it is.  It
    answers 200 exactly when the config has an injection API address,
    the one POST of action status to it (timeout 10) returns status 200
    and the body of the reply parses as a JSON object; any other case is
    a 500.  In a 200 answer the fields active_requests and
    recovery_requests describe the registry at the instant the reply
    arrived, they overwrite fields of the same name in the reply, and
    every other field of the reply is passed on unchanged. *)
Theorem get_status_answer w :
  exists a,
    fst (get_status w) = Ok a /\
    same_registry w (snd (get_status w)) /\
    (answer_status a = 200 \/ answer_status a = 500) /\
    (answer_status a = 200 <->
     exists url resp fields,
       config_at (clock w) !! "error_injection_api" = Some url /\
       reply_result (network (length (http_calls (trace w)))
                       (HttpCall POST url (Some [("action", "status")]) 10))
         = inr resp /\
       status_code resp = 200 /\
       decode_json resp = inr (JObj fields)) /\
    (answer_status a = 200 ->
     exists url resp fields fields',
       decode_json resp = inr (JObj fields) /\
       snd (get_status w)
         = after w [(clock w,
                     Http (HttpCall POST url (Some [("action", "status")]) 10))]
             (clock w
              + Z.of_N (reply_after
                          (network (length (http_calls (trace w)))
                             (HttpCall POST url
                                (Some [("action", "status")]) 10)))) /\
       reply_result (network (length (http_calls (trace w)))
                       (HttpCall POST url (Some [("action", "status")]) 10))
         = inr resp /\
       answer_body a = JObj fields' /\
       obj_lookup fields' "active_requests"
         = Some (active_requests (snd (get_status w))) /\
       obj_lookup fields' "recovery_requests"
         = Some (recovery_requests (snd (get_status w))) /\
       forall k, k <> "active_requests" -> k <> "recovery_requests" ->
                 obj_lookup fields' k = obj_lookup fields k).
Proof.
  unfold get_status.
  destruct (readable (clock w)) eqn:Hread.
  2:{ destruct (load_config_raise w Hread) as (e & He & Hl).
      rewrite (try_except_bind_raise _ _ _ _ _ _ Hl).
      eexists. split; [reflexivity|]. simpl. split; [done|].
      split; [by right|]. split; [|done].
      split; [done|]. intros (url & ? & ? & Hc & _).
      apply config_at_readable in Hc. congruence. }
  rewrite (try_except_bind_ok _ _ _ _ _ _ (load_config_run w Hread)).
  destruct (config_at (clock w) !! "error_injection_api") as [url|] eqn:Hc.
  2:{ rewrite (try_except_bind_raise _ _ _ _ _ _ (subscript_none _ _ w Hc)).
      eexists. split; [reflexivity|]. simpl. split; [done|].
      split; [by right|]. split; [|done].
      split; [done|]. by intros (? & ? & ? & ? & _). }
  rewrite (try_except_bind_ok _ _ _ _ _ _ (subscript_some _ _ _ w Hc)).
  unfold requests_post.
  set (call := HttpCall POST url _ 10).
  set (r := network (length (http_calls (trace w))) call).
  set (w1 := after w [(clock w, Http call)] (clock w + Z.of_N (reply_after r))).
  pose proof (request_run call w) as Hreq. fold r in Hreq. fold w1 in Hreq.
  destruct (reply_result r) as [e|resp] eqn:Hr.
  { rewrite (try_except_bind_raise _ _ _ _ _ _ Hreq).
    eexists. split; [reflexivity|]. simpl. split; [done|].
    split; [by right|]. split; [|done].
    split; [done|]. intros (url' & resp & fields & [= <-] & Hr' & _).
    fold call r in Hr'. congruence. }
  rewrite (try_except_bind_ok _ _ _ _ _ _ Hreq).
  destruct (status_code resp =? 200) eqn:Hs.
  2:{ eexists. split; [reflexivity|]. simpl. split; [done|].
      split; [by right|]. split; [|done].
      split; [done|]. intros (url' & resp' & fields & [= <-] & Hr' & ? & _).
      fold call r in Hr'. rewrite Hr in Hr'. injection Hr' as <-. lia. }
  unfold try_except, response_json, get_world, set_item.
  unfold mbind, M_bind, bind, ret, raise.
  destruct (decode_json resp) as [e|j] eqn:Hd.
  { eexists. split; [reflexivity|]. simpl. split; [done|].
    split; [by right|]. split; [|done].
    split; [done|]. intros (url' & resp' & fields & [= <-] & Hr' & ? & Hd').
    fold call r in Hr'. rewrite Hr in Hr'. injection Hr' as <-. congruence. }
  destruct j;
    try (eexists; split; [reflexivity|]; simpl; split; [done|];
         split; [by right|]; split; [|done];
         split; [done|];
         intros (url' & resp' & fields & [= <-] & Hr' & ? & Hd');
         fold call r in Hr'; rewrite Hr in Hr'; injection Hr' as <-;
         congruence).
  eexists. split; [reflexivity|]. simpl. split; [done|].
  split; [by left|]. split.
  - split; [|done]. intros _. exists url, resp, fields.
    repeat split; try done. lia.
  - intros _. exists url, resp, fields. eexists.
    split; [done|]. split; [done|]. split; [done|]. split; [reflexivity|].
    split; [|split].
    + by rewrite obj_lookup_insert_ne, obj_lookup_insert_eq.
    + by rewrite obj_lookup_insert_eq.
    + intros k H1 H2. by rewrite !obj_lookup_insert_ne.
Qed.

(** X16: what the status lists.  Both dicts of get_status have an entry
    for exactly the keys of request_threads: a runner that has finished
    stays listed, as inactive.  A key is listed as recovering only when
    it is listed as active and its recovery flag is set. *)
Theorem status_lists_registered_keys w k :
  exists act rec,
    active_requests w = JObj act /\
    recovery_requests w = JObj rec /\
    obj_lookup act k
      = (fun th => JBool (alive th w)) <$> request_threads w !! k /\
    obj_lookup rec k
      = (fun th => JBool (alive th w
                          && default false (recovery_mode w !! k)))
          <$> request_threads w !! k /\
    (obj_lookup rec k = Some (JBool true) ->
     obj_lookup act k = Some (JBool true) /\
     recovery_mode w !! k = Some true).
Proof.
  unfold active_requests, recovery_requests. eexists _, _.
  split; [reflexivity|]. split; [reflexivity|].
  rewrite (obj_lookup_map_to_list (fun kv => JBool (alive (snd kv) w))).
  rewrite (obj_lookup_map_to_list
             (fun kv => JBool (alive (snd kv) w
                               && default false (recovery_mode w !! fst kv)))).
  simpl. split; [done|]. split; [done|].
  destruct (request_threads w !! k) as [th|]; simpl; [|done].
  intros [= H]. apply andb_true_iff in H as [Ha Hm].
  rewrite Ha. split; [done|].
  destruct (recovery_mode w !! k) as [[]|]; simpl in *; congruence.
Qed.

(** ** Every route keeps the registry consistent *)

Lemma keeps_ret {A} (a : A) : keeps_registry (ret a).
Proof. by intros w Hok. Qed.

Lemma keeps_mret {A} (a : A) : keeps_registry (mret a : M A).
Proof. by intros w Hok. Qed.

Lemma keeps_raise {A} e : keeps_registry (raise e : M A).
Proof. by intros w Hok. Qed.

Lemma keeps_bind {A B} (m : M A) (k : A -> M B) :
  keeps_registry m -> (forall a, keeps_registry (k a)) ->
  keeps_registry (m ≫= k).
Proof.
  intros Hm Hk w Hok. specialize (Hm w Hok).
  unfold mbind, M_bind, bind. destruct (m w) as [[a|e] w']; [|done].
  by apply Hk.
Qed.

Lemma keeps_try_except {A} (m : M A) h :
  keeps_registry m -> (forall e, keeps_registry (h e)) ->
  keeps_registry (try_except m h).
Proof.
  intros Hm Hh w Hok. specialize (Hm w Hok).
  unfold try_except. destruct (m w) as [[a|e] w']; [done|].
  by apply Hh.
Qed.

Lemma keeps_settles {A} (m : M A) :
  (forall w, settles w (snd (m w))) -> keeps_registry m.
Proof. intros H w Hok. by eapply registry_ok_settles. Qed.

Lemma keeps_request c : keeps_registry (request c).
Proof.
  apply keeps_settles. intros w. rewrite request_run. simpl.
  apply settles_after. lia.
Qed.

Lemma keeps_load_config : keeps_registry load_config.
Proof.
  intros w Hok. unfold load_config.
  by destruct (config_file (clock w)) as [e|[j|]].
Qed.

Lemma keeps_subscript (d : gmap string string) k :
  keeps_registry (subscript d k).
Proof. intros w Hok. unfold subscript. by destruct (d !! k). Qed.

Lemma keeps_stop_requests scenario_type :
  keeps_registry (stop_requests scenario_type).
Proof.
  apply keeps_settles. intros w. rewrite stop_requests_spec. simpl.
  apply settles_stop.
Qed.

Lemma keeps_start_requests scenario_type max_requests is_recovery :
  keeps_registry (start_requests scenario_type max_requests is_recovery).
Proof. intros w Hok. by apply registry_ok_start. Qed.

Lemma keeps_response_json r : keeps_registry (response_json r).
Proof. intros w Hok. unfold response_json. by destruct (decode_json r). Qed.

Lemma keeps_table_subscript k : keeps_registry (table_subscript k).
Proof.
  intros w Hok. unfold table_subscript. by destruct (table_get scenarios k).
Qed.

Lemma keeps_set_item d k v : keeps_registry (set_item d k v).
Proof. intros w Hok. by destruct d. Qed.

Lemma keeps_get_world : keeps_registry get_world.
Proof. by intros w Hok. Qed.

Lemma keeps_recover_each keys config (results : gmap string string) :
  keeps_registry (recover_each keys config results).
Proof.
  intros w Hok.
  destruct (recover_each_effect keys config results w)
    as (results' & w' & Hrun & Hs & _).
  rewrite Hrun. by eapply registry_ok_settles.
Qed.

#[local] Hint Resolve keeps_ret keeps_mret keeps_raise keeps_request
  keeps_load_config keeps_subscript keeps_stop_requests keeps_start_requests
  keeps_response_json keeps_table_subscript keeps_set_item keeps_get_world
  keeps_recover_each : engine.

(** One step of a proof that a computation keeps the registry: the
    rule of the outermost construct. *)
Ltac keeps_step :=
  match goal with
  | |- keeps_registry (_ ≫= _) => apply keeps_bind; [|intros ?]
  | |- keeps_registry (try_except _ _) => apply keeps_try_except; [|intros ?]
  | |- keeps_registry (if ?b then _ else _) => destruct b
  | |- keeps_registry (match ?x with _ => _ end) => destruct x
  | |- keeps_registry _ => solve [auto with engine]
  end.

(** X17: every route keeps the three dicts and the two heaps consistent,
    whatever the config file holds, whatever the network answers and
    whatever the request carries: on a consistent registry inject_error,
    recover_error, recover_all, get_status and check_connection all end,
    by an answer or by an exception, in a consistent registry. *)
Theorem routes_keep_registry_consistent w :
  registry_ok w ->
  (forall scenario_type, registry_ok (snd (inject_error scenario_type w))) /\
  (forall scenario_type, registry_ok (snd (recover_error scenario_type w))) /\
  registry_ok (snd (recover_all w)) /\
  registry_ok (snd (get_status w)) /\
  (forall data, registry_ok (snd (check_connection data w))).
Proof.
  intros Hok. split; [|split; [|split; [|split]]]; intros *.
  - assert (H : keeps_registry (inject_error scenario_type))
      by (unfold inject_error, requests_post; repeat keeps_step).
    by apply H.
  - assert (H : keeps_registry (recover_error scenario_type))
      by (unfold recover_error, requests_post; repeat keeps_step).
    by apply H.
  - assert (H : keeps_registry recover_all)
      by (unfold recover_all; repeat keeps_step).
    by apply H.
  - assert (H : keeps_registry get_status)
      by (unfold get_status, requests_post; repeat keeps_step).
    by apply H.
  - assert (H : keeps_registry (check_connection data)).
    { unfold check_connection, requests_post, requests_get.
      cbv zeta. repeat keeps_step. }
    by apply H.
Qed.

End Engine.

(** * The config file routes (app.py, lines 47-58 and 156-174) *)

(** The runner's [load_config] reads the file as the routes do. *)
Lemma load_config_file config_file file w :
  config_file (clock w) = inr file ->
  load_config config_file w = (Ok (ConfigFile.load_config file), w).
Proof.
  intros H. unfold load_config, ConfigFile.load_config. rewrite H.
  by destruct file.
Qed.

Lemma truthy_default o :
  ConfigFile.truthy o = negb (is_empty (default "" o)).
Proof. by destruct o. Qed.

(** X18: update_config followed by get_config.  For each of the two
    addresses get_config then shows the value posted, and the value it
    showed before when none was posted; configured is true exactly when
    both values shown are non-empty. *)
Theorem update_config_then_get_config data file :
  let shown k := default "" (ConfigFile.load_config file !! k) in
  let e := default (shown "error_injection_api")
             (data !! "error_injection_api") in
  let s := default (shown "sample_api") (data !! "sample_api") in
  ConfigFile.get_config (snd (ConfigFile.update_config data file))
  = Answer (JObj [("error_injection_api", JStr e);
                  ("sample_api", JStr s);
                  ("configured",
                   JBool (negb (is_empty e) && negb (is_empty s)))]) 200.
Proof.
  cbv zeta. unfold ConfigFile.get_config, ConfigFile.update_config.
  unfold ConfigFile.save_config. cbn [snd ConfigFile.load_config].
  rewrite !truthy_default.
  set (config := ConfigFile.load_config file).
  destruct (data !! "error_injection_api") as [v1|];
    destruct (data !! "sample_api") as [v2|]; simpl;
    by simplify_map_eq.
Qed.

(** X19: what update_config writes.  The file exists afterwards, also
    when it did not before and nothing was posted; entries of the file
    under other keys are kept; fields of the posted data other than the
    two addresses are ignored; and posting the same data again leaves
    the file as it is. *)
Theorem update_config_file data file :
  exists config,
    snd (ConfigFile.update_config data file) = Some config /\
    (forall k, k <> "error_injection_api" -> k <> "sample_api" ->
               config !! k = ConfigFile.load_config file !! k) /\
    (forall data',
       data' !! "error_injection_api" = data !! "error_injection_api" ->
       data' !! "sample_api" = data !! "sample_api" ->
       ConfigFile.update_config data' file
       = ConfigFile.update_config data file) /\
    snd (ConfigFile.update_config data (Some config)) = Some config.
Proof.
  unfold ConfigFile.update_config, ConfigFile.save_config.
  cbn [snd ConfigFile.load_config].
  set (config := ConfigFile.load_config file).
  eexists. split; [reflexivity|]. split; [|split].
  - intros k H1 H2.
    destruct (data !! "error_injection_api") as [v1|];
      destruct (data !! "sample_api") as [v2|]; by simplify_map_eq.
  - intros data' -> ->. done.
  - destruct (data !! "error_injection_api") as [v1|];
      destruct (data !! "sample_api") as [v2|]; f_equal;
      apply map_eq; intros k;
      destruct (decide (k = "sample_api")) as [H1|H1];
      destruct (decide (k = "error_injection_api")) as [H2|H2];
      by simplify_map_eq.
Qed.

(** * Instances *)

(** C1, counterexample: started with max_requests = 1, the
    lambda_throttle runner counts 5 requests, and makes 5 calls, before
    it stops. *)
Lemma max_requests_one_burst :
  fst (send_continuous_requests steady_file (steady_network 100) sample_time
         SCENARIOS 3 "lambda_throttle" (Some 1)
         (registered_world "lambda_throttle"))
    = Ok (Stopped, 5) /\
  length (http_calls
            (trace (snd (send_continuous_requests steady_file
                           (steady_network 100) sample_time SCENARIOS 3
                           "lambda_throttle" (Some 1)
                           (registered_world "lambda_throttle"))))) = 5%nat /\
  ~ (5 <= 1).
Proof. split; [|split]; [vm_compute; reflexivity ..|lia]. Qed.

(** Started with max_requests = 0, a runner does not stop by itself:
    after four iterations it has made four calls and is still running. *)
Lemma max_requests_zero_keeps_running :
  fst (send_continuous_requests steady_file (steady_network 100) sample_time
         SCENARIOS 4 "s3_access" (Some 0) (registered_world "s3_access"))
    = Ok (Running, 4) /\
  length (http_calls
            (trace (snd (send_continuous_requests steady_file
                           (steady_network 100) sample_time SCENARIOS 4
                           "s3_access" (Some 0)
                           (registered_world "s3_access"))))) = 4%nat.
Proof. split; vm_compute; reflexivity. Qed.

Lemma max_requests_bound_witness :
  1 <= 30 /\
  exists st rc,
    fst (send_continuous_requests steady_file (steady_network 100) sample_time
           SCENARIOS 40 "lambda_throttle" (Some 30)
           (registered_world "lambda_throttle")) = Ok (st, rc) /\
    ("lambda_throttle" <> "lambda_throttle" -> rc <= 30) /\
    ("lambda_throttle" = "lambda_throttle" -> rc <= 5 * ((30 + 4) / 5)) /\
    Nat.le
      (length (http_calls
                 (drop (length (trace (registered_world "lambda_throttle")))
                    (trace (snd (send_continuous_requests steady_file
                                   (steady_network 100) sample_time SCENARIOS
                                   40 "lambda_throttle" (Some 30)
                                   (registered_world "lambda_throttle")))))))
      (Z.to_nat rc) /\
    ((forall t, clock (registered_world "lambda_throttle") <= t ->
                readable steady_file t = true) ->
     30 < Z.of_nat 40 -> st = Stopped).
Proof.
  split; [lia|].
  apply (max_requests_bound steady_file (steady_network 100) sample_time
           SCENARIOS 40 "lambda_throttle" 30
           (registered_world "lambda_throttle")).
  lia.
Defined.


(** When the second start finds the first runner asleep, the wait ends
    as that runner stops (here at 2100, the end of its sleep), and the new
    runner is the only live one. *)
Lemma restart_during_sleep_retires_first :
  let w2 := snd (start_requests steady_file (steady_network 100) sample_time
                   SCENARIOS "latency" None false
                   (with_clock 500
                      (snd (start_requests steady_file (steady_network 100)
                              sample_time SCENARIOS "latency" None false
                              (initial_world 0))))) in
  clock w2 = 2100 /\
  live_runners steady_file (steady_network 100) sample_time SCENARIOS
    "latency" w2 = [1%nat].
Proof. split; vm_compute; reflexivity. Qed.


(** Runners of earlier starts are not waited for: with calls of 10 s, a
    third start at 3200 finds the first runner (in its call until 10000)
    and the second (in its call until 13100) alive, waits its 3 s for the
    second only, and leaves three live runners for the key at 6200. *)
Lemma third_start_leaves_three_live_runners :
  let w1 := snd (start_requests steady_file (steady_network 10000) sample_time
                   SCENARIOS "latency" None false (initial_world 0)) in
  let w2 := snd (start_requests steady_file (steady_network 10000) sample_time
                   SCENARIOS "latency" None false (with_clock 100 w1)) in
  let w3 := snd (start_requests steady_file (steady_network 10000) sample_time
                   SCENARIOS "latency" None false (with_clock 3200 w2)) in
  clock w2 = 3100 /\ clock w3 = 6200 /\
  live_runners steady_file (steady_network 10000) sample_time SCENARIOS
    "latency" w3 = [0; 1; 2]%nat.
Proof. repeat split; vm_compute; reflexivity. Qed.

(** C3, counterexample: the s3_access runner is started at 0 and every
    call takes 100 ms, so that it sleeps from 100 to 2100; [stop_requests]
    sets its Event at 500.  The runner does not wake: it is still alive at
    501, at 1500 and at 2099, and is found stopped only at 2100. *)
Lemma stop_mid_sleep_does_not_wake :
  let w := snd (stop_requests "s3_access"
                  (with_clock 500
                     (snd (start_requests steady_file (steady_network 100)
                             sample_time SCENARIOS "s3_access" None false
                             (initial_world 0))))) in
  events w = [Some 500] /\
  alive steady_file (steady_network 100) sample_time SCENARIOS 0
    (with_clock 501 w) = true /\
  alive steady_file (steady_network 100) sample_time SCENARIOS 0
    (with_clock 1500 w) = true /\
  alive steady_file (steady_network 100) sample_time SCENARIOS 0
    (with_clock 2099 w) = true /\
  alive steady_file (steady_network 100) sample_time SCENARIOS 0
    (with_clock 2100 w) = false.
Proof. repeat split; vm_compute; reflexivity. Qed.

Lemma stop_during_sleep_witness :
  events stopped_at_500_world !! 0%nat = Some (Some 500) /\
  In (100, Sleep 2000)
     (drop (length (trace stopped_at_500_world))
        (trace (snd (while_loop steady_file (steady_network 100) sample_time
                       SCENARIOS 1 "s3_access" None 0 0
                       stopped_at_500_world)))) /\
  100 <= 500 < 100 + 2000 /\
  exists rc,
    fst (while_loop steady_file (steady_network 100) sample_time SCENARIOS
           2 "s3_access" None 0 0 stopped_at_500_world)
      = Ok (Stopped, rc) /\
    clock (snd (while_loop steady_file (steady_network 100) sample_time SCENARIOS
                  2 "s3_access" None 0 0 stopped_at_500_world)) = 100 + 2000 /\
    500 < 100 + 2000 <= 500 + 2000 /\
    Forall (fun e => fst e < 500)
      (http_calls
         (drop (length (trace stopped_at_500_world))
            (trace (snd (while_loop steady_file (steady_network 100) sample_time
                           SCENARIOS 2 "s3_access" None 0 0
                           stopped_at_500_world))))).
Proof.
  assert (H1 : events stopped_at_500_world !! 0%nat = Some (Some 500))
    by reflexivity.
  assert (H2 : In (100, Sleep 2000)
     (drop (length (trace stopped_at_500_world))
        (trace (snd (while_loop steady_file (steady_network 100) sample_time
                       SCENARIOS 1 "s3_access" None 0 0
                       stopped_at_500_world)))))
    by (vm_compute; right; left; reflexivity).
  assert (H3 : 100 <= 500 < 100 + 2000) by lia.
  split; [exact H1|]. split; [exact H2|]. split; [exact H3|].
  exact (stop_during_sleep steady_file (steady_network 100) sample_time SCENARIOS
           1 "s3_access" None 0 0 stopped_at_500_world 500 100 2000 H1 H2 H3).
Defined.

Lemma send_single_request_one_call_witness :
  exists c,
    http_calls (trace (snd (send_single_request (failing_network 5000) sample_time
                              sample_config "get_by_id" (initial_world 0))))
      = http_calls (trace (initial_world 0)) ++ [(clock (initial_world 0), c)] /\
    call_timeout c = 5 /\
    ("get_by_id" = "get_items" ->
       c = HttpCall GET ("http://sample.test" +:+ "/items") None 5) /\
    ("get_by_id" = "get_by_id" ->
       c = HttpCall GET ("http://sample.test" +:+ "/items/test-id-1") None 5) /\
    ("get_by_id" <> "get_items" -> "get_by_id" <> "get_by_id" ->
       c = HttpCall POST ("http://sample.test" +:+ "/items")
             (Some [("name", "Error Trigger");
                    ("content", "Request at " +:+ sample_time (clock (initial_world 0)))]) 5).
Proof.
  apply (send_single_request_one_call (failing_network 5000) sample_time
           sample_config "http://sample.test" "get_by_id" (initial_world 0)).
  vm_compute. reflexivity.
Defined.

Lemma send_continuous_requests_unregistered_witness :
  send_continuous_requests steady_file (steady_network 100) sample_time SCENARIOS
    7 "latency" (Some 30) (initial_world 0)
    = (Ok (Stopped, 0), initial_world 0).
Proof.
  apply (send_continuous_requests_unregistered steady_file (steady_network 100)
           sample_time SCENARIOS 7 "latency" (Some 30) (initial_world 0)).
  vm_compute. reflexivity.
Defined.

Lemma send_single_request_never_raises_witness :
  sample_config !! "sample_api" = Some "http://sample.test" /\
  reply_result
    (failing_network 5000 (length (http_calls (trace (initial_world 0))))
       (call_for "get_items" "http://sample.test"
          (sample_time (clock (initial_world 0)))))
    = inl (Exception "Timeout" "timed out") /\
  snd (send_single_request (failing_network 5000) sample_time sample_config
         "get_items" (initial_world 0))
    = after (initial_world 0)
        [(0, Http (HttpCall GET "http://sample.test/items" None 5));
         (5000, Print "Request failed: timed out")]
        5000.
Proof.
  assert (H1 : sample_config !! "sample_api" = Some "http://sample.test")
    by (vm_compute; reflexivity).
  assert (H2 : reply_result
    (failing_network 5000 (length (http_calls (trace (initial_world 0))))
       (call_for "get_items" "http://sample.test"
          (sample_time (clock (initial_world 0)))))
    = inl (Exception "Timeout" "timed out")) by reflexivity.
  split; [exact H1|]. split; [exact H2|].
  exact (proj1 (proj2 (send_single_request_never_raises steady_file
                         (failing_network 5000) sample_time SCENARIOS
                         sample_config "get_items" (initial_world 0)))
           "http://sample.test" (Exception "Timeout" "timed out") H1 H2).
Defined.

(** An edit of config.json between two cycles: the runner's first call,
    at 0, goes to the old address and its second call, at 2100, to the
    new one. *)
Lemma config_edit_shows_in_next_cycle :
  http_calls
    (trace (snd (while_loop edited_file (steady_network 100) sample_time
                   SCENARIOS 2 "latency" None 0 0 one_event_world)))
  = [(0, HttpCall GET "http://old.test/items" None 5);
     (2100, HttpCall GET "http://new.test/items" None 5)].
Proof. vm_compute. reflexivity. Qed.

Lemma missing_request_type_falls_back_witness :
  (table_get SCENARIOS "cpu_spike" = None \/
   exists d, table_get SCENARIOS "cpu_spike" = Some d /\
             d !! "request_type" = None) /\
  request_type_of SCENARIOS "cpu_spike" = "post_items" /\
  forall fuel max_requests ev request_count w,
    (exists st rc,
       fst (while_loop steady_file (steady_network 100) sample_time SCENARIOS
              fuel "cpu_spike" max_requests ev request_count w)
         = Ok (st, rc)) /\
    Forall (fun e =>
              exists base,
                config_at steady_file (fst e) !! "sample_api" = Some base /\
                snd e = HttpCall POST (base +:+ "/items")
                          (Some [("name", "Error Trigger");
                                 ("content", "Request at " +:+ sample_time (fst e))])
                          5)
      (http_calls
         (drop (length (trace w))
            (trace (snd (while_loop steady_file (steady_network 100) sample_time
                           SCENARIOS fuel "cpu_spike" max_requests ev
                           request_count w))))) /\
    (max_requests = None -> events w !! ev = Some None ->
     (exists rc,
        fst (while_loop steady_file (steady_network 100) sample_time SCENARIOS
               fuel "cpu_spike" max_requests ev request_count w)
          = Ok (Running, rc)) /\
     map snd
       (filter is_sleep
          (drop (length (trace w))
             (trace (snd (while_loop steady_file (steady_network 100)
                            sample_time SCENARIOS fuel "cpu_spike"
                            max_requests ev request_count w)))))
       = replicate fuel (Sleep 2000) /\
     clock w + 2000 * Z.of_nat fuel
       <= clock (snd (while_loop steady_file (steady_network 100) sample_time
                        SCENARIOS fuel "cpu_spike" max_requests ev
                        request_count w)) /\
     ForallOrdPairs cadence
       (filter is_sleep
          (drop (length (trace w))
             (trace (snd (while_loop steady_file (steady_network 100)
                            sample_time SCENARIOS fuel "cpu_spike"
                            max_requests ev request_count w))))) /\
     ("cpu_spike" <> "lambda_throttle" ->
      ForallOrdPairs cadence
        (http_calls
           (drop (length (trace w))
              (trace (snd (while_loop steady_file (steady_network 100)
                             sample_time SCENARIOS fuel "cpu_spike"
                             max_requests ev request_count w)))))) /\
     ((forall t, clock w <= t -> readable steady_file t = true) ->
      fst (while_loop steady_file (steady_network 100) sample_time SCENARIOS
             fuel "cpu_spike" max_requests ev request_count w)
        = Ok (Running, request_count + Z.of_nat fuel * step_of "cpu_spike")) /\
     ((forall t, is_Some (config_at steady_file t !! "sample_api")) ->
      length (http_calls
                (drop (length (trace w))
                   (trace (snd (while_loop steady_file (steady_network 100)
                                  sample_time SCENARIOS fuel "cpu_spike"
                                  max_requests ev request_count w)))))
        = Nat.mul fuel (Z.to_nat (step_of "cpu_spike")))).
Proof.
  assert (H : table_get SCENARIOS "cpu_spike" = None \/
              exists d, table_get SCENARIOS "cpu_spike" = Some d /\
                        d !! "request_type" = None)
    by (left; reflexivity).
  split; [exact H|].
  exact (missing_request_type_falls_back steady_file (steady_network 100)
           sample_time SCENARIOS "cpu_spike" H).
Defined.

(** With the table of app.py and nothing ever started, [recover_all]
    reports on the five scenarios; here the recovery API answers 200. *)
Lemma recover_all_on_empty_registry :
  fst (recover_all steady_file (steady_network 100) SCENARIOS (initial_world 0))
  = Ok ("All scenarios recovered",
        list_to_map
          [("s3_access", "recovered"); ("latency", "recovered");
           ("wrong_ids", "recovered"); ("lambda_throttle", "recovered");
           ("dynamodb_throttle", "recovered")]).
Proof. vm_compute. reflexivity. Qed.

(** ** Instances for the routes and the registry *)

(** A runner with a budget of 30 on the latency scenario counts 30. *)
Lemma recovery_budget_exact_witness :
  1 <= 30 /\ 30 < Z.of_nat 40 /\
  events (registered_world "latency") !! 0%nat = Some None /\
  (forall t, clock (registered_world "latency") <= t ->
             readable steady_file t = true) /\
  fst (while_loop steady_file (steady_network 100) sample_time SCENARIOS 40
         "latency" (Some 30) 0 0 (registered_world "latency"))
    = Ok (Stopped, 30).
Proof.
  split; [lia|]. split; [lia|]. split; [reflexivity|].
  split; [intros t _; reflexivity|].
  destruct (recovery_budget_exact steady_file (steady_network 100) sample_time
              SCENARIOS 40 "latency" 30 0%nat (registered_world "latency"))
    as [H _]; [lia|lia|reflexivity|intros t _; reflexivity|].
  exact H.
Defined.

(** With a config.json that holds no address the runner makes no call. *)
Lemma no_sample_api_no_calls_witness :
  (forall t, config_at blank_file t !! "sample_api" = None) /\
  http_calls
    (drop (length (trace (registered_world "latency")))
       (trace (snd (while_loop blank_file (steady_network 100) sample_time
                      SCENARIOS 5 "latency" None 0 0
                      (registered_world "latency"))))) = [].
Proof.
  split; [intros t; reflexivity|].
  destruct (no_sample_api_no_calls blank_file (steady_network 100) sample_time
              SCENARIOS 5 "latency" None 0%nat 0 (registered_world "latency"))
    as [H _]; [intros t; reflexivity|].
  exact H.
Defined.

(** Starting s3_access leaves the entry of a running latency scenario. *)
Lemma other_keys_untouched_witness :
  let w := snd (start_requests steady_file (steady_network 100) sample_time
                  SCENARIOS "latency" None false (initial_world 0)) in
  registry_ok w /\ "latency" <> "s3_access" /\
  request_threads
    (snd (start_requests steady_file (steady_network 100) sample_time
            SCENARIOS "s3_access" (Some 30) true w)) !! "latency"
    = request_threads w !! "latency".
Proof.
  cbv zeta.
  assert (Hok : registry_ok
                  (snd (start_requests steady_file (steady_network 100)
                          sample_time SCENARIOS "latency" None false
                          (initial_world 0))))
    by apply registry_ok_start, registry_ok_initial.
  split; [exact Hok|]. split; [done|].
  pose proof (other_keys_untouched steady_file (steady_network 100) sample_time
                SCENARIOS "s3_access" "latency" (Some 30) true _ Hok) as H.
  cbv zeta in H. destruct H as [(H & _) _]; [done|]. exact H.
Defined.

(** With replies after 3 seconds, so that no cycle of the latency
    scenario takes longer, a stopped runner is gone 5 seconds after the
    stop. *)
Lemma stop_requests_latency_witness :
  let w := snd (start_requests steady_file (steady_network 3000) sample_time
                  SCENARIOS "latency" None false (initial_world 0)) in
  (forall rc w0,
     clock (snd (cycle steady_file (steady_network 3000) sample_time SCENARIOS
                   "latency" rc w0)) <= clock w0 + 3000) /\
  registry_ok w /\
  request_threads w !! "latency" = Some 0%nat /\
  forall t, clock w + 3000 + 2000 <= t ->
    alive steady_file (steady_network 3000) sample_time SCENARIOS 0%nat
      (with_clock t (snd (stop_requests "latency" w))) = false.
Proof.
  cbv zeta.
  assert (Hok : registry_ok
                  (snd (start_requests steady_file (steady_network 3000)
                          sample_time SCENARIOS "latency" None false
                          (initial_world 0))))
    by apply registry_ok_start, registry_ok_initial.
  assert (Hth : request_threads
                  (snd (start_requests steady_file (steady_network 3000)
                          sample_time SCENARIOS "latency" None false
                          (initial_world 0))) !! "latency" = Some 0%nat)
    by (vm_compute; reflexivity).
  assert (Hcycle : forall rc w0,
            clock (snd (cycle steady_file (steady_network 3000) sample_time
                          SCENARIOS "latency" rc w0)) <= clock w0 + 3000).
  { intros rc w0.
    apply (cycle_duration steady_file (steady_network 3000) sample_time
             SCENARIOS 3000 ltac:(lia)).
    intros; simpl; lia. }
  split; [exact Hcycle|]. split; [exact Hok|].
  split; [exact Hth|].
  pose proof (stop_requests_latency steady_file (steady_network 3000)
                sample_time SCENARIOS 3000 "latency" 0%nat _
                Hcycle Hok Hth) as H.
  cbv zeta in H. destruct H as (max & start & ev & _ & H). exact H.
Defined.

(** A request without addresses is answered without a call. *)
Lemma check_connection_unconfigured_witness :
  (default "" ((∅ : gmap string string) !! "error_injection_api") = "" \/
   default "" ((∅ : gmap string string) !! "sample_api") = "") /\
  check_connection (steady_network 100) sample_isinstance ∅ (initial_world 0)
  = (Ok (Answer (JObj [("connected", JBool false);
                       ("error", JStr "API 地址未配置")]) 200),
     initial_world 0).
Proof.
  split; [by left|].
  apply (check_connection_unconfigured (steady_network 100) sample_isinstance
           ∅ (initial_world 0)).
  by left.
Defined.

(** With both addresses of [sample_config] and a network that answers
    200, the check answers connected. *)
Lemma check_connection_verdict_witness :
  default "" (sample_config !! "error_injection_api") <> "" /\
  default "" (sample_config !! "sample_api") <> "" /\
  exists body,
    fst (check_connection (steady_network 100) sample_isinstance sample_config
           (initial_world 0)) = Ok (Answer body 200).
Proof.
  assert (H1 : default "" (sample_config !! "error_injection_api") <> "")
    by (vm_compute; discriminate).
  assert (H2 : default "" (sample_config !! "sample_api") <> "")
    by (vm_compute; discriminate).
  split; [exact H1|]. split; [exact H2|].
  pose proof (check_connection_verdict (steady_network 100) sample_isinstance
                sample_config (initial_world 0) H1 H2) as H.
  cbv zeta in H. destruct H as (body & Hrun & _).
  exists body. by rewrite Hrun.
Defined.

(** A key that is not in [SCENARIOS] is rejected with status 400. *)
Lemma unknown_scenario_rejected_witness :
  table_get SCENARIOS "disk_full" = None /\
  inject_error steady_file (json_network 100) sample_time SCENARIOS
    sample_decode "disk_full" (initial_world 0)
  = (Ok (Answer (JObj [("error", JStr "Unknown scenario: disk_full")]) 400),
     initial_world 0).
Proof.
  split; [reflexivity|].
  destruct (unknown_scenario_rejected steady_file (json_network 100)
              sample_time SCENARIOS sample_decode "disk_full" (initial_world 0))
    as [H _]; [reflexivity|].
  exact H.
Defined.

(** inject_error on the latency scenario answers. *)
Lemma inject_error_starts_runner_on_200_witness :
  table_get SCENARIOS "latency"
    = Some (scenario_def "场景2: API延迟"
              "注入3000ms延迟到GET /items接口，模拟网络或后端响应慢"
              "GetAllItems-Latency" "get_items") /\
  exists a,
    fst (inject_error steady_file (json_network 100) sample_time SCENARIOS
           sample_decode "latency" (initial_world 0)) = Ok a /\
    (answer_status a = 200 \/ answer_status a = 500).
Proof.
  split; [reflexivity|].
  destruct (inject_error_starts_runner_on_200 steady_file (json_network 100)
              sample_time SCENARIOS sample_decode "latency" _ (initial_world 0)
              eq_refl)
    as (a & H1 & H2 & _).
  exists a. by split.
Defined.

(** recover_error on the latency scenario answers. *)
Lemma recover_error_stops_then_restarts_on_200_witness :
  table_get SCENARIOS "latency"
    = Some (scenario_def "场景2: API延迟"
              "注入3000ms延迟到GET /items接口，模拟网络或后端响应慢"
              "GetAllItems-Latency" "get_items") /\
  exists a,
    fst (recover_error steady_file (json_network 100) sample_time SCENARIOS
           sample_decode "latency" (initial_world 0)) = Ok a /\
    (answer_status a = 200 \/ answer_status a = 500).
Proof.
  split; [reflexivity|].
  pose proof (recover_error_stops_then_restarts_on_200 steady_file
                (json_network 100) sample_time SCENARIOS sample_decode
                "latency" _ (initial_world 0) eq_refl) as H.
  cbv zeta in H. destruct H as (a & H1 & H2 & _).
  exists a. by split.
Defined.

(** The registry after import is consistent, and stays so under
    get_status. *)
Lemma routes_keep_registry_consistent_witness :
  registry_ok (initial_world 0) /\
  registry_ok
    (snd (get_status steady_file (json_network 100) sample_time SCENARIOS
            sample_decode (initial_world 0))).
Proof.
  split; [apply registry_ok_initial|].
  destruct (routes_keep_registry_consistent steady_file (json_network 100)
              sample_time SCENARIOS sample_decode sample_isinstance
              (initial_world 0) (registry_ok_initial 0))
    as (_ & _ & _ & H & _).
  exact H.
Defined.

(** ** Instances with a config.json that cannot be read *)

(** C4, counterexample: a cycle of the lambda_throttle runner that finds
    config.json unreadable starts no worker, makes no call and leaves the
    count where it was; it records the failure and goes on to its
    sleep. *)
Lemma burst_cycle_unreadable_config :
  cycle broken_file (steady_network 100) sample_time SCENARIOS
    "lambda_throttle" 0 (registered_world "lambda_throttle")
  = (Ok 0,
     after (registered_world "lambda_throttle")
       [(0, Print ("Request failed (lambda_throttle): "
                   +:+ "Expecting value: line 1 column 1 (char 0)"))] 0) /\
  length (filter is_thread_start
            (trace (snd (cycle broken_file (steady_network 100) sample_time
                           SCENARIOS "lambda_throttle" 0
                           (registered_world "lambda_throttle"))))) <> 5%nat /\
  fst (cycle broken_file (steady_network 100) sample_time SCENARIOS
         "lambda_throttle" 0 (registered_world "lambda_throttle"))
    <> Ok (0 + 5).
Proof.
  split; [vm_compute; reflexivity|]. split; vm_compute; discriminate.
Qed.

Lemma burst_cycle_dispatches_five_witness :
  readable steady_file (clock (registered_world "lambda_throttle")) = true /\
  fst (cycle steady_file (failing_network 5000) sample_time SCENARIOS
         "lambda_throttle" 0 (registered_world "lambda_throttle"))
    = Ok (0 + 5) /\
  length (filter is_thread_start
            (drop (length (trace (registered_world "lambda_throttle")))
               (trace (snd (cycle steady_file (failing_network 5000)
                              sample_time SCENARIOS "lambda_throttle" 0
                              (registered_world "lambda_throttle"))))))
    = 5%nat.
Proof.
  split; [reflexivity|].
  destruct (burst_cycle_dispatches_five steady_file (failing_network 5000)
              sample_time SCENARIOS 0 (registered_world "lambda_throttle")
              eq_refl) as (H1 & H2 & _).
  by split.
Defined.

(** C8, at the failing input: config.json exists and is empty (as it is
    while [save_config] is rewriting it) and the latency scenario is
    running.  [recover_all] raises the error of [json.load]: it returns
    no mapping and stops no runner; the Event of the latency runner is
    still clear. *)
Lemma recover_all_raises_on_unreadable_config :
  recover_all broken_file (steady_network 100) SCENARIOS
    (registered_world "latency")
  = (Raise (Exception "JSONDecodeError"
              "Expecting value: line 1 column 1 (char 0)"),
     registered_world "latency") /\
  events (snd (recover_all broken_file (steady_network 100) SCENARIOS
                 (registered_world "latency"))) !! 0%nat = Some None /\
  (forall results,
     fst (recover_all broken_file (steady_network 100) SCENARIOS
            (registered_world "latency"))
     <> Ok ("All scenarios recovered", results)) /\
  exists a,
    fst (recover_error broken_file (steady_network 100) sample_time SCENARIOS
           sample_decode "latency" (registered_world "latency")) = Ok a /\
    answer_status a = 500.
Proof.
  split; [vm_compute; reflexivity|]. split; [vm_compute; reflexivity|].
  split; [intros results; vm_compute; discriminate|].
  eexists. split; [vm_compute; reflexivity|reflexivity].
Qed.

(** With the config of [steady_file], [recover_all] stops the running
    latency runner. *)
Lemma recover_all_stops_every_runner_witness :
  readable steady_file (clock (registered_world "latency")) = true /\
  exists s,
    events (snd (recover_all steady_file (steady_network 100) SCENARIOS
                   (registered_world "latency"))) !! 0%nat = Some (Some s).
Proof.
  split; [reflexivity|].
  pose proof (recover_all_stops_every_runner steady_file (steady_network 100)
                SCENARIOS (registered_world "latency") eq_refl) as H.
  cbv zeta in H. destruct H as (_ & H & _).
  apply (H "latency" 0%nat).
  - vm_compute. tauto.
  - vm_compute. reflexivity.
  - by eexists.
Defined.

Lemma recover_all_covers_every_key_witness :
  readable steady_file (clock (initial_world 0)) = true /\
  exists (results : gmap string string) w',
    recover_all steady_file (failing_network 10000) SCENARIOS (initial_world 0)
      = (Ok ("All scenarios recovered", results), w') /\
    (forall k, is_Some (results !! k) <-> In k (map fst SCENARIOS)).
Proof.
  split; [reflexivity|].
  destruct (recover_all_covers_every_key steady_file (failing_network 10000)
              SCENARIOS (initial_world 0) eq_refl)
    as (results & w' & H1 & H2 & _).
  by exists results, w'.
Defined.

(** A recovery runner with a budget of 1 that finds config.json
    unreadable is still running after 50 iterations, 100 seconds or more
    later, and has sent nothing. *)
Lemma unreadable_config_runner_witness :
  (forall t, clock (registered_world "latency") <= t ->
             readable broken_file t = false) /\
  events (registered_world "latency") !! 0%nat = Some None /\
  budget_reached (Some 1) 0 = false /\
  fst (while_loop broken_file (steady_network 100) sample_time SCENARIOS 50
         "latency" (Some 1) 0 0 (registered_world "latency"))
    = Ok (Running, 0) /\
  0 + 2000 * Z.of_nat 50
    <= clock (snd (while_loop broken_file (steady_network 100) sample_time
                     SCENARIOS 50 "latency" (Some 1) 0 0
                     (registered_world "latency"))).
Proof.
  split; [intros t _; reflexivity|]. split; [reflexivity|].
  split; [reflexivity|].
  pose proof (unreadable_config_runner broken_file (steady_network 100)
                sample_time SCENARIOS 50 "latency" (Some 1) 0%nat 0
                (registered_world "latency")
                ltac:(intros t _; reflexivity) eq_refl eq_refl) as H.
  cbv zeta in H. destruct H as (H1 & _ & _ & H4). by split.
Defined.
